(** * mcp-postgres-server: the tool and resource handlers over an abstract driver

    The repository holds four builds of one MCP adapter for PostgreSQL, each
    a class [PostgresServer]; a module below embeds each of them:

    - [Pooled]: a pg [Pool] made from the environment; resources, and the
      tools [test_connection], [execute_query], [create_table] and
      [insert_data]; an unknown tool is a [McpError];
    - [PooledQuery]: a pg [Pool]; resources, and the tools [query],
      [test_connection] and [create_table]; an unknown tool is an [Error]
      (the TypeScript source and its compiled build/postgres-server.js);
    - [PerCall]: one pg [Client] per call, built from the [url], [username]
      and [password] of the arguments; the four tools;
    - [EnvClient]: one pg [Client] per call, built from the environment; the
      four tools (a compiled build).

    The handlers are programs of a small monad that threads the state of
    the outside world (the PostgreSQL server reached through the [pg]
    driver), raises JavaScript exceptions and records every driver call in
    a trace.  The driver itself is a parameter: the theorems about the
    handlers hold for every driver. *)

From Stdlib Require Import String Ascii List ZArith Lia Bool DecimalString.
Import ListNotations.
Open Scope string_scope.

Set Implicit Arguments.
Set Warnings "-register-all".

(* ================================================================== *)
(** ** JavaScript values *)
(* ================================================================== *)

Module Js.

(** A JavaScript number is a double.  [Finite m e] is the double nearest to
    [m * 2^e], ties to the even significand, as a numeric literal of that
    value parses; so every integer and every binary fraction can be written,
    and what [2^53 + 1] denotes is [2^53]. *)
Inductive Number : Type :=
| Finite (m e : Z)
| NaN
| Infinity (negative : bool).

(** The number an integer literal parses to. *)
Definition integer (z : Z) : Number := Finite z 0.

(** What [JSON.parse] produces, the values of these kinds the driver puts
    in a row, and [undefined].  Strings are held as their UTF-8 bytes.  The properties of
    an object are its own properties, each key once, in the order
    [Object.keys] enumerates them; their values are never functions, so an
    object that owns a [toString] cannot be printed. *)
Inductive Value : Type :=
| Undefined
| Null
| Bool (b : bool)
| Num (x : Number)
| Str (s : string)
| Arr (items : list Value)
| Obj (props : list (string * Value)).

(** The error codes of the MCP SDK's [ErrorCode] enumeration. *)
Inductive ErrorCode : Type :=
| ConnectionClosed
| RequestTimeout
| ParseError
| InvalidRequest
| MethodNotFound
| InvalidParams
| InternalError.

Definition code_number (code : ErrorCode) : Z :=
  match code with
  | ConnectionClosed => -32000
  | RequestTimeout => -32001
  | ParseError => -32700
  | InvalidRequest => -32600
  | MethodNotFound => -32601
  | InvalidParams => -32602
  | InternalError => -32603
  end.

(** What a [throw] or a rejected promise carries.  [McpError code message]
    is [new McpError(code, message)], [Error] and [TypeError] likewise;
    the three are instances of [Error].  [Thrown] is any other value.  The
    messages of the [TypeError]s raised by the language itself follow V8; no
    statement below depends on their wording. *)
Inductive Exception : Type :=
| McpError (code : ErrorCode) (message : string)
| Error (message : string)
| TypeError (message : string)
| Thrown (v : Value).

(** *** Text *)

Definition quotation_mark : string := String "034"%char EmptyString.
Definition line_feed : string := String "010"%char EmptyString.

(** The decimal digits of an integer, with its sign. *)
Definition decimal (z : Z) : string := NilZero.string_of_int (Z.to_int z).

Definition decimal_nat (n : nat) : string := NilZero.string_of_uint (Nat.to_uint n).

(** [error.message]: the constructor of [McpError] passes
    [`MCP error ${code}: ${message}`] to [Error]. *)
Definition message (error : Exception) : option string :=
  match error with
  | McpError code text => Some ("MCP error " ++ decimal (code_number code) ++ ": " ++ text)
  | Error text => Some text
  | TypeError text => Some text
  | Thrown _ => None
  end.

(** [error instanceof Error ? error.message : '未知错误'] *)
Definition message_or_unknown (error : Exception) : string :=
  match message error with
  | Some text => text
  | None => "未知错误"
  end.

(** *** Number::toString *)

Section Doubles.

Local Open Scope Z_scope.

(** The double nearest to [m * 2^e] for [0 < m]: [Some (M, E)] is
    [M * 2^E] with [M < 2^53] and [-1074 <= E], [None] an overflow. *)
Definition to_double (m e : Z) : option (Z * Z) :=
  let E := Z.max (Z.log2 m + 1 + e - 53) (-1074) in
  let '(M, E) :=
    if E <=? e then (m * 2 ^ (e - E), E)
    else
      let unit := 2 ^ (E - e) in
      let q := m / unit in
      let r := m mod unit in
      let up := (unit <? 2 * r) || ((2 * r =? unit) && Z.odd q) in
      let M := if up then q + 1 else q in
      if M =? 2 ^ 53 then (2 ^ 52, E + 1) else (M, E) in
  if 1024 <? Z.log2 M + 1 + E then None else Some (M, E).

(** The multiples [s * 10^p] that round to the double [M * 2^E]: the
    least and the greatest [s], and the one nearest to the double (the even
    one of two). *)
Definition candidates (M E p : Z) : Z * Z * Z :=
  let below := if (M =? 2 ^ 52) && (-1074 <? E) then 1 else 2 in
  let inclusive := Z.even M in
  let scale := if 2 <=? E then 2 ^ (E - 2) else 1 in
  let divisor := if 2 <=? E then 1 else 2 ^ (2 - E) in
  let numerator := scale * (if p <? 0 then 10 ^ (- p) else 1) in
  let B := divisor * (if p <? 0 then 1 else 10 ^ p) in
  let low := (4 * M - below) * numerator in
  let mid := 4 * M * numerator in
  let high := (4 * M + 2) * numerator in
  let s_max := if negb inclusive && (high mod B =? 0) then high / B - 1 else high / B in
  let s_min :=
    if low mod B =? 0 then (if inclusive then low / B else low / B + 1)
    else low / B + 1 in
  let f := mid / B in
  let twice := 2 * (mid - f * B) in
  let nearest :=
    if f <? s_min then f + 1
    else if s_max <? f + 1 then f
    else if twice <? B then f
    else if B <? twice then f + 1
    else if Z.even f then f else f + 1 in
  (s_min, s_max, nearest).

(** The shortest digits that read back as the double: the greatest [p]
    for which a multiple of [10^p] rounds to it. *)
Fixpoint shortest (fuel : nat) (M E p : Z) : Z * Z :=
  match fuel with
  | O => (M, 0)
  | S fuel' =>
      let '(s_min, s_max, s) := candidates M E p in
      if s_min <=? s_max then (s, p) else shortest fuel' M E (p - 1)
  end.

Fixpoint zeros (n : nat) : string :=
  match n with
  | O => EmptyString
  | S m => String "0"%char (zeros m)
  end.

(** The text of the digits [s] times [10^p]: plain up to 21 integral
    digits and down to six zeros after the point, with an exponent beyond. *)
Definition layout (s p : Z) : string :=
  let digits := decimal s in
  let k := Z.of_nat (String.length digits) in
  let n := p + k in
  if (k <=? n) && (n <=? 21) then digits ++ zeros (Z.to_nat (n - k))
  else if (0 <? n) && (n <=? 21) then
    substring 0 (Z.to_nat n) digits ++ "."
    ++ substring (Z.to_nat n) (Z.to_nat (k - n)) digits
  else if (-6 <? n) && (n <=? 0) then "0." ++ zeros (Z.to_nat (- n)) ++ digits
  else
    let exponent := (if n - 1 <? 0 then "-" else "+") ++ decimal (Z.abs (n - 1)) in
    if k =? 1 then digits ++ "e" ++ exponent
    else substring 0 1 digits ++ "." ++ substring 1 (Z.to_nat (k - 1)) digits
         ++ "e" ++ exponent.

Definition positive_toString (m e : Z) : string :=
  match to_double m e with
  | None => "Infinity"
  | Some (M, E) =>
      if M =? 0 then "0"
      else
        let top := ((Z.log2 M + 1 + E) * 30103) / 100000 + 2 in
        let '(s, p) := shortest 64 M E top in
        layout s p
  end.

(** Whether the number is neither [NaN] nor an infinity. *)
Definition is_finite (x : Number) : bool :=
  match x with
  | Finite m e =>
      if m =? 0 then true
      else match to_double (Z.abs m) e with
           | Some _ => true
           | None => false
           end
  | _ => false
  end.

(** Number::toString(x).  An integer of magnitude below [2^53] is a double
    and its own shortest digits. *)
Definition Number_toString (x : Number) : string :=
  match x with
  | NaN => "NaN"
  | Infinity false => "Infinity"
  | Infinity true => "-Infinity"
  | Finite m e =>
      if (e =? 0) && (Z.abs m <? 9007199254740992) then decimal m
      else if m =? 0 then "0"
      else if m <? 0 then
        match positive_toString (- m) e with
        | "0" => "0"
        | t => "-" ++ t
        end
      else positive_toString m e
  end.

End Doubles.

(** *** Strings *)

(** A byte that continues a UTF-8 sequence (10xxxxxx). *)
Definition continuation (c : ascii) : bool :=
  (128 <=? nat_of_ascii c)%nat && (nat_of_ascii c <? 192)%nat.

(** The characters of a string, each with its continuation bytes: what
    iterating a string yields. *)
Fixpoint characters_from (current : string) (s : string) : list string :=
  match s with
  | EmptyString => [current]
  | String c rest =>
      if continuation c then characters_from (current ++ String c EmptyString) rest
      else current :: characters_from (String c EmptyString) rest
  end.

Definition characters (s : string) : list string :=
  match s with
  | EmptyString => []
  | String c rest => characters_from (String c EmptyString) rest
  end.

(** The length of a string in UTF-16 code units: one per character, two for
    a character outside the Basic Multilingual Plane (a four-byte sequence,
    whose two halves [Object.values] would list apart: such strings are
    outside what [characters] stands for there). *)
Fixpoint code_units (s : string) : nat :=
  match s with
  | EmptyString => 0
  | String c rest =>
      (if continuation c then 0
       else if (240 <=? nat_of_ascii c)%nat then 2
       else 1) + code_units rest
  end.

(** *** ToString *)

(** [key in Object.keys(props)] *)
Definition owns (key : string) (props : list (string * Value)) : bool :=
  existsb (fun p => String.eqb (fst p) key) props.

(** Whether ToString returns.  Printing an object calls its [toString];
    the one it inherits answers [[object Object]], one of its own is not a
    function and neither it nor [valueOf] yields a primitive: a
    [TypeError].  An array prints its items, [null] and [undefined] apart. *)
Fixpoint printable (v : Value) : bool :=
  match v with
  | Arr items =>
      (fix every (l : list Value) : bool :=
         match l with
         | [] => true
         | x :: rest => printable x && every rest
         end) items
  | Obj props => negb (owns "toString" props)
  | _ => true
  end.

(** What ToString returns when it does.  An array prints as [join(",")],
    where [null] and [undefined] items print as nothing. *)
Fixpoint printed (v : Value) : string :=
  match v with
  | Undefined => "undefined"
  | Null => "null"
  | Bool true => "true"
  | Bool false => "false"
  | Num x => Number_toString x
  | Str s => s
  | Arr items =>
      String.concat ","
        ((fix each (l : list Value) : list string :=
            match l with
            | [] => []
            | x :: rest =>
                match x with
                | Undefined | Null => EmptyString
                | _ => printed x
                end :: each rest
            end) items)
  | Obj _ => "[object Object]"
  end.

Definition not_primitive : Exception :=
  TypeError "Cannot convert object to primitive value".

(** ToString, as a template literal applies it. *)
Definition to_string (v : Value) : Exception + string :=
  if printable v then inr (printed v) else inl not_primitive.

(** The text of one item inside [Array.prototype.join]. *)
Definition join_item (v : Value) : string :=
  match v with
  | Undefined | Null => EmptyString
  | _ => printed v
  end.

(** [items.join(separator)] *)
Definition join (separator : string) (items : list Value) : Exception + string :=
  if forallb printable items
  then inr (String.concat separator (map join_item items))
  else inl not_primitive.

(** *** Objects *)

Fixpoint lookup (key : string) (props : list (string * Value)) : Value :=
  match props with
  | [] => Undefined
  | (k, v) :: rest => if String.eqb k key then v else lookup key rest
  end.

(** The indices of an array or of a string, as property keys. *)
Definition indices (n : nat) : list string := map decimal_nat (seq 0 n).

(** [Object.keys(v)] *)
Definition Object_keys (v : Value) : Exception + list Value :=
  match v with
  | Undefined | Null => inl (TypeError "Cannot convert undefined or null to object")
  | Bool _ | Num _ => inr []
  | Str s => inr (map Str (indices (code_units s)))
  | Arr items => inr (map Str (indices (List.length items)))
  | Obj props => inr (map (fun p => Str (fst p)) props)
  end.

(** [Object.values(v)] *)
Definition Object_values (v : Value) : Exception + list Value :=
  match v with
  | Undefined | Null => inl (TypeError "Cannot convert undefined or null to object")
  | Bool _ | Num _ => inr []
  | Str s => inr (map Str (characters s))
  | Arr items => inr items
  | Obj props => inr (map snd props)
  end.

(** [v.key] for the keys this program reads ([name], [type], [table_name]):
    only an object can own them. *)
Definition member (v : Value) (key : string) : Exception + Value :=
  match v with
  | Undefined =>
      inl (TypeError ("Cannot read properties of undefined (reading '" ++ key ++ "')"))
  | Null =>
      inl (TypeError ("Cannot read properties of null (reading '" ++ key ++ "')"))
  | Obj props => inr (lookup key props)
  | _ => inr Undefined
  end.

(** [v.length] *)
Definition length (v : Value) : Exception + Value :=
  match v with
  | Undefined => inl (TypeError "Cannot read properties of undefined (reading 'length')")
  | Null => inl (TypeError "Cannot read properties of null (reading 'length')")
  | Str s => inr (Num (integer (Z.of_nat (code_units s))))
  | Arr items => inr (Num (integer (Z.of_nat (List.length items))))
  | Obj props => inr (lookup "length" props)
  | _ => inr Undefined
  end.

(** The items a [for (const x of v)] loop visits. *)
Definition iterate (what : string) (v : Value) : Exception + list Value :=
  match v with
  | Arr items => inr items
  | Str s => inr (map Str (characters s))
  | _ => inl (TypeError (what ++ " is not iterable"))
  end.

(** The items [v.map(f)] visits: [v] has to be an array. *)
Definition array_items (what : string) (v : Value) : Exception + list Value :=
  match v with
  | Arr items => inr items
  | Undefined => inl (TypeError "Cannot read properties of undefined (reading 'map')")
  | Null => inl (TypeError "Cannot read properties of null (reading 'map')")
  | _ => inl (TypeError (what ++ ".map is not a function"))
  end.

(** [const { first, ... } = args]: the argument object, which the call may
    omit. *)
Definition destructure (first : string) (args : option (list (string * Value)))
  : Exception + list (string * Value) :=
  match args with
  | Some props => inr props
  | None =>
      inl (TypeError ("Cannot destructure property '" ++ first
                      ++ "' of 'args' as it is undefined."))
  end.

(** [s.split(separator)] for a one-character separator. *)
Fixpoint split_from (separator : ascii) (current : string) (s : string) : list string :=
  match s with
  | EmptyString => [current]
  | String c rest =>
      if Ascii.eqb c separator then current :: split_from separator EmptyString rest
      else split_from separator (current ++ String c EmptyString) rest
  end.

Definition split (separator : ascii) (s : string) : list string :=
  split_from separator EmptyString s.

(** [items[i]] *)
Definition at_index (items : list string) (i : nat) : Value :=
  match nth_error items i with
  | Some s => Str s
  | None => Undefined
  end.

(** *** JSON.stringify(value, null, space) *)

Definition hex_digit (n : nat) : string :=
  String (ascii_of_nat (if (n <? 10)%nat then 48 + n else 87 + n)) EmptyString.

(** QuoteJSONString, one byte at a time: the quotation mark, the backslash
    and the control characters are escaped, every other byte is kept. *)
Definition escape_char (c : ascii) : string :=
  let n := nat_of_ascii c in
  if (n =? 34)%nat then "\" ++ quotation_mark
  else if (n =? 92)%nat then "\\"
  else if (n =? 8)%nat then "\b"
  else if (n =? 9)%nat then "\t"
  else if (n =? 10)%nat then "\n"
  else if (n =? 12)%nat then "\f"
  else if (n =? 13)%nat then "\r"
  else if (n <? 32)%nat then "\u00" ++ hex_digit (n / 16) ++ hex_digit (n mod 16)
  else String c EmptyString.

Fixpoint escape (s : string) : string :=
  match s with
  | EmptyString => EmptyString
  | String c rest => escape_char c ++ escape rest
  end.

Definition quote (s : string) : string :=
  quotation_mark ++ escape s ++ quotation_mark.

Fixpoint spaces (n : nat) : string :=
  match n with
  | O => EmptyString
  | S m => String " "%char (spaces m)
  end.

(** The text between the brackets of a non-empty array or object. *)
Definition wrap (opening closing indent stepback : string) (partial : list string)
  : string :=
  match partial with
  | [] => opening ++ closing
  | _ =>
      opening ++ line_feed ++ indent
      ++ String.concat ("," ++ line_feed ++ indent) partial
      ++ line_feed ++ stepback ++ closing
  end.

(** SerializeJSONProperty with a non-empty gap; [None] is [undefined]. *)
Fixpoint serialize (gap indent : string) (v : Value) : option string :=
  match v with
  | Undefined => None
  | Null => Some "null"
  | Bool true => Some "true"
  | Bool false => Some "false"
  | Num x => Some (if is_finite x then Number_toString x else "null")
  | Str s => Some (quote s)
  | Arr items =>
      Some (wrap "[" "]" (indent ++ gap) indent
              ((fix each (l : list Value) : list string :=
                  match l with
                  | [] => []
                  | x :: rest =>
                      match serialize gap (indent ++ gap) x with
                      | Some t => t
                      | None => "null"
                      end :: each rest
                  end) items))
  | Obj props =>
      Some (wrap "{" "}" (indent ++ gap) indent
              ((fix each (l : list (string * Value)) : list string :=
                  match l with
                  | [] => []
                  | (k, x) :: rest =>
                      match serialize gap (indent ++ gap) x with
                      | Some t => (quote k ++ ": " ++ t) :: each rest
                      | None => each rest
                      end
                  end) props))
  end.

(** [JSON.stringify(v, null, space)] for [1 <= space]; [None] is [undefined]. *)
Definition JSON_stringify (v : Value) (space : nat) : option string :=
  serialize (spaces (Nat.min space 10)) EmptyString v.

End Js.


(* ================================================================== *)
(** ** The driver, the trace and the monad of the handlers *)
(* ================================================================== *)

(** A connection handle: the object [pool.connect()] resolves with, or the
    one [new Client(config)] builds. *)
Definition Client := nat.

(** What a resolved [client.query] carries: the result of the statement,
    or, for a text of several statements, the array of their results. *)
Inductive QueryResult : Type :=
| Result (rows : list Js.Value)
| Results (each : list (list Js.Value)).

(** [result.rows]: an array has no such property. *)
Definition rows (result : QueryResult) : Js.Value :=
  match result with
  | Result rows => Js.Arr rows
  | Results _ => Js.Undefined
  end.

(** One call into the driver, with whether it went through. *)
Inductive Event : Type :=
| PoolConnect (client : option Client)
| NewClient (config : Js.Value) (client : option Client)
| Connect (client : Client) (ok : bool)
| Query (client : Client) (text : Js.Value) (values : list Js.Value) (ok : bool)
| Release (client : Client)
| End_ (client : Client) (ok : bool)
| Warn (error : Js.Exception).

(** The [pg] driver and the server behind it, as transitions of a world [W].
    Nothing is assumed of them: a call may resolve or reject as it likes. *)
Record Driver (W : Type) : Type := {
  pool_connect : W -> (Js.Exception + Client) * W;
  new_Client : Js.Value -> W -> (Js.Exception + Client) * W;
  client_connect : Client -> W -> (Js.Exception + unit) * W;
  client_query :
    Client -> Js.Value -> list Js.Value -> W -> (Js.Exception + QueryResult) * W;
  client_release : Client -> W -> W;
  client_end : Client -> W -> (Js.Exception + unit) * W
}.

Section Effects.

Context {W : Type}.

(** What running a handler gives: a value or an exception, the world after,
    and the driver calls made, oldest first. *)
Definition Outcome (A : Type) : Type := ((Js.Exception + A) * W * list Event)%type.

Definition M (A : Type) : Type := W -> Outcome A.

Definition result {A} (o : Outcome A) : Js.Exception + A := fst (fst o).
Definition world {A} (o : Outcome A) : W := snd (fst o).
Definition trace {A} (o : Outcome A) : list Event := snd o.

Definition ret {A} (a : A) : M A := fun w => (inr a, w, []).

Definition throw {A} (e : Js.Exception) : M A := fun w => (inl e, w, []).

Definition bind {A B} (m : M A) (k : A -> M B) : M B :=
  fun w =>
    match m w with
    | (inl e, w1, t1) => (inl e, w1, t1)
    | (inr a, w1, t1) =>
        match k a w1 with
        | (r, w2, t2) => (r, w2, (t1 ++ t2)%list)
        end
    end.

(** A pure step that may throw. *)
Definition lift {A} (r : Js.Exception + A) : M A :=
  match r with
  | inl e => throw e
  | inr a => ret a
  end.

(** [try { body } catch (error) { handler }] *)
Definition try_catch {A} (body : M A) (handler : Js.Exception -> M A) : M A :=
  fun w =>
    match body w with
    | (inr a, w1, t1) => (inr a, w1, t1)
    | (inl e, w1, t1) =>
        match handler e w1 with
        | (r, w2, t2) => (r, w2, (t1 ++ t2)%list)
        end
    end.

(** [try { body } finally { cleanup }]: the cleanup runs on every exit, and
    an exception of its own replaces the body's outcome. *)
Definition try_finally {A} (body : M A) (cleanup : M unit) : M A :=
  fun w =>
    match body w with
    | (r, w1, t1) =>
        match cleanup w1 with
        | (inr _, w2, t2) => (r, w2, (t1 ++ t2)%list)
        | (inl e, w2, t2) => (inl e, w2, (t1 ++ t2)%list)
        end
    end.

Variable pg : Driver W.

(** [await this.pool.connect()] *)
Definition await_pool_connect : M Client :=
  fun w =>
    match pool_connect pg w with
    | (inr c, w1) => (inr c, w1, [PoolConnect (Some c)])
    | (inl e, w1) => (inl e, w1, [PoolConnect None])
    end.

(** [new Client(config)] *)
Definition construct_Client (config : Js.Value) : M Client :=
  fun w =>
    match new_Client pg config w with
    | (inr c, w1) => (inr c, w1, [NewClient config (Some c)])
    | (inl e, w1) => (inl e, w1, [NewClient config None])
    end.

(** [await client.connect()] *)
Definition await_connect (client : Client) : M unit :=
  fun w =>
    match client_connect pg client w with
    | (inr u, w1) => (inr u, w1, [Connect client true])
    | (inl e, w1) => (inl e, w1, [Connect client false])
    end.

(** [await client.query(text, values)] *)
Definition await_query (client : Client) (text : Js.Value) (values : list Js.Value)
  : M QueryResult :=
  fun w =>
    match client_query pg client text values w with
    | (inr r, w1) => (inr r, w1, [Query client text values true])
    | (inl e, w1) => (inl e, w1, [Query client text values false])
    end.

(** [client.release()] *)
Definition release (client : Client) : M unit :=
  fun w => (inr tt, client_release pg client w, [Release client]).

(** [await client.end()] *)
Definition await_end (client : Client) : M unit :=
  fun w =>
    match client_end pg client w with
    | (inr u, w1) => (inr u, w1, [End_ client true])
    | (inl e, w1) => (inl e, w1, [End_ client false])
    end.

(** [console.warn(error)] *)
Definition console_warn (error : Js.Exception) : M unit :=
  fun w => (inr tt, w, [Warn error]).

(** [await client.query('ROLLBACK').catch(console.warn)] *)
Definition rollback_or_warn (client : Client) : M unit :=
  try_catch
    (bind (await_query client (Js.Str "ROLLBACK") []) (fun _ => ret tt))
    console_warn.

End Effects.

Notation "x <- m ;; k" := (bind m (fun x => k))
  (at level 61, m at next level, right associativity).
Notation "m ;;; k" := (bind m (fun _ => k))
  (at level 61, right associativity).

(* ================================================================== *)
(** ** The response envelope *)
(* ================================================================== *)

(** [{ type, text }]; a [text] that is [undefined] is [None]. *)
Record ContentItem : Type := { type : string; text : option string }.

(** [{ content, isError, _meta }]; an absent [isError] or [_meta] is [None]. *)
Record ToolResponse : Type := {
  content : list ContentItem;
  isError : option bool;
  _meta : option Js.Value
}.


(** [JSON.stringify(result.rows, null, 2)] *)
Definition stringify_rows (result : QueryResult) : option string :=
  Js.JSON_stringify (rows result) 2.

(* ================================================================== *)
(** ** Statement text, the same in every build *)
(* ================================================================== *)

Module Sql.

Definition and_then {A B} (r : Js.Exception + A) (k : A -> Js.Exception + B)
  : Js.Exception + B :=
  match r with
  | inl e => inl e
  | inr a => k a
  end.

(** [col => `${col.name} ${col.type}`] *)
Definition columnDefinition (col : Js.Value) : Js.Exception + Js.Value :=
  and_then (Js.member col "name") (fun name =>
  and_then (Js.to_string name) (fun name_text =>
  and_then (Js.member col "type") (fun type_ =>
  and_then (Js.to_string type_) (fun type_text =>
  inr (Js.Str (name_text ++ " " ++ type_text)))))).

(** [items.map(f)] for an [f] that may throw: the first exception ends it. *)
Fixpoint map_throwing (f : Js.Value -> Js.Exception + Js.Value) (items : list Js.Value)
  : Js.Exception + list Js.Value :=
  match items with
  | [] => inr []
  | x :: rest =>
      and_then (f x) (fun y =>
      and_then (map_throwing f rest) (fun ys => inr (y :: ys)))
  end.

(** [columns.map(col => `${col.name} ${col.type}`).join(', ')] *)
Definition columnDefinitions (columns : Js.Value) : Js.Exception + string :=
  and_then (Js.array_items "columns" columns) (fun items =>
  and_then (map_throwing columnDefinition items) (fun definitions =>
  Js.join ", " definitions)).

(** [`CREATE TABLE ${tableName} (${columnDefinitions})`] *)
Definition createTableQuery (tableName columns : Js.Value) : Js.Exception + string :=
  and_then (columnDefinitions columns) (fun definitions =>
  and_then (Js.to_string tableName) (fun name =>
  inr ("CREATE TABLE " ++ name ++ " (" ++ definitions ++ ")"))).

(** [val => typeof val === 'string' ? `'${val}'` : val] *)
Definition quoteString (val : Js.Value) : Js.Value :=
  match val with
  | Js.Str s => Js.Str ("'" ++ s ++ "'")
  | _ => val
  end.

(** The statement of one record:
    [`INSERT INTO ${tableName} (${columns}) VALUES (${values})`]. *)
Definition insertQuery (tableName record : Js.Value) : Js.Exception + string :=
  and_then (Js.Object_keys record) (fun keys =>
  and_then (Js.join ", " keys) (fun columns =>
  and_then (Js.Object_values record) (fun vals =>
  and_then (Js.join ", " (map quoteString vals)) (fun values =>
  and_then (Js.to_string tableName) (fun name =>
  inr ("INSERT INTO " ++ name ++ " (" ++ columns
       ++ ") VALUES (" ++ values ++ ")")))))).

End Sql.

Definition Arguments_ := option (list (string * Js.Value)).

Record ResourceDescriptor : Type := {
  uri : string;
  mimeType : string;
  name : string
}.

Record ResourceContents : Type := {
  contents_uri : string;
  contents_mimeType : string;
  contents_text : option string
}.

(* ================================================================== *)
(** ** The pooled build with four tools and resources *)
(* ================================================================== *)

Module Pooled.
Section Handlers.

Context {W : Type} (pg : Driver W).

(** [this.connectionString], fixed when the server starts. *)
Variable connectionString : string.

(** The ListResources handler. *)
Definition describe (row : Js.Value) : Js.Exception + ResourceDescriptor :=
  Sql.and_then (Js.member row "table_name") (fun table_name =>
  Sql.and_then (Js.to_string table_name) (fun table =>
  inr {| uri := "postgres://" ++ table ++ "/schema";
         mimeType := "application/json";
         name := Js.quotation_mark ++ table ++ Js.quotation_mark ++ " 数据库架构" |})).

Fixpoint describe_all (rows : list Js.Value) : Js.Exception + list ResourceDescriptor :=
  match rows with
  | [] => inr []
  | row :: rest =>
      Sql.and_then (describe row) (fun d =>
      Sql.and_then (describe_all rest) (fun ds => inr (d :: ds)))
  end.

Definition list_resources : M (list ResourceDescriptor) :=
  client <- await_pool_connect pg ;;
  try_finally
    (result <- await_query pg client
       (Js.Str "SELECT table_name FROM information_schema.tables WHERE table_schema = 'public'")
       [] ;;
     lift (Sql.and_then (Js.array_items "result.rows" (rows result)) describe_all))
    (release pg client).

(** [request.params.uri.split('/')[2]] *)
Definition tableName_of (uri : string) : Js.Value :=
  Js.at_index (Js.split "/" uri) 2.

(** The ReadResource handler. *)
Definition read_resource (uri : string) : M (list ResourceContents) :=
  client <- await_pool_connect pg ;;
  try_finally
    (let tableName := tableName_of uri in
     result <- await_query pg client
       (Js.Str "SELECT column_name, data_type FROM information_schema.columns WHERE table_name = $1")
       [tableName] ;;
     ret [{| contents_uri := uri;
             contents_mimeType := "application/json";
             contents_text := stringify_rows result |}])
    (release pg client).

Definition testConnection : M ToolResponse :=
  client <- construct_Client pg
              (Js.Obj [("connectionString", Js.Str connectionString)]) ;;
  try_catch
    (await_connect pg client ;;;
     await_end pg client ;;;
     ret {| content := [{| type := "text"; text := Some "数据库连接成功" |}];
            isError := None;
            _meta := Some (Js.Obj []) |})
    (fun error =>
       ret {| content := [{| type := "text";
                             text := Some ("数据库连接失败: " ++ Js.message_or_unknown error) |}];
              isError := Some true;
              _meta := Some (Js.Obj []) |}).

Definition executeQuery (args : Arguments_) : M ToolResponse :=
  props <- lift (Js.destructure "query" args) ;;
  let query := Js.lookup "query" props in
  client <- await_pool_connect pg ;;
  try_finally
    (try_catch
       (await_query pg client (Js.Str "BEGIN TRANSACTION READ ONLY") [] ;;;
        result <- await_query pg client query [] ;;
        ret {| content := [{| type := "text"; text := stringify_rows result |}];
               isError := None;
               _meta := Some (Js.Obj []) |})
       (fun error =>
          ret {| content := [{| type := "text";
                                text := Some ("查询执行失败: " ++ Js.message_or_unknown error) |}];
                 isError := Some true;
                 _meta := Some (Js.Obj []) |}))
    (rollback_or_warn pg client ;;; release pg client).

Definition createTable (args : Arguments_) : M ToolResponse :=
  props <- lift (Js.destructure "tableName" args) ;;
  let tableName := Js.lookup "tableName" props in
  let columns := Js.lookup "columns" props in
  client <- await_pool_connect pg ;;
  try_finally
    (try_catch
       (createTableQuery <- lift (Sql.createTableQuery tableName columns) ;;
        await_query pg client (Js.Str createTableQuery) [] ;;;
        name <- lift (Js.to_string tableName) ;;
        ret {| content := [{| type := "text";
                              text := Some ("表 " ++ name ++ " 创建成功") |}];
               isError := None;
               _meta := Some (Js.Obj []) |})
       (fun error =>
          ret {| content := [{| type := "text";
                                text := Some ("创建表失败: " ++ Js.message_or_unknown error) |}];
                 isError := Some true;
                 _meta := Some (Js.Obj []) |}))
    (release pg client).

(** The body of [for (const record of data)]. *)
Fixpoint insert_each (client : Client) (tableName : Js.Value) (records : list Js.Value)
  : M unit :=
  match records with
  | [] => ret tt
  | record :: rest =>
      insertQuery <- lift (Sql.insertQuery tableName record) ;;
      await_query pg client (Js.Str insertQuery) [] ;;;
      insert_each client tableName rest
  end.

Definition insertData (args : Arguments_) : M ToolResponse :=
  props <- lift (Js.destructure "tableName" args) ;;
  let tableName := Js.lookup "tableName" props in
  let data := Js.lookup "data" props in
  client <- await_pool_connect pg ;;
  try_finally
    (try_catch
       (records <- lift (Js.iterate "data" data) ;;
        insert_each client tableName records ;;;
        name <- lift (Js.to_string tableName) ;;
        length <- lift (Js.length data) ;;
        count <- lift (Js.to_string length) ;;
        ret {| content := [{| type := "text";
                              text := Some ("成功向 " ++ name ++ " 插入 "
                                            ++ count ++ " 条数据") |}];
               isError := None;
               _meta := Some (Js.Obj []) |})
       (fun error =>
          ret {| content := [{| type := "text";
                                text := Some ("插入数据失败: " ++ Js.message_or_unknown error) |}];
                 isError := Some true;
                 _meta := Some (Js.Obj []) |}))
    (release pg client).

(** The CallTool handler: [switch (request.params.name)]. *)
Definition call_tool (name : string) (arguments : Arguments_) : M ToolResponse :=
  if String.eqb name "test_connection" then testConnection
  else if String.eqb name "execute_query" then executeQuery arguments
  else if String.eqb name "create_table" then createTable arguments
  else if String.eqb name "insert_data" then insertData arguments
  else throw (Js.McpError Js.MethodNotFound ("未知工具: " ++ name)).

End Handlers.
End Pooled.

(* ================================================================== *)
(** ** The pooled build with the [query] tool *)
(* ================================================================== *)

Module PooledQuery.
Section Handlers.

Context {W : Type} (pg : Driver W).

Variable connectionString : string.

(** The resource handlers read as those of the four-tool pooled build. *)
Definition list_resources : M (list ResourceDescriptor) := Pooled.list_resources pg.

Definition read_resource (uri : string) : M (list ResourceContents) :=
  Pooled.read_resource pg uri.

Definition testConnection : M ToolResponse :=
  client <- construct_Client pg
              (Js.Obj [("connectionString", Js.Str connectionString)]) ;;
  try_catch
    (await_connect pg client ;;;
     await_end pg client ;;;
     ret {| content := [{| type := "text"; text := Some "数据库连接成功" |}];
            isError := None;
            _meta := None |})
    (fun error =>
       ret {| content := [{| type := "text";
                             text := Some ("数据库连接失败: " ++ Js.message_or_unknown error) |}];
              isError := Some true;
              _meta := None |}).

Definition executeQuery (args : Arguments_) : M ToolResponse :=
  props <- lift (Js.destructure "sql" args) ;;
  let sql := Js.lookup "sql" props in
  client <- await_pool_connect pg ;;
  try_finally
    (try_catch
       (await_query pg client (Js.Str "BEGIN TRANSACTION READ ONLY") [] ;;;
        result <- await_query pg client sql [] ;;
        ret {| content := [{| type := "text"; text := stringify_rows result |}];
               isError := None;
               _meta := None |})
       (fun error =>
          ret {| content := [{| type := "text";
                                text := Some ("查询执行失败: " ++ Js.message_or_unknown error) |}];
                 isError := Some true;
                 _meta := None |}))
    (rollback_or_warn pg client ;;; release pg client).

Definition createTable (args : Arguments_) : M ToolResponse :=
  props <- lift (Js.destructure "tableName" args) ;;
  let tableName := Js.lookup "tableName" props in
  let columns := Js.lookup "columns" props in
  client <- await_pool_connect pg ;;
  try_finally
    (try_catch
       (createTableQuery <- lift (Sql.createTableQuery tableName columns) ;;
        await_query pg client (Js.Str createTableQuery) [] ;;;
        name <- lift (Js.to_string tableName) ;;
        ret {| content := [{| type := "text";
                              text := Some ("表 " ++ name ++ " 创建成功") |}];
               isError := None;
               _meta := None |})
       (fun error =>
          ret {| content := [{| type := "text";
                                text := Some ("创建表失败: " ++ Js.message_or_unknown error) |}];
                 isError := Some true;
                 _meta := None |}))
    (release pg client).

(** The CallTool handler; the default case throws a plain [Error]. *)
Definition call_tool (name : string) (arguments : Arguments_) : M ToolResponse :=
  if String.eqb name "query" then executeQuery arguments
  else if String.eqb name "test_connection" then testConnection
  else if String.eqb name "create_table" then createTable arguments
  else throw (Js.Error ("未知工具: " ++ name)).

End Handlers.
End PooledQuery.

(* ================================================================== *)
(** ** The builds that open one client per call *)
(* ================================================================== *)

(** What the four executors of both builds do with the client they were
    given: they differ only in the configuration the client is built from. *)
Module OneClient.
Section Executors.

Context {W : Type} (pg : Driver W).

Definition testConnection (config : Js.Value) : M ToolResponse :=
  client <- construct_Client pg config ;;
  try_catch
    (await_connect pg client ;;;
     await_end pg client ;;;
     ret {| content := [{| type := "text"; text := Some "数据库连接成功" |}];
            isError := None;
            _meta := Some (Js.Obj []) |})
    (fun error =>
       ret {| content := [{| type := "text";
                             text := Some ("数据库连接失败: " ++ Js.message_or_unknown error) |}];
              isError := Some true;
              _meta := Some (Js.Obj []) |}).

Definition executeQuery (config query : Js.Value) : M ToolResponse :=
  client <- construct_Client pg config ;;
  try_catch
    (await_connect pg client ;;;
     result <- await_query pg client query [] ;;
     await_end pg client ;;;
     ret {| content := [{| type := "text"; text := stringify_rows result |}];
            isError := None;
            _meta := Some (Js.Obj []) |})
    (fun error =>
       ret {| content := [{| type := "text";
                             text := Some ("查询执行失败: " ++ Js.message_or_unknown error) |}];
              isError := Some true;
              _meta := Some (Js.Obj []) |}).

Definition createTable (config tableName columns : Js.Value) : M ToolResponse :=
  client <- construct_Client pg config ;;
  try_catch
    (await_connect pg client ;;;
     createTableQuery <- lift (Sql.createTableQuery tableName columns) ;;
     await_query pg client (Js.Str createTableQuery) [] ;;;
     await_end pg client ;;;
     name <- lift (Js.to_string tableName) ;;
     ret {| content := [{| type := "text";
                           text := Some ("表 " ++ name ++ " 创建成功") |}];
            isError := None;
            _meta := Some (Js.Obj []) |})
    (fun error =>
       ret {| content := [{| type := "text";
                             text := Some ("创建表失败: " ++ Js.message_or_unknown error) |}];
              isError := Some true;
              _meta := Some (Js.Obj []) |}).

Definition insertData (config tableName data : Js.Value) : M ToolResponse :=
  client <- construct_Client pg config ;;
  try_catch
    (await_connect pg client ;;;
     records <- lift (Js.iterate "data" data) ;;
     Pooled.insert_each pg client tableName records ;;;
     await_end pg client ;;;
     name <- lift (Js.to_string tableName) ;;
     length <- lift (Js.length data) ;;
     count <- lift (Js.to_string length) ;;
     ret {| content := [{| type := "text";
                           text := Some ("成功向 " ++ name ++ " 插入 "
                                         ++ count ++ " 条数据") |}];
            isError := None;
            _meta := Some (Js.Obj []) |})
    (fun error =>
       ret {| content := [{| type := "text";
                             text := Some ("插入数据失败: " ++ Js.message_or_unknown error) |}];
              isError := Some true;
              _meta := Some (Js.Obj []) |}).

End Executors.
End OneClient.

(** Credentials in the arguments of every call. *)
Module PerCall.
Section Handlers.

Context {W : Type} (pg : Driver W).

(** [{ connectionString: url, user: username, password }] *)
Definition config_of (props : list (string * Js.Value)) : Js.Value :=
  Js.Obj [("connectionString", Js.lookup "url" props);
          ("user", Js.lookup "username" props);
          ("password", Js.lookup "password" props)].

Definition testConnection (args : Arguments_) : M ToolResponse :=
  props <- lift (Js.destructure "url" args) ;;
  OneClient.testConnection pg (config_of props).

Definition executeQuery (args : Arguments_) : M ToolResponse :=
  props <- lift (Js.destructure "url" args) ;;
  OneClient.executeQuery pg (config_of props) (Js.lookup "query" props).

Definition createTable (args : Arguments_) : M ToolResponse :=
  props <- lift (Js.destructure "url" args) ;;
  OneClient.createTable pg (config_of props)
    (Js.lookup "tableName" props) (Js.lookup "columns" props).

Definition insertData (args : Arguments_) : M ToolResponse :=
  props <- lift (Js.destructure "url" args) ;;
  OneClient.insertData pg (config_of props)
    (Js.lookup "tableName" props) (Js.lookup "data" props).

Definition call_tool (name : string) (arguments : Arguments_) : M ToolResponse :=
  if String.eqb name "test_connection" then testConnection arguments
  else if String.eqb name "execute_query" then executeQuery arguments
  else if String.eqb name "create_table" then createTable arguments
  else if String.eqb name "insert_data" then insertData arguments
  else throw (Js.McpError Js.MethodNotFound ("未知工具: " ++ name)).

End Handlers.
End PerCall.

(** Credentials read from the environment when the server starts. *)
Module EnvClient.
Section Handlers.

Context {W : Type} (pg : Driver W).

Variable connectionString : string.

(** [{ connectionString: this.connectionString }] *)
Definition config : Js.Value :=
  Js.Obj [("connectionString", Js.Str connectionString)].

Definition testConnection : M ToolResponse :=
  OneClient.testConnection pg config.

Definition executeQuery (args : Arguments_) : M ToolResponse :=
  props <- lift (Js.destructure "query" args) ;;
  OneClient.executeQuery pg config (Js.lookup "query" props).

Definition createTable (args : Arguments_) : M ToolResponse :=
  props <- lift (Js.destructure "tableName" args) ;;
  OneClient.createTable pg config
    (Js.lookup "tableName" props) (Js.lookup "columns" props).

Definition insertData (args : Arguments_) : M ToolResponse :=
  props <- lift (Js.destructure "tableName" args) ;;
  OneClient.insertData pg config
    (Js.lookup "tableName" props) (Js.lookup "data" props).

Definition call_tool (name : string) (arguments : Arguments_) : M ToolResponse :=
  if String.eqb name "test_connection" then testConnection
  else if String.eqb name "execute_query" then executeQuery arguments
  else if String.eqb name "create_table" then createTable arguments
  else if String.eqb name "insert_data" then insertData arguments
  else throw (Js.McpError Js.MethodNotFound ("未知工具: " ++ name)).

End Handlers.
End EnvClient.

(* ================================================================== *)
(** ** A reference server to run the handlers against *)
(* ================================================================== *)

(** A small in-memory stand-in for PostgreSQL behind [pg]: it keeps the
    write statements it applied, refuses writes inside a READ ONLY
    transaction, refuses a table created twice and a [VALUES ()] list.  A
    text of several statements is run statement by statement, as the simple
    query protocol does, and resolves with the array of their results; a
    [COMMIT] inside it ends the transaction the connection was in. *)
Module Reference.

Record World : Type := {
  reachable : bool;
  read_only : bool;
  stored : list string
}.

Definition ends_with (suffix s : string) : bool :=
  String.eqb
    (substring (String.length s - String.length suffix) (String.length suffix) s)
    suffix.

(** The table a [CREATE TABLE name (...)] statement names. *)
Definition created_table (statement : string) : option string :=
  if prefix "CREATE TABLE " statement
  then hd_error (Js.split " " (substring 13 (String.length statement - 13) statement))
  else None.

Fixpoint tables (statements : list string) : list string :=
  match statements with
  | [] => []
  | s :: rest =>
      match created_table s with
      | Some t => t :: tables rest
      | None => tables rest
      end
  end.

Definition is_write (statement : string) : bool :=
  prefix "INSERT " statement || prefix "UPDATE " statement
  || prefix "DELETE " statement || prefix "DROP " statement
  || prefix "CREATE " statement.

Definition table_row (t : string) : Js.Value := Js.Obj [("table_name", Js.Str t)].

Definition within (w : World) (transaction : bool) : World :=
  {| reachable := reachable w; read_only := transaction; stored := stored w |}.

Definition storing (w : World) (statement : string) : World :=
  {| reachable := reachable w; read_only := read_only w;
     stored := (stored w ++ [statement])%list |}.

(** One statement: its rows, or the error, which leaves the world as it
    was. *)
Definition run_one (statement : string) (w : World)
  : (Js.Exception + list Js.Value) * World :=
  if String.eqb statement "BEGIN TRANSACTION READ ONLY" then (inr [], within w true)
  else if String.eqb statement "ROLLBACK" then (inr [], within w false)
  else if String.eqb statement "COMMIT" then (inr [], within w false)
  else if String.eqb statement "SELECT 1 AS one" then
    (inr [Js.Obj [("one", Js.Num (Js.integer 1))]], w)
  else if prefix "SELECT table_name FROM information_schema.tables" statement then
    (inr (map table_row (tables (stored w))), w)
  else if prefix "SELECT " statement then (inr [], w)
  else if is_write statement then
    if read_only w then
      (inl (Js.Error "cannot execute statement in a read-only transaction"), w)
    else if ends_with "VALUES ()" statement then
      (inl (Js.Error "syntax error at or near )"), w)
    else
      match created_table statement with
      | Some t =>
          if existsb (String.eqb t) (tables (stored w)) then
            (inl (Js.Error ("relation " ++ t ++ " already exists")), w)
          else (inr [], storing w statement)
      | None => (inr [], storing w statement)
      end
  else (inl (Js.Error "syntax error"), w).

Fixpoint trim_start (s : string) : string :=
  match s with
  | String " " rest => trim_start rest
  | _ => s
  end.

(** The statements of a text: its parts between semicolons, the empty
    ones apart. *)
Definition statements_of (text : string) : list string :=
  filter (fun s => negb (String.eqb s EmptyString))
    (map trim_start (Js.split ";" text)).

Definition ends_transaction (statement : string) : bool :=
  String.eqb statement "COMMIT" || String.eqb statement "ROLLBACK".

(** The statements of one text in turn.  An error undoes what the text
    did since its last [COMMIT] or [ROLLBACK], if any, else since its
    beginning. *)
Fixpoint run_all (statements : list string) (checkpoint w : World)
  : (Js.Exception + list (list Js.Value)) * World :=
  match statements with
  | [] => (inr [], w)
  | s :: rest =>
      match run_one s w with
      | (inl e, _) => (inl e, checkpoint)
      | (inr rows, w1) =>
          match run_all rest (if ends_transaction s then w1 else checkpoint) w1 with
          | (inr others, w2) => (inr (rows :: others), w2)
          | (inl e, w2) => (inl e, w2)
          end
      end
  end.

Definition run (text : string) (w : World) : (Js.Exception + QueryResult) * World :=
  match statements_of text with
  | [] => (inr (Result []), w)
  | [statement] =>
      match run_one statement w with
      | (inr rows, w1) => (inr (Result rows), w1)
      | (inl e, w1) => (inl e, w1)
      end
  | statements =>
      match run_all statements w w with
      | (inr each, w1) => (inr (Results each), w1)
      | (inl e, w1) => (inl e, w1)
      end
  end.

Definition refused : Js.Exception := Js.Error "connect ECONNREFUSED 127.0.0.1:5432".

Definition pg : Driver World := {|
  pool_connect := fun w => if reachable w then (inr 0, w) else (inl refused, w);
  new_Client := fun _ w => (inr 1, w);
  client_connect := fun _ w => if reachable w then (inr tt, w) else (inl refused, w);
  client_query := fun _ text _ w =>
    match text with
    | Js.Str statement => run statement w
    | _ => (inl (Js.TypeError "Client was passed a null or undefined query"), w)
    end;
  client_release := fun _ w => w;
  client_end := fun _ w => (inr tt, w)
|}.

(** An empty database that accepts connections, and one that is down. *)
Definition up : World := {| reachable := true; read_only := false; stored := [] |}.
Definition down : World := {| reachable := false; read_only := false; stored := [] |}.

(** A reachable database that applied the statements. *)
Definition holding (statements : list string) : World :=
  {| reachable := true; read_only := false; stored := statements |}.

End Reference.


(* ================================================================== *)
(** ** What the statements below speak of *)
(* ================================================================== *)

(** The exception an outcome carries, if the handler threw. *)
Definition thrown {W A} (o : @Outcome W A) : option Js.Exception :=
  match result o with
  | inl e => Some e
  | inr _ => None
  end.

(** The world after the driver ran the statements one after the other on
    one connection and accepted each; [None] if it rejected one. *)
Fixpoint accepts_all {W} (pg : Driver W) (client : Client) (statements : list string)
  (w : W) : option W :=
  match statements with
  | [] => Some w
  | s :: rest =>
      match client_query pg client (Js.Str s) [] w with
      | (inr _, w1) => accepts_all pg client rest w1
      | (inl _, _) => None
      end
  end.

(** A statement the driver accepted, as the trace shows it. *)
Definition accepted (client : Client) (statement : string) : Event :=
  Query client (Js.Str statement) [] true.

(** *** Resources *)

(** A string without the separator. *)
Fixpoint free_of (separator : ascii) (s : string) : bool :=
  match s with
  | EmptyString => true
  | String c rest => negb (Ascii.eqb c separator) && free_of separator rest
  end.

(** The row the catalog query gives for a table. *)
Definition catalog_row (t : string) : Js.Value := Js.Obj [("table_name", Js.Str t)].

Definition schema_uri (t : string) : string := "postgres://" ++ t ++ "/schema".

(** *** The read-only protocol of the pooled [executeQuery] *)

(** How the [finally] block shows in the trace: the rollback, a warning if
    it was rejected, and the release. *)
Inductive RolledBack (client : Client) : list Event -> Prop :=
| rolled_back :
    RolledBack client
      [Query client (Js.Str "ROLLBACK") [] true; Release client]
| rollback_rejected (e : Js.Exception) :
    RolledBack client
      [Query client (Js.Str "ROLLBACK") [] false; Warn e; Release client].

(** The driver calls of one read-only run on [client]: the transaction is
    opened first, the statement is sent only once it is open, and the
    rollback and the release follow in every case. *)
Inductive ReadOnlyRun (client : Client) (statement : Js.Value) : list Event -> Prop :=
| run_inside (ok : bool) (tail : list Event) :
    RolledBack client tail ->
    ReadOnlyRun client statement
      (PoolConnect (Some client)
       :: Query client (Js.Str "BEGIN TRANSACTION READ ONLY") [] true
       :: Query client statement [] ok
       :: tail)
| run_not_begun (tail : list Event) :
    RolledBack client tail ->
    ReadOnlyRun client statement
      (PoolConnect (Some client)
       :: Query client (Js.Str "BEGIN TRANSACTION READ ONLY") [] false
       :: tail).

(** *** Dispatch *)

Definition recognized_by_Pooled (name : string) : bool :=
  String.eqb name "test_connection" || String.eqb name "execute_query"
  || String.eqb name "create_table" || String.eqb name "insert_data".

Definition recognized_by_PooledQuery (name : string) : bool :=
  String.eqb name "query" || String.eqb name "test_connection"
  || String.eqb name "create_table".

(** *** Statements, in the words of the specification *)

(** A column of [create_table]: [{ name, type }]. *)
Record ColumnDefinition : Type := { column_name : string; column_type : string }.

Definition column_value (col : ColumnDefinition) : Js.Value :=
  Js.Obj [("name", Js.Str (column_name col)); ("type", Js.Str (column_type col))].

(** [CREATE TABLE <tableName> (<name1> <type1>, <name2> <type2>, ...)] *)
Definition create_table_statement (tableName : string) (columns : list ColumnDefinition)
  : string :=
  "CREATE TABLE " ++ tableName ++ " ("
  ++ String.concat ", " (map (fun col => column_name col ++ " " ++ column_type col) columns)
  ++ ")".

(** A value inside [VALUES (...)]: a string between single quotes as it
    is; a number and a boolean as JavaScript prints them, with no quotes;
    [null] and [undefined] as nothing; an array or an object as its
    printed text. *)
Definition sql_literal (v : Js.Value) : string :=
  match v with
  | Js.Str s => "'" ++ s ++ "'"
  | Js.Num x => Js.Number_toString x
  | Js.Bool true => "true"
  | Js.Bool false => "false"
  | Js.Null | Js.Undefined => EmptyString
  | Js.Arr _ | Js.Obj _ => Js.printed v
  end.

(** [INSERT INTO <tableName> (<keys>) VALUES (<values>)] *)
Definition insert_statement (tableName : string) (record : list (string * Js.Value))
  : string :=
  "INSERT INTO " ++ tableName ++ " (" ++ String.concat ", " (map fst record)
  ++ ") VALUES (" ++ String.concat ", " (map (fun p => sql_literal (snd p)) record)
  ++ ")".

(** The statements of a batch, one per record. *)
Definition insert_statements (tableName : Js.Value)
  (records : list (list (string * Js.Value))) : list string :=
  map (insert_statement (Js.printed tableName)) records.

(** A record whose values can all be printed: none is an object that
    owns a [toString], or an array that holds one. *)
Definition printable_record (record : list (string * Js.Value)) : bool :=
  forallb (fun p => Js.printable (snd p)) record.

(** *** Envelopes *)

(** The text of a count: an array holds fewer than [2^32] items. *)
Definition count_text (n : nat) : string :=
  Js.Number_toString (Js.integer (Z.of_nat n)).

(** The success text of [insertData] for [n] records. *)
Definition inserted (meta : option Js.Value) (tableName : Js.Value) (n : nat)
  : ToolResponse :=
  {| content := [{| type := "text";
                    text := Some ("成功向 " ++ Js.printed tableName ++ " 插入 "
                                  ++ count_text n ++ " 条数据") |}];
     isError := None;
     _meta := meta |}.

(** The failure text of [insertData]. *)
Definition not_inserted (meta : option Js.Value) (e : Js.Exception) : ToolResponse :=
  {| content := [{| type := "text";
                    text := Some ("插入数据失败: " ++ Js.message_or_unknown e) |}];
     isError := Some true;
     _meta := meta |}.

(** The success text of [createTable]. *)
Definition created (meta : option Js.Value) (tableName : Js.Value) : ToolResponse :=
  {| content := [{| type := "text";
                    text := Some ("表 " ++ Js.printed tableName ++ " 创建成功") |}];
     isError := None;
     _meta := meta |}.

Definition one_text (r : ToolResponse) : Prop :=
  exists t, content r = [{| type := "text"; text := t |}].

(** Whatever response the handler returns holds one text item. *)
Definition responds_with_one_text {W} (m : @M W ToolResponse) : Prop :=
  forall w r, result (m w) = inr r -> one_text r.

(** The handler never throws. *)
Definition returns {W A} (m : @M W A) : Prop := forall w, thrown (m w) = None.

(** The property an executor destructures first from its arguments. *)
Definition first_property (name : string) : string :=
  if String.eqb name "execute_query" then "query"
  else if String.eqb name "query" then "sql"
  else "tableName".

(** [e] was raised before the executor entered its [try] block: by
    [new Client(config)] in [testConnection]; in the executors that use the
    pool, by destructuring the arguments when the call brought none, or by
    [pool.connect()]. *)
Definition raised_before_try {W} (pg : Driver W) (connectionString name : string)
  (args : Arguments_) (w : W) (e : Js.Exception) : Prop :=
  if String.eqb name "test_connection" then
    exists w1,
      new_Client pg (Js.Obj [("connectionString", Js.Str connectionString)]) w
      = (inl e, w1)
  else
    Js.destructure (first_property name) args = inl e
    \/ (args <> None /\ exists w1, pool_connect pg w = (inl e, w1)).

(** *** The rows as text, in the words of the specification *)

(** JSON text as RFC 8259 words it, laid out with two spaces for every
    level of nesting. *)
Module Json.

Definition hexadecimal : list ascii :=
  ["0"; "1"; "2"; "3"; "4"; "5"; "6"; "7"; "8"; "9"; "a"; "b"; "c"; "d"; "e"; "f"]%char.

Definition hex (n : nat) : ascii := nth n hexadecimal "0"%char.

(** A character inside a string: the quotation mark, the reverse solidus
    and the control characters (U+0000 through U+001F) are escaped, the
    latter by their short form where there is one. *)
Definition escaped (c : ascii) : string :=
  match c with
  | "034"%char => String "\" (String "034" EmptyString)
  | "\"%char => "\\"
  | "008"%char => "\b"
  | "009"%char => "\t"
  | "010"%char => "\n"
  | "012"%char => "\f"
  | "013"%char => "\r"
  | _ =>
      if (nat_of_ascii c <? 32)%nat
      then "\u00" ++ String (hex (nat_of_ascii c / 16))
                       (String (hex (nat_of_ascii c mod 16)) EmptyString)
      else String c EmptyString
  end.

(** A string: its characters between quotation marks. *)
Definition string_literal (s : string) : string :=
  String "034" (String.concat EmptyString (map escaped (list_ascii_of_string s)))
  ++ String "034" EmptyString.

Definition hex_value (c : ascii) : option nat :=
  let n := nat_of_ascii c in
  if (48 <=? n)%nat && (n <=? 57)%nat then Some (n - 48)
  else if (97 <=? n)%nat && (n <=? 102)%nat then Some (n - 87)
  else if (65 <=? n)%nat && (n <=? 70)%nat then Some (n - 55)
  else None.

(** Reading a string after its opening quotation mark: the characters it
    denotes up to the closing mark, and what follows it.  A control
    character that is not escaped ends the reading with [None], as does an
    escape that RFC 8259 does not have; of the [\uXXXX] escapes, those of
    one byte are read. *)
Fixpoint read_string (s : string) : option (string * string) :=
  match s with
  | EmptyString => None
  | String "034" rest => Some (EmptyString, rest)
  | String "\" (String c rest) =>
      let continue (d : ascii) (rest : option (string * string)) :=
        match rest with
        | Some (t, following) => Some (String d t, following)
        | None => None
        end in
      match c with
      | "034"%char => continue "034"%char (read_string rest)
      | "\"%char => continue "\"%char (read_string rest)
      | "/"%char => continue "/"%char (read_string rest)
      | "b"%char => continue "008"%char (read_string rest)
      | "t"%char => continue "009"%char (read_string rest)
      | "n"%char => continue "010"%char (read_string rest)
      | "f"%char => continue "012"%char (read_string rest)
      | "r"%char => continue "013"%char (read_string rest)
      | "u"%char =>
          match rest with
          | String "0" (String "0" (String h (String l rest'))) =>
              match hex_value h, hex_value l with
              | Some high, Some low =>
                  continue (ascii_of_nat (16 * high + low)) (read_string rest')
              | _, _ => None
              end
          | _ => None
          end
      | _ => None
      end
  | String c rest =>
      if (nat_of_ascii c <? 32)%nat then None
      else match read_string rest with
           | Some (t, following) => Some (String c t, following)
           | None => None
           end
  end.

(** The string a JSON string denotes. *)
Definition unquote (s : string) : option string :=
  match s with
  | String "034" rest =>
      match read_string rest with
      | Some (t, EmptyString) => Some t
      | _ => None
      end
  | _ => None
  end.

Fixpoint indentation (depth : nat) : string :=
  match depth with
  | O => EmptyString
  | S d => indentation d ++ "  "
  end.

(** An array or an object at a depth: empty, its brackets alone; else its
    parts one under the other, one level deeper, and the closing bracket
    under the opening one. *)
Definition block (opening closing : string) (depth : nat) (parts : list string)
  : string :=
  match parts with
  | [] => opening ++ closing
  | _ =>
      opening
      ++ String.concat ","
           (map (fun part => Js.line_feed ++ indentation (S depth) ++ part) parts)
      ++ Js.line_feed ++ indentation depth ++ closing
  end.

(** A number: its digits as JavaScript prints them; JSON has no [NaN] and
    no infinity, which are written [null]. *)
Definition number (x : Js.Number) : string :=
  if Js.is_finite x then Js.Number_toString x else "null".

(** The text of a value at a depth; [undefined] has none.  Inside an
    array [undefined] is written [null]; inside an object a member whose
    value is [undefined] is left out. *)
Fixpoint pretty (depth : nat) (v : Js.Value) : option string :=
  match v with
  | Js.Undefined => None
  | Js.Null => Some "null"
  | Js.Bool true => Some "true"
  | Js.Bool false => Some "false"
  | Js.Num x => Some (number x)
  | Js.Str s => Some (string_literal s)
  | Js.Arr items =>
      Some (block "[" "]" depth
              ((fix elements (l : list Js.Value) : list string :=
                  match l with
                  | [] => []
                  | x :: rest =>
                      match pretty (S depth) x with
                      | Some t => t :: elements rest
                      | None => "null" :: elements rest
                      end
                  end) items))
  | Js.Obj props =>
      Some (block "{" "}" depth
              ((fix members (l : list (string * Js.Value)) : list string :=
                  match l with
                  | [] => []
                  | (k, x) :: rest =>
                      match pretty (S depth) x with
                      | Some t => (string_literal k ++ ": " ++ t) :: members rest
                      | None => members rest
                      end
                  end) props))
  end.

End Json.

(** The rows of a result as text: the array of the rows in their order,
    each row with its columns in their order; a result that is an array of
    results has no rows and no text. *)
Definition rows_text (result : QueryResult) : option string :=
  match result with
  | Result rows => Json.pretty 0 (Js.Arr rows)
  | Results _ => None
  end.

(** The rows one under the other between brackets, two spaces in. *)
Definition pretty_rows (rows : list Js.Value) : string :=
  Json.block "[" "]" 0
    (map (fun row => match Json.pretty 1 row with
                     | Some t => t
                     | None => "null"
                     end) rows).

(** [[{"one": 1}]] printed with an indentation of two spaces. *)
Definition one_is_1 : string :=
  "[" ++ Js.line_feed
  ++ "  {" ++ Js.line_feed
  ++ "    " ++ Js.quotation_mark ++ "one" ++ Js.quotation_mark ++ ": 1" ++ Js.line_feed
  ++ "  }" ++ Js.line_feed
  ++ "]".

(** *** Calls used as examples on the reference server *)

Module Example.

Definition connectionString : string := "postgresql://u:p@localhost:5432/db".

Definition two_records : list (list (string * Js.Value)) :=
  [[("a", Js.Num (Js.integer 1)); ("b", Js.Str "x")];
   [("a", Js.Bool true); ("b", Js.Str "y")]].

Definition insert_two : list (string * Js.Value) :=
  [("tableName", Js.Str "t"); ("data", Js.Arr (map Js.Obj two_records))].

(** A batch whose second record yields [VALUES ()], which the reference
    server rejects. *)
Definition insert_three : list (string * Js.Value) :=
  [("tableName", Js.Str "t");
   ("data", Js.Arr (map Js.Obj [[("a", Js.Num (Js.integer 1))]; [("a", Js.Null)];
                                [("a", Js.Num (Js.integer 3))]]))].

Definition columns : list ColumnDefinition :=
  [{| column_name := "id"; column_type := "integer" |};
   {| column_name := "v"; column_type := "text" |}].

Definition create_t1 : list (string * Js.Value) :=
  [("tableName", Js.Str "t1"); ("columns", Js.Arr (map column_value columns))].

End Example.

(** *** Connections handed back *)

(** How many times the trace releases the client to the pool. *)
Fixpoint released (client : Client) (t : list Event) : nat :=
  match t with
  | [] => 0
  | Release c :: rest =>
      (if Nat.eqb c client then 1 else 0) + released client rest
  | _ :: rest => released client rest
  end.

(** How many times the trace ends the client. *)
Fixpoint ended (client : Client) (t : list Event) : nat :=
  match t with
  | [] => 0
  | End_ c _ :: rest =>
      (if Nat.eqb c client then 1 else 0) + ended client rest
  | _ :: rest => ended client rest
  end.

(* ================================================================== *)
(** ** The rest of the server: start-up and the tool catalogues *)
(* ================================================================== *)

(** The constructor of the builds that read the environment. *)
Module Startup.

(** [process.env]: a variable is set to a string, or not set. *)
Definition Env := string -> option string.

(** [!value]: not set, or the empty string. *)
Definition missing (value : option string) : bool :=
  match value with
  | None => true
  | Some s => String.eqb s EmptyString
  end.

Definition value_of (value : option string) : string :=
  match value with
  | Some s => s
  | None => "undefined"
  end.

(** The check of the three variables and [this.connectionString]. *)
Definition connectionString (env : Env) : Js.Exception + string :=
  let POSTGRES_URL := env "POSTGRES_URL" in
  let POSTGRES_USERNAME := env "POSTGRES_USERNAME" in
  let POSTGRES_PASSWORD := env "POSTGRES_PASSWORD" in
  if missing POSTGRES_URL || missing POSTGRES_USERNAME || missing POSTGRES_PASSWORD
  then inl (Js.Error "缺少必要的数据库连接环境变量")
  else inr ("postgresql://" ++ value_of POSTGRES_USERNAME ++ ":"
            ++ value_of POSTGRES_PASSWORD ++ "@" ++ value_of POSTGRES_URL).

End Startup.

(** The arrays the ListTools handlers return under [tools]. *)
Module Catalogue.

(** [{ type, description }] *)
Definition described (type_ description : string) : Js.Value :=
  Js.Obj [("type", Js.Str type_); ("description", Js.Str description)].

(** The schema of [columns], the same in every build. *)
Definition columns_schema : Js.Value :=
  Js.Obj [("type", Js.Str "array");
          ("description", Js.Str "列定义");
          ("items",
           Js.Obj [("type", Js.Str "object");
                   ("properties",
                    Js.Obj [("name", described "string" "列名");
                            ("type", described "string" "列类型")]);
                   ("required", Js.Arr [Js.Str "name"; Js.Str "type"])])].

(** The schema of [data], the same in every build. *)
Definition data_schema : Js.Value :=
  Js.Obj [("type", Js.Str "array");
          ("description", Js.Str "要插入的数据");
          ("items", Js.Obj [("type", Js.Str "object")])].

Definition tool (name description : string) (properties : list (string * Js.Value))
  (required : list string) : Js.Value :=
  Js.Obj [("name", Js.Str name);
          ("description", Js.Str description);
          ("inputSchema",
           Js.Obj [("type", Js.Str "object");
                   ("properties", Js.Obj properties);
                   ("required", Js.Arr (map Js.Str required))])].

(** The four-tool pooled build. *)
Definition Pooled_tools : list Js.Value :=
  [Js.Obj [("name", Js.Str "test_connection"); ("description", Js.Str "测试数据库连接")];
   tool "execute_query" "执行只读SQL查询"
     [("query", described "string" "SQL查询语句")] ["query"];
   tool "create_table" "创建数据库表"
     [("tableName", described "string" "表名"); ("columns", columns_schema)]
     ["tableName"; "columns"];
   tool "insert_data" "向表中插入数据"
     [("tableName", described "string" "表名"); ("data", data_schema)]
     ["tableName"; "data"]].

(** The build with a client per call and the environment's credentials. *)
Definition EnvClient_tools : list Js.Value :=
  [Js.Obj [("name", Js.Str "test_connection"); ("description", Js.Str "测试数据库连接")];
   tool "execute_query" "执行SQL查询"
     [("query", described "string" "SQL查询语句")] ["query"];
   tool "create_table" "创建数据库表"
     [("tableName", described "string" "表名"); ("columns", columns_schema)]
     ["tableName"; "columns"];
   tool "insert_data" "向表中插入数据"
     [("tableName", described "string" "表名"); ("data", data_schema)]
     ["tableName"; "data"]].

(** The three credentials every tool of the per-call build declares. *)
Definition credentials : list (string * Js.Value) :=
  [("url", described "string" "数据库连接URL");
   ("username", described "string" "用户名");
   ("password", described "string" "密码")].

Definition PerCall_tools : list Js.Value :=
  [tool "test_connection" "测试数据库连接" credentials ["url"; "username"; "password"];
   tool "execute_query" "执行SQL查询"
     (credentials ++ [("query", described "string" "SQL查询语句")])%list
     ["url"; "username"; "password"; "query"];
   tool "create_table" "创建数据库表"
     (credentials
      ++ [("tableName", described "string" "表名"); ("columns", columns_schema)])%list
     ["url"; "username"; "password"; "tableName"; "columns"];
   tool "insert_data" "向表中插入数据"
     (credentials
      ++ [("tableName", described "string" "表名"); ("data", data_schema)])%list
     ["url"; "username"; "password"; "tableName"; "data"]].

(** The pooled build with the [query] tool; [test_connection] declares an
    empty object and no [required] list. *)
Definition PooledQuery_tools : list Js.Value :=
  [tool "query" "执行只读SQL查询" [("sql", described "string" "SQL查询语句")] ["sql"];
   Js.Obj [("name", Js.Str "test_connection");
           ("description", Js.Str "测试数据库连接");
           ("inputSchema",
            Js.Obj [("type", Js.Str "object"); ("properties", Js.Obj [])])];
   tool "create_table" "创建数据库表"
     [("tableName", described "string" "表名"); ("columns", columns_schema)]
     ["tableName"; "columns"]].

(** The names a catalogue advertises. *)
Definition names (tools : list Js.Value) : list Js.Value :=
  map (fun t => match t with
                | Js.Obj props => Js.lookup "name" props
                | _ => Js.Undefined
                end) tools.

(** The properties a tool declares and the ones it requires. *)
Definition declared (t : Js.Value) : list string :=
  match t with
  | Js.Obj props =>
      match Js.lookup "inputSchema" props with
      | Js.Obj schema =>
          match Js.lookup "properties" schema with
          | Js.Obj properties => map fst properties
          | _ => []
          end
      | _ => []
      end
  | _ => []
  end.

Definition required (t : Js.Value) : list Js.Value :=
  match t with
  | Js.Obj props =>
      match Js.lookup "inputSchema" props with
      | Js.Obj schema =>
          match Js.lookup "required" schema with
          | Js.Arr items => items
          | _ => []
          end
      | _ => []
      end
  | _ => []
  end.

End Catalogue.

(** *** Traces of one connection *)

(** A statement or a warning on the connection the handler holds. *)
Definition on_client (client : Client) (ev : Event) : bool :=
  match ev with
  | Query c _ _ _ => Nat.eqb c client
  | Warn _ => true
  | _ => false
  end.

(** A program whose driver calls are statements on [client]. *)
Definition stays_on {W A} (client : Client) (m : @M W A) : Prop :=
  forall w, forallb (on_client client) (trace (m w)) = true.

(** The trace of a handler of the pooled builds: nothing (it threw on its
    arguments), a refused acquisition, or one acquisition, statements on the
    acquired connection only, and its release as the last call. *)
Inductive Scoped : list Event -> Prop :=
| scoped_nothing : Scoped []
| scoped_refused : Scoped [PoolConnect None]
| scoped_held (client : Client) (middle : list Event) :
    forallb (on_client client) middle = true ->
    Scoped (PoolConnect (Some client) :: middle ++ [Release client])%list.

(** The trace of an executor that opens its own client: the construction,
    the connection, statements on that client only, and [end()] last, if at
    all. *)
Inductive OwnClient (config : Js.Value) : list Event -> Prop :=
| own_not_made : OwnClient config [NewClient config None]
| own_not_connected (client : Client) :
    OwnClient config [NewClient config (Some client); Connect client false]
| own_left_open (client : Client) (middle : list Event) :
    forallb (on_client client) middle = true ->
    OwnClient config
      (NewClient config (Some client) :: Connect client true :: middle)
| own_ended (client : Client) (middle : list Event) (ok : bool) :
    forallb (on_client client) middle = true ->
    OwnClient config
      (NewClient config (Some client) :: Connect client true
       :: middle ++ [End_ client ok])%list.


(** The failure response of an executor, with the prefix of its tool. *)
Definition failed (meta : option Js.Value) (prefix : string) (e : Js.Exception)
  : ToolResponse :=
  {| content := [{| type := "text";
                    text := Some (prefix ++ Js.message_or_unknown e) |}];
     isError := Some true;
     _meta := meta |}.

(** The response of a query that went through. *)
Definition answered (meta : option Js.Value) (r : QueryResult) : ToolResponse :=
  {| content := [{| type := "text"; text := rows_text r |}];
     isError := None;
     _meta := meta |}.

(** The response of [testConnection] that went through. *)
Definition connected (meta : option Js.Value) : ToolResponse :=
  {| content := [{| type := "text"; text := Some "数据库连接成功" |}];
     isError := None;
     _meta := meta |}.

(** The occurrences of a character in a string. *)
Fixpoint occurrences (c : ascii) (s : string) : nat :=
  match s with
  | EmptyString => 0
  | String d rest => (if Ascii.eqb d c then 1 else 0) + occurrences c rest
  end.

(** The part of a string before the first separator, all of it if there
    is none. *)
Fixpoint up_to (separator : ascii) (s : string) : string :=
  match s with
  | EmptyString => EmptyString
  | String c rest =>
      if Ascii.eqb c separator then EmptyString else String c (up_to separator rest)
  end.

(** The last driver call of the trace is an [end()] that went through. *)
Definition closed (t : list Event) : bool :=
  match last t (PoolConnect None) with
  | End_ _ true => true
  | _ => false
  end.

(** Whatever response the executor returns is a success exactly when the
    last driver call of the run is an [end()] that went through. *)
Definition closes_on_success {W} (m : @M W ToolResponse) : Prop :=
  forall w r,
    result (m w) = inr r -> (isError r = None <-> closed (trace (m w)) = true).

(** The same for an executor whose success text prints [tableName] after
    the [end()]: a success is what follows an [end()] that went through,
    and follows it whenever the name can be printed. *)
Definition closes_on_success_of {W} (tableName : Js.Value) (m : @M W ToolResponse)
  : Prop :=
  forall w r,
    result (m w) = inr r ->
    (isError r = None -> closed (trace (m w)) = true)
    /\ (closed (trace (m w)) = true -> Js.printable tableName = true ->
        isError r = None).

(** The [tableName] the arguments bring. *)
Definition tableName_in (args : Arguments_) : Js.Value :=
  match args with
  | Some props => Js.lookup "tableName" props
  | None => Js.Undefined
  end.

(** A call that builds, connects or ends a client. *)
Definition lifecycle (ev : Event) : bool :=
  match ev with
  | NewClient _ _ | Connect _ _ | End_ _ _ => true
  | _ => false
  end.

(** [null] or [undefined]. *)
Definition nullish (v : Js.Value) : bool :=
  match v with
  | Js.Undefined | Js.Null => true
  | _ => false
  end.

(** An entry of [columns] no definition can be built from: [null] or
    [undefined], or an object whose [name] or [type] cannot be printed. *)
Definition unprintable_column (col : Js.Value) : bool :=
  match col with
  | Js.Undefined | Js.Null => true
  | Js.Obj props =>
      negb (Js.printable (Js.lookup "name" props)
            && Js.printable (Js.lookup "type" props))
  | _ => false
  end.

(** Arguments of [create_table] no statement can be built from: [columns]
    is not an array, or holds such an entry, or [tableName] cannot be
    printed. *)
Definition malformed (tableName columns : Js.Value) : bool :=
  match columns with
  | Js.Arr items => existsb unprintable_column items || negb (Js.printable tableName)
  | _ => true
  end.

(** A row of the catalog answer no descriptor can be built from: [null]
    or [undefined], or an object whose [table_name] cannot be printed. *)
Definition unlistable (row : Js.Value) : bool :=
  match row with
  | Js.Undefined | Js.Null => true
  | Js.Obj props => negb (Js.printable (Js.lookup "table_name" props))
  | _ => false
  end.

(** A response of the tool with this failure prefix: a success, or the
    prefix followed by the message of what was caught, flagged as an
    error; [_meta] as the build attaches it. *)
Definition from_tool (meta : option Js.Value) (prefix : string) (r : ToolResponse)
  : Prop :=
  (isError r = None /\ _meta r = meta) \/ exists e, r = failed meta prefix e.

Definition responds_as {W} (meta : option Js.Value) (prefix : string)
  (m : @M W ToolResponse) : Prop :=
  forall w r, result (m w) = inr r -> from_tool meta prefix r.

(** The statements of the resource handlers. *)
Definition tables_query : string :=
  "SELECT table_name FROM information_schema.tables WHERE table_schema = 'public'".

Definition columns_query : string :=
  "SELECT column_name, data_type FROM information_schema.columns WHERE table_name = $1".

(** An outcome no unknown-tool fault can be: it made a driver call, or
    threw a [TypeError]. *)
Definition answered_by_an_executor {W A} (o : @Outcome W A) : Prop :=
  (exists ev rest, trace o = ev :: rest) \/ exists m, result o = inl (Js.TypeError m).

(* ================================================================== *)
(** * Theorems *)
(* ================================================================== *)

(** Unfolds the monad of the handlers down to the driver calls. *)
Ltac run_handler :=
  cbv beta iota zeta delta
    [thrown result world trace bind lift ret throw try_catch try_finally
     await_pool_connect construct_Client await_connect await_query release
     await_end console_warn rollback_or_warn fst snd app].

(** The same, leaving the traces as they are written. *)
Ltac step_handler :=
  cbv beta iota zeta delta
    [thrown result world trace bind lift ret throw try_catch try_finally
     await_pool_connect construct_Client await_connect await_query release
     await_end console_warn rollback_or_warn fst snd
     Js.destructure Js.iterate Js.length].

Ltac run_handler_in H :=
  cbv beta iota zeta delta
    [thrown result world trace bind lift ret throw try_catch try_finally
     await_pool_connect construct_Client await_connect await_query release
     await_end console_warn rollback_or_warn fst snd app] in H.

(** ** Steps of the monad *)

Section Steps.

Context {W : Type}.

(** A bind runs its first part, and its second part from where the first
    one ended, unless the first one threw. *)
Lemma bind_step {A B} (m : @M W A) (k : A -> M B) (w : W) :
  bind m k w
  = match m w with
    | (inl e, w1, t1) => (inl e, w1, t1)
    | (inr a, w1, t1) =>
        (result (k a w1), world (k a w1), (t1 ++ trace (k a w1))%list)
    end.
Proof.
  unfold bind, result, world, trace.
  destruct (m w) as [[[e|a] w1] t1]; [reflexivity|].
  now destruct (k a w1) as [[r w2] t2].
Qed.

End Steps.

(** ** Printing values *)

Lemma to_string_printed (v : Js.Value) :
  Js.printable v = true -> Js.to_string v = inr (Js.printed v).
Proof. intros Hv. unfold Js.to_string. now rewrite Hv. Qed.

Lemma to_string_unprintable (v : Js.Value) :
  Js.printable v = false -> Js.to_string v = inl Js.not_primitive.
Proof. intros Hv. unfold Js.to_string. now rewrite Hv. Qed.

(** What is printed is printable, and the text is the printed one. *)
Lemma to_string_returns (v : Js.Value) (t : string) :
  Js.to_string v = inr t -> Js.printable v = true /\ t = Js.printed v.
Proof.
  unfold Js.to_string. destruct (Js.printable v); intros H; inversion H.
  now split.
Qed.

(** An integer of magnitude below [2^53] prints as its decimal digits. *)
Lemma Number_toString_integer (z : Z) :
  (Z.abs z < 2 ^ 53)%Z -> Js.Number_toString (Js.integer z) = Js.decimal z.
Proof.
  intros Hz. unfold Js.Number_toString, Js.integer.
  change (2 ^ 53)%Z with 9007199254740992%Z in Hz.
  apply Z.ltb_lt in Hz. rewrite Hz. reflexivity.
Qed.

(** The count of an array prints as its decimal digits. *)
Lemma count_text_decimal (n : nat) :
  (Z.of_nat n < 2 ^ 53)%Z -> count_text n = Js.decimal (Z.of_nat n).
Proof.
  intros Hn. apply Number_toString_integer. lia.
Qed.

(** Shortest digits on doubles that are no small integers. *)
Lemma Number_toString_samples :
  Js.Number_toString (Js.Finite 1 (-1)) = "0.5"
  /\ Js.Number_toString (Js.Finite 3602879701896397 (-55)) = "0.1"
  /\ Js.Number_toString (Js.Finite (-3) (-1)) = "-1.5"
  /\ Js.Number_toString (Js.integer (2 ^ 53 + 1)) = "9007199254740992"
  /\ Js.Number_toString (Js.integer (2 ^ 60)) = "1152921504606847000"
  /\ Js.Number_toString (Js.integer (10 ^ 21)) = "1e+21"
  /\ Js.Number_toString (Js.Finite 1 (-1074)) = "5e-324"
  /\ Js.Number_toString (Js.Finite 7555786372591432 (-76)) = "1e-7"
  /\ Js.Number_toString (Js.Finite 1 1024) = "Infinity".
Proof. vm_compute. repeat split. Qed.

(** Where the layout changes: plain digits below [10^21] and down to
    [10^-6], an exponent beyond. *)
Lemma Number_toString_layouts :
  Js.Number_toString (Js.integer (10 ^ 20)) = "100000000000000000000"
  /\ Js.Number_toString (Js.integer 123456789012345683968) = "123456789012345680000"
  /\ Js.Number_toString (Js.integer (15 * 10 ^ 20)) = "1.5e+21"
  /\ Js.Number_toString (Js.Finite 4722366482869645 (-72)) = "0.000001"
  /\ Js.Number_toString (Js.Finite 2913700119930571 (-71)) = "0.000001234"
  /\ Js.Number_toString (Js.Finite 7378697629483821 (-68)) = "0.000025"
  /\ Js.Number_toString (Js.Finite 4722366482869645 (-73)) = "5e-7"
  /\ Js.Number_toString (Js.Finite 2833419889721787 (-74)) = "1.5e-7"
  /\ Js.Number_toString (Js.Finite 6004799503160661 (-54)) = "0.3333333333333333"
  /\ Js.Number_toString (Js.Finite 2448832297382707 (-49)) = "4.35"
  /\ Js.Number_toString (Js.Finite (2 ^ 53 - 1) 971) = "1.7976931348623157e+308".
Proof. vm_compute. repeat split. Qed.

(** An integer of magnitude below [2^53] is a double. *)
Lemma is_finite_integer (z : Z) :
  (Z.abs z < 2 ^ 53)%Z -> Js.is_finite (Js.integer z) = true.
Proof.
  intros Hz. unfold Js.is_finite, Js.integer.
  destruct (z =? 0)%Z eqn:Hzero; [reflexivity|].
  apply Z.eqb_neq in Hzero.
  assert (Hpos : (0 < Z.abs z)%Z) by lia.
  assert (Hlog : (0 <= Z.log2 (Z.abs z) < 53)%Z).
  { split; [apply Z.log2_nonneg|]. apply Z.log2_lt_pow2; [exact Hpos|exact Hz]. }
  unfold Js.to_double.
  replace (Z.max (Z.log2 (Z.abs z) + 1 + 0 - 53) (-1074))%Z
    with (Z.log2 (Z.abs z) - 52)%Z by lia.
  assert (Hbelow : (Z.log2 (Z.abs z) - 52 <=? 0)%Z = true) by (apply Z.leb_le; lia).
  rewrite Hbelow.
  rewrite Z.log2_mul_pow2 by lia.
  assert (Hfits : (1024 <? 0 - (Z.log2 (Z.abs z) - 52) + Z.log2 (Z.abs z) + 1
                           + (Z.log2 (Z.abs z) - 52))%Z = false)
    by (apply Z.ltb_ge; lia).
  now rewrite Hfits.
Qed.

(** The digits of doubles that are small integers, computed as for every
    other double: they are the decimal digits of the integer. *)
Lemma positive_toString_samples :
  Js.positive_toString 1 0 = "1"
  /\ Js.positive_toString 100 0 = "100"
  /\ Js.positive_toString 123456789 0 = "123456789"
  /\ Js.positive_toString (2 ^ 53 - 1) 0 = "9007199254740991"
  /\ Js.positive_toString (2 ^ 52) 0 = "4503599627370496"
  /\ Js.positive_toString 4294967295 0 = "4294967295"
  /\ Js.Number_toString (Js.Finite 5 (-1)) = "2.5"
  /\ Js.Number_toString (Js.Finite 4 (-2)) = "1"
  /\ Js.Number_toString (Js.Finite 1 10) = "1024".
Proof. vm_compute. repeat split. Qed.

(** The message of a [McpError] carries the code before the text it was
    built with. *)
Lemma McpError_message (text : string) :
  Js.message_or_unknown (Js.McpError Js.MethodNotFound text)
  = "MCP error -32601: " ++ text.
Proof. reflexivity. Qed.

(** ** Resources: listing the tables and reading one back *)

Section Resources.

Context {W : Type} (pg : Driver W).

Lemma append_step (current : string) (c : ascii) (s : string) :
  (current ++ String c EmptyString) ++ s = current ++ String c s.
Proof.
  induction current as [|d current IH]; simpl.
  - reflexivity.
  - now rewrite IH.
Qed.

Lemma append_empty (s : string) : s ++ EmptyString = s.
Proof.
  induction s as [|c s IH]; simpl; [reflexivity | now rewrite IH].
Qed.

(** Splitting stops the first segment at the first separator, wherever
    the text goes on. *)
Lemma split_from_up_to (separator : ascii) (s rest current : string) :
  exists others,
    Js.split_from separator current (s ++ String separator rest)
    = (current ++ up_to separator s) :: others.
Proof.
  revert current.
  induction s as [|c s IH]; intros current; cbn [append Js.split_from up_to].
  - rewrite Ascii.eqb_refl, append_empty. eexists. reflexivity.
  - destruct (Ascii.eqb c separator).
    + rewrite append_empty. eexists. reflexivity.
    + destruct (IH (current ++ String c EmptyString)) as [others Hothers].
      rewrite Hothers, append_step. eexists. reflexivity.
Qed.

(** A string without the separator is its own first segment. *)
Lemma up_to_free (separator : ascii) (s : string) :
  free_of separator s = true -> up_to separator s = s.
Proof.
  induction s as [|c s IH]; cbn [free_of up_to]; [reflexivity|].
  intros Hfree. apply andb_true_iff in Hfree. destruct Hfree as [Hc Hs].
  apply negb_true_iff in Hc. now rewrite Hc, (IH Hs).
Qed.

(** Reading the URI of a table back gives the name up to its first slash. *)
Lemma tableName_of_schema_uri (t : string) :
  Pooled.tableName_of (schema_uri t) = Js.Str (up_to "/" t).
Proof.
  unfold Pooled.tableName_of, schema_uri, Js.split. cbn.
  destruct (split_from_up_to "/" t "schema" EmptyString) as [others Hothers].
  rewrite Hothers. reflexivity.
Qed.

Lemma describe_all_catalog (names : list string) :
  exists ds,
    Pooled.describe_all (map catalog_row names) = inr ds
    /\ map uri ds = map schema_uri names
    /\ Forall (fun d => mimeType d = "application/json") ds.
Proof.
  induction names as [|t names [ds [Hds [Huri Hmime]]]]; simpl.
  - exists []. repeat split; constructor.
  - rewrite Hds. simpl. eexists. split; [reflexivity|]. simpl. split.
    + now rewrite Huri.
    + constructor; [reflexivity | assumption].
Qed.

(** C8, as amended: [list_resources] gives one descriptor per table the
    catalog query returned, in its order, with the URI
    [postgres://<t>/schema] and the MIME type [application/json], whatever
    the names are; reading such a URI takes its third segment, which is the
    name [t] up to its first slash: [t] itself for every name that holds no
    slash. *)
Theorem list_then_read_recovers_table
  (w w1 w2 : W) (client : Client) (names : list string) :
  pool_connect pg w = (inr client, w1) ->
  client_query pg client
    (Js.Str "SELECT table_name FROM information_schema.tables WHERE table_schema = 'public'")
    [] w1 = (inr (Result (map catalog_row names)), w2) ->
  exists ds,
    result (Pooled.list_resources pg w) = inr ds
    /\ map uri ds = map schema_uri names
    /\ Forall (fun d => mimeType d = "application/json") ds
    /\ map (fun d => Pooled.tableName_of (uri d)) ds
       = map (fun t => Js.Str (up_to "/" t)) names
    /\ (forall t, free_of "/" t = true -> up_to "/" t = t).
Proof.
  intros Hconnect Hquery.
  destruct (describe_all_catalog names) as [ds [Hds [Huri Hmime]]].
  exists ds. split; [|split; [exact Huri|split; [exact Hmime|split]]].
  - unfold Pooled.list_resources, bind, try_finally, await_pool_connect,
      await_query, release, lift, result.
    rewrite Hconnect. simpl. rewrite Hquery. simpl. rewrite Hds. reflexivity.
  - rewrite <- (map_map uri Pooled.tableName_of), Huri, map_map.
    apply map_ext. intros t. apply tableName_of_schema_uri.
  - apply up_to_free.
Qed.

End Resources.

(** A table named [a/b] is listed under [postgres://a/b/schema], and
    reading that URI asks for the columns of [a]. *)
Lemma slash_in_table_name_is_cut :
  Pooled.describe (catalog_row "a/b")
  = inr {| uri := "postgres://a/b/schema";
           mimeType := "application/json";
           name := Js.quotation_mark ++ "a/b" ++ Js.quotation_mark ++ " 数据库架构" |}
  /\ Pooled.tableName_of "postgres://a/b/schema" = Js.Str "a"
  /\ String.eqb "a" "a/b" = false.
Proof. repeat split. Qed.

(** The reference server lists the two tables it holds; the URI of the
    first reads back to its name, the URI of the second, whose name holds
    a slash, to the part before the slash. *)
Lemma list_then_read_on_reference :
  exists ds,
    result (Pooled.list_resources Reference.pg
              (Reference.holding ["CREATE TABLE t1 (id integer)";
                                  "CREATE TABLE a/b (id integer)"]))
    = inr ds
    /\ map uri ds = ["postgres://t1/schema"; "postgres://a/b/schema"]
    /\ Forall (fun d => mimeType d = "application/json") ds
    /\ map (fun d => Pooled.tableName_of (uri d)) ds = [Js.Str "t1"; Js.Str "a"]
    /\ (forall t, free_of "/" t = true -> up_to "/" t = t).
Proof.
  apply (@list_then_read_recovers_table _ Reference.pg
           (Reference.holding ["CREATE TABLE t1 (id integer)";
                               "CREATE TABLE a/b (id integer)"])
           (Reference.holding ["CREATE TABLE t1 (id integer)";
                               "CREATE TABLE a/b (id integer)"])
           (Reference.holding ["CREATE TABLE t1 (id integer)";
                               "CREATE TABLE a/b (id integer)"]) 0 ["t1"; "a/b"]).
  - reflexivity.
  - reflexivity.
Defined.

(* ================================================================== *)
(** ** The envelope of every executor *)
(* ================================================================== *)

Section Envelope.

Context {W : Type}.

Lemma ret_one_text (r : ToolResponse) :
  one_text r -> responds_with_one_text (@ret W _ r).
Proof.
  intros Hr w r' Hres. unfold ret, result in Hres. simpl in Hres.
  now inversion Hres; subst.
Qed.

Lemma bind_one_text {A} (m : @M W A) (k : A -> M ToolResponse) :
  (forall a, responds_with_one_text (k a)) ->
  responds_with_one_text (bind m k).
Proof.
  intros Hk w r. unfold bind, result.
  destruct (m w) as [[[e|a] w1] t1]; simpl; [discriminate|].
  specialize (Hk a w1 r). unfold result in Hk.
  destruct (k a w1) as [[r2 w2] t2]. exact Hk.
Qed.

Lemma try_catch_one_text (body : @M W ToolResponse) handler :
  responds_with_one_text body ->
  (forall e, responds_with_one_text (handler e)) ->
  responds_with_one_text (try_catch body handler).
Proof.
  intros Hbody Hhandler w r. unfold try_catch, result.
  specialize (Hbody w r). unfold result in Hbody.
  destruct (body w) as [[[e|a] w1] t1]; simpl in *; [|exact Hbody].
  specialize (Hhandler e w1 r). unfold result in Hhandler.
  destruct (handler e w1) as [[r2 w2] t2]. exact Hhandler.
Qed.

Lemma try_finally_one_text (body : @M W ToolResponse) cleanup :
  responds_with_one_text body ->
  responds_with_one_text (try_finally body cleanup).
Proof.
  intros Hbody w r. unfold try_finally, result.
  specialize (Hbody w r). unfold result in Hbody.
  destruct (body w) as [[r1 w1] t1].
  destruct (cleanup w1) as [[[e|u] w2] t2]; simpl in *; [discriminate|exact Hbody].
Qed.

End Envelope.

(** Every executor is built from [bind], [try_catch], [try_finally] and
    [ret] of a one-text response. *)
Ltac one_text :=
  repeat first
    [ apply ret_one_text; eexists; reflexivity
    | apply try_finally_one_text
    | apply try_catch_one_text; [|intros ?]
    | apply bind_one_text; intros ? ].

Section Executors.

Context {W : Type} (pg : Driver W) (connectionString : string).

Lemma OneClient_one_text (config a b : Js.Value) :
  responds_with_one_text (OneClient.testConnection pg config)
  /\ responds_with_one_text (OneClient.executeQuery pg config a)
  /\ responds_with_one_text (OneClient.createTable pg config a b)
  /\ responds_with_one_text (OneClient.insertData pg config a b).
Proof.
  unfold OneClient.testConnection, OneClient.executeQuery, OneClient.createTable,
    OneClient.insertData.
  repeat split; one_text.
Qed.

(** C10: whatever response [testConnection], [executeQuery], [createTable]
    or [insertData] returns, in any of the builds, on the success path and
    on the failure path alike, its [content] holds exactly one item, whose
    [type] is ['text']. *)
Theorem every_response_holds_one_text (args : Arguments_) :
  (responds_with_one_text (Pooled.testConnection pg connectionString)
   /\ responds_with_one_text (Pooled.executeQuery pg args)
   /\ responds_with_one_text (Pooled.createTable pg args)
   /\ responds_with_one_text (Pooled.insertData pg args))
  /\ (responds_with_one_text (EnvClient.testConnection pg connectionString)
      /\ responds_with_one_text (EnvClient.executeQuery pg connectionString args)
      /\ responds_with_one_text (EnvClient.createTable pg connectionString args)
      /\ responds_with_one_text (EnvClient.insertData pg connectionString args))
  /\ (responds_with_one_text (PerCall.testConnection pg args)
      /\ responds_with_one_text (PerCall.executeQuery pg args)
      /\ responds_with_one_text (PerCall.createTable pg args)
      /\ responds_with_one_text (PerCall.insertData pg args))
  /\ (responds_with_one_text (PooledQuery.testConnection pg connectionString)
      /\ responds_with_one_text (PooledQuery.executeQuery pg args)
      /\ responds_with_one_text (PooledQuery.createTable pg args)).
Proof.
  repeat split;
    try (unfold Pooled.testConnection, Pooled.executeQuery, Pooled.createTable,
           Pooled.insertData, PooledQuery.testConnection, PooledQuery.executeQuery,
           PooledQuery.createTable; one_text);
    unfold EnvClient.testConnection, EnvClient.executeQuery, EnvClient.createTable,
      EnvClient.insertData, PerCall.testConnection, PerCall.executeQuery,
      PerCall.createTable, PerCall.insertData;
    try (apply bind_one_text; intros ?);
    apply OneClient_one_text; exact Js.Undefined.
Qed.

End Executors.

(* ================================================================== *)
(** ** Dispatch: what crosses the boundary as an exception *)
(* ================================================================== *)

Section Dispatch.

Context {W : Type} (pg : Driver W) (connectionString : string).

Lemma ret_returns {A} (a : A) : returns (@ret W _ a).
Proof. intros w. reflexivity. Qed.

Lemma try_catch_returns {A} (body : @M W A) handler :
  (forall e, returns (handler e)) -> returns (try_catch body handler).
Proof.
  intros Hhandler w. unfold thrown, try_catch, result.
  destruct (body w) as [[[e|a] w1] t1]; simpl; [|reflexivity].
  specialize (Hhandler e w1). unfold thrown, result in Hhandler.
  destruct (handler e w1) as [[r2 w2] t2]. exact Hhandler.
Qed.

Lemma try_finally_returns {A} (body : @M W A) cleanup :
  returns body -> returns cleanup -> returns (try_finally body cleanup).
Proof.
  intros Hbody Hcleanup w. unfold thrown, try_finally, result.
  specialize (Hbody w). unfold thrown, result in Hbody.
  destruct (body w) as [[r1 w1] t1].
  specialize (Hcleanup w1). unfold thrown, result in Hcleanup.
  destruct (cleanup w1) as [[[e|u] w2] t2]; simpl in *; [discriminate|exact Hbody].
Qed.

Lemma release_returns (client : Client) : returns (release pg client).
Proof. intros w. reflexivity. Qed.

Lemma rollback_then_release_returns (client : Client) :
  returns (rollback_or_warn pg client ;;; release pg client).
Proof.
  intros w. run_handler.
  destruct (client_query pg client (Js.Str "ROLLBACK") [] w) as [[e|r] w1];
    reflexivity.
Qed.

(** An executor of the pooled builds: the arguments are destructured and
    the connection is acquired before anything is guarded. *)
Lemma pooled_executor_throws {A} (property : string) (args : Arguments_)
  (guarded : list (string * Js.Value) -> Client -> @M W A) (w : W) (e : Js.Exception) :
  (forall props client, returns (guarded props client)) ->
  thrown ((props <- lift (Js.destructure property args) ;;
           client <- await_pool_connect pg ;;
           guarded props client) w) = Some e
  <-> (Js.destructure property args = inl e
       \/ (args <> None /\ exists w1, pool_connect pg w = (inl e, w1))).
Proof.
  intros Hguarded.
  destruct args as [props|]; unfold Js.destructure; run_handler.
  - destruct (pool_connect pg w) as [[e1|client] w1] eqn:Hconnect.
    + split.
      * intros H. inversion H; subst. right. split; [discriminate|].
        now exists w1.
      * intros [H|[_ [w2 H]]]; [discriminate|]. now inversion H.
    + specialize (Hguarded props client w1). run_handler_in Hguarded.
      destruct (guarded props client w1) as [[r2 w2] t2].
      rewrite Hguarded. split; [discriminate|].
      intros [H|[_ [w3 H]]]; discriminate.
  - split.
    + intros H. left. now inversion H.
    + intros [H|[Hsome _]]; [|now contradiction Hsome].
      now inversion H.
Qed.

Lemma testConnection_throws (config : Js.Value) (body : Client -> @M W ToolResponse)
  handler (w : W) (e : Js.Exception) :
  (forall e', returns (handler e')) ->
  thrown ((client <- construct_Client pg config ;;
           try_catch (body client) handler) w) = Some e
  <-> exists w1, new_Client pg config w = (inl e, w1).
Proof.
  intros Hhandler. run_handler.
  destruct (new_Client pg config w) as [[e1|client] w1] eqn:Hnew.
  - split.
    + intros H. inversion H; subst. now exists w1.
    + intros [w2 H]. now inversion H.
  - pose proof (try_catch_returns (body client) handler Hhandler w1) as Hret.
    run_handler_in Hret.
    destruct (body client w1) as [[[e2|r2] w2] t2].
    + destruct (handler e2 w2) as [[r3 w3] t3]. rewrite Hret.
      split; [discriminate|]. intros [w4 H]. discriminate.
    + split; [discriminate|]. intros [w4 H]. discriminate.
Qed.

(** What the executors guard never throws: the handler of every [catch]
    returns a response, and no [finally] block throws. *)
Ltac guarded_returns :=
  intros;
  repeat first
    [ apply try_finally_returns
    | apply try_catch_returns; intros
    | apply ret_returns
    | apply release_returns
    | apply rollback_then_release_returns ].

(** C2, as amended: for a name outside its [switch], the CallTool handler
    throws before any driver call an exception whose message ends with the
    name, in the four-tool pooled build a [McpError] with the code
    [MethodNotFound]; for a name inside its [switch], it throws exactly the
    exceptions raised before the executor's [try] block (by [new Client],
    by destructuring absent arguments, by [pool.connect()]), and every
    failure inside the block comes back as a response. *)
Theorem call_tool_throws (name : string) (args : Arguments_) (w : W) :
  (if recognized_by_Pooled name
   then forall e,
       thrown (Pooled.call_tool pg connectionString name args w) = Some e
       <-> raised_before_try pg connectionString name args w e
   else Pooled.call_tool pg connectionString name args w
        = (inl (Js.McpError Js.MethodNotFound ("未知工具: " ++ name)), w, []))
  /\ (if recognized_by_PooledQuery name
      then forall e,
          thrown (PooledQuery.call_tool pg connectionString name args w) = Some e
          <-> raised_before_try pg connectionString name args w e
      else exists e,
          PooledQuery.call_tool pg connectionString name args w = (inl e, w, [])
          /\ Js.message_or_unknown e = "未知工具: " ++ name).
Proof.
  unfold recognized_by_Pooled, recognized_by_PooledQuery, Pooled.call_tool,
    PooledQuery.call_tool, raised_before_try, first_property.
  split.
  - destruct (String.eqb name "test_connection") eqn:E1; cbn [orb].
    { intros e. apply testConnection_throws. guarded_returns. }
    destruct (String.eqb name "execute_query") eqn:E2; cbn [orb].
    { intros e. apply pooled_executor_throws. guarded_returns. }
    apply String.eqb_neq in E2.
    destruct (String.eqb name "create_table") eqn:E3; cbn [orb].
    { apply String.eqb_eq in E3. subst name. intros e.
      apply pooled_executor_throws. guarded_returns. }
    destruct (String.eqb name "insert_data") eqn:E4; cbn [orb].
    { apply String.eqb_eq in E4. subst name. intros e.
      apply pooled_executor_throws. guarded_returns. }
    reflexivity.
  - destruct (String.eqb name "query") eqn:E1; cbn [orb].
    { apply String.eqb_eq in E1. subst name. intros e.
      apply pooled_executor_throws. guarded_returns. }
    destruct (String.eqb name "test_connection") eqn:E2; cbn [orb].
    { intros e. apply testConnection_throws. guarded_returns. }
    destruct (String.eqb name "create_table") eqn:E3; cbn [orb].
    { apply String.eqb_eq in E3. subst name. intros e.
      apply pooled_executor_throws. guarded_returns. }
    eexists. split; reflexivity.
Qed.

End Dispatch.

(** A tool inside the [switch] throws when the pool cannot connect, and
    when the call brings no arguments. *)
Lemma call_tool_throws_on_reference :
  recognized_by_Pooled "execute_query" = true
  /\ Pooled.call_tool Reference.pg Example.connectionString "execute_query"
       (Some [("query", Js.Str "SELECT 1 AS one")]) Reference.down
     = (inl (Js.Error "connect ECONNREFUSED 127.0.0.1:5432"), Reference.down,
        [PoolConnect None])
  /\ recognized_by_Pooled "create_table" = true
  /\ thrown (Pooled.call_tool Reference.pg Example.connectionString "create_table"
               None Reference.up)
     = Some (Js.TypeError
               "Cannot destructure property 'tableName' of 'args' as it is undefined.").
Proof. repeat split. Qed.

(* ================================================================== *)
(** ** The read-only transaction around a query *)
(* ================================================================== *)

Section ReadOnly.

Context {W : Type} (pg : Driver W).

Lemma cleanup_rolled_back (client : Client) (w : W) :
  RolledBack client (trace ((rollback_or_warn pg client ;;; release pg client) w)).
Proof.
  run_handler.
  destruct (client_query pg client (Js.Str "ROLLBACK") [] w) as [[e|r] w1];
    constructor.
Qed.

(** The calls of a guarded query on an acquired connection. *)
Lemma guarded_query_run (client : Client) (query : Js.Value)
  (respond : QueryResult -> ToolResponse) (fail : Js.Exception -> ToolResponse) (w : W) :
  let o :=
    try_finally
      (try_catch
         (await_query pg client (Js.Str "BEGIN TRANSACTION READ ONLY") [] ;;;
          result <- await_query pg client query [] ;;
          ret (respond result))
         (fun error => ret (fail error)))
      (rollback_or_warn pg client ;;; release pg client) w in
  ReadOnlyRun client query (PoolConnect (Some client) :: trace o)
  /\ thrown o = None.
Proof.
  run_handler.
  destruct (client_query pg client (Js.Str "BEGIN TRANSACTION READ ONLY") [] w)
    as [[e|r] w1].
  - destruct (client_query pg client (Js.Str "ROLLBACK") [] w1) as [[e2|r2] w2];
      split; try reflexivity; apply run_not_begun; constructor.
  - destruct (client_query pg client query [] w1) as [[e2|r2] w2];
      destruct (client_query pg client (Js.Str "ROLLBACK") [] w2) as [[e3|r3] w3];
      split; try reflexivity; apply run_inside; constructor.
Qed.

Lemma Pooled_executeQuery_run (props : list (string * Js.Value)) (w w1 : W)
  (client : Client) :
  pool_connect pg w = (inr client, w1) ->
  ReadOnlyRun client (Js.lookup "query" props)
    (trace (Pooled.executeQuery pg (Some props) w))
  /\ thrown (Pooled.executeQuery pg (Some props) w) = None.
Proof.
  intros Hconnect.
  pose proof (guarded_query_run client (Js.lookup "query" props)
                (fun result =>
                   {| content := [{| type := "text"; text := stringify_rows result |}];
                      isError := None; _meta := Some (Js.Obj []) |})
                (fun error =>
                   {| content := [{| type := "text";
                                     text := Some ("查询执行失败: "
                                                   ++ Js.message_or_unknown error) |}];
                      isError := Some true; _meta := Some (Js.Obj []) |}) w1) as H.
  unfold Pooled.executeQuery, Js.destructure.
  revert H. run_handler. rewrite Hconnect.
  match goal with
  | |- context [(let (p, t) := ?X in _)] => destruct X as [[r2 w2] t2]
  end.
  exact (fun H => H).
Qed.




End ReadOnly.



(* ================================================================== *)
(** ** The text of the statements *)
(* ================================================================== *)

Lemma join_keys (record : list (string * Js.Value)) :
  Js.join ", " (map (fun p => Js.Str (fst p)) record)
  = inr (String.concat ", " (map fst record)).
Proof.
  unfold Js.join.
  assert (Hprintable :
            forallb Js.printable (map (fun p => Js.Str (fst p)) record) = true)
    by (induction record as [|p record IH]; [reflexivity | exact IH]).
  rewrite Hprintable, map_map. reflexivity.
Qed.

Lemma join_item_quoteString (v : Js.Value) :
  Js.join_item (Sql.quoteString v) = sql_literal v.
Proof. destruct v as [| |[|]| | | |]; reflexivity. Qed.

Lemma printable_quoteString (v : Js.Value) :
  Js.printable (Sql.quoteString v) = Js.printable v.
Proof. destruct v; reflexivity. Qed.

Lemma printable_values (record : list (string * Js.Value)) :
  forallb Js.printable (map Sql.quoteString (map snd record))
  = printable_record record.
Proof.
  unfold printable_record. rewrite map_map.
  induction record as [|p record IH]; [reflexivity|].
  cbn [map forallb]. now rewrite printable_quoteString, IH.
Qed.

Lemma join_values (record : list (string * Js.Value)) :
  printable_record record = true ->
  Js.join ", " (map Sql.quoteString (map snd record))
  = inr (String.concat ", " (map (fun p => sql_literal (snd p)) record)).
Proof.
  intros Hrecord. unfold Js.join. rewrite printable_values, Hrecord, !map_map.
  do 2 f_equal. apply map_ext. intros p. apply join_item_quoteString.
Qed.

(** The statement built for a record is the one the specification words,
    when its values and the table name can be printed. *)
Lemma insertQuery_of_record (tableName : Js.Value) (record : list (string * Js.Value)) :
  Js.printable tableName = true ->
  printable_record record = true ->
  Sql.insertQuery tableName (Js.Obj record)
  = inr (insert_statement (Js.printed tableName) record).
Proof.
  intros Hname Hrecord.
  unfold Sql.insertQuery, Js.Object_keys, Js.Object_values, insert_statement.
  cbv beta iota delta [Sql.and_then].
  rewrite join_keys, (join_values _ Hrecord), (to_string_printed _ Hname).
  reflexivity.
Qed.

(** No statement is built for a record one of whose values cannot be
    printed. *)
Lemma insertQuery_unprintable (tableName : Js.Value)
  (record : list (string * Js.Value)) :
  printable_record record = false ->
  Sql.insertQuery tableName (Js.Obj record) = inl Js.not_primitive.
Proof.
  intros Hrecord.
  unfold Sql.insertQuery, Js.Object_keys, Js.Object_values.
  cbv beta iota delta [Sql.and_then].
  rewrite join_keys. unfold Js.join at 1. now rewrite printable_values, Hrecord.
Qed.

Lemma map_columns (columns : list ColumnDefinition) :
  Sql.map_throwing Sql.columnDefinition (map column_value columns)
  = inr (map (fun col => Js.Str (column_name col ++ " " ++ column_type col)) columns).
Proof.
  induction columns as [|col columns IH]; [reflexivity|].
  cbn [map Sql.map_throwing]. rewrite IH. reflexivity.
Qed.

Lemma join_strings (separator : string) (items : list string) :
  Js.join separator (map Js.Str items) = inr (String.concat separator items).
Proof.
  unfold Js.join.
  assert (Hprintable : forallb Js.printable (map Js.Str items) = true)
    by (induction items as [|s items IH]; [reflexivity | exact IH]).
  rewrite Hprintable, map_map. cbn [Js.join_item Js.printed].
  now rewrite map_id.
Qed.

(** The DDL built for a table is the one the specification words. *)
Lemma createTableQuery_of_columns (tableName : Js.Value)
  (columns : list ColumnDefinition) :
  Js.printable tableName = true ->
  Sql.createTableQuery tableName (Js.Arr (map column_value columns))
  = inr (create_table_statement (Js.printed tableName) columns).
Proof.
  intros Hname.
  unfold Sql.createTableQuery, Sql.columnDefinitions, Js.array_items,
    create_table_statement.
  cbv beta iota delta [Sql.and_then].
  rewrite map_columns.
  rewrite <- (map_map (fun col => column_name col ++ " " ++ column_type col) Js.Str).
  rewrite join_strings, (to_string_printed _ Hname). reflexivity.
Qed.

(* ================================================================== *)
(** ** Inserting records and creating tables *)
(* ================================================================== *)

Section Statements.

Context {W : Type} (pg : Driver W).

(** When the driver accepts every statement, the loop sends one per record,
    in order, on the one connection. *)
Lemma insert_each_accepted (client : Client) (tableName : Js.Value)
  (records : list (list (string * Js.Value))) (w w2 : W) :
  Js.printable tableName = true ->
  forallb printable_record records = true ->
  accepts_all pg client (insert_statements tableName records) w = Some w2 ->
  Pooled.insert_each pg client tableName (map Js.Obj records) w
  = (inr tt, w2, map (accepted client) (insert_statements tableName records)).
Proof.
  intros Hname. revert w.
  induction records as [|record records IH]; intros w Hrecords Haccepts.
  - simpl in Haccepts. inversion Haccepts. reflexivity.
  - cbn [forallb] in Hrecords. apply andb_true_iff in Hrecords.
    destruct Hrecords as [Hrecord Hrecords].
    cbn [insert_statements map accepts_all] in Haccepts.
    cbn [map Pooled.insert_each].
    rewrite bind_step, (insertQuery_of_record _ _ Hname Hrecord).
    cbv [lift ret]. rewrite bind_step. unfold await_query.
    destruct (client_query pg client
                (Js.Str (insert_statement (Js.printed tableName) record)) [] w)
      as [[e|r] w1]; [discriminate|].
    fold (insert_statements tableName records) in Haccepts.
    rewrite (IH w1 Hrecords Haccepts). reflexivity.
Qed.


(** The count of the batch prints after the table name. *)
Lemma to_string_count (n : nat) :
  Js.to_string (Js.Num (Js.integer (Z.of_nat n))) = inr (count_text n).
Proof. reflexivity. Qed.

Lemma Pooled_insertData_accepted (props : list (string * Js.Value))
  (records : list (list (string * Js.Value))) (w w1 w2 : W) (client : Client) :
  pool_connect pg w = (inr client, w1) ->
  Js.lookup "data" props = Js.Arr (map Js.Obj records) ->
  Js.printable (Js.lookup "tableName" props) = true ->
  forallb printable_record records = true ->
  accepts_all pg client (insert_statements (Js.lookup "tableName" props) records) w1
  = Some w2 ->
  Pooled.insertData pg (Some props) w
  = (inr (inserted (Some (Js.Obj [])) (Js.lookup "tableName" props) (List.length records)),
     client_release pg client w2,
     (PoolConnect (Some client)
      :: map (accepted client) (insert_statements (Js.lookup "tableName" props) records)
      ++ [Release client])%list).
Proof.
  intros Hconnect Hdata Hname Hrecords Haccepts.
  unfold Pooled.insertData. cbv beta iota zeta delta [bind lift Js.destructure ret].
  rewrite Hdata, (to_string_printed _ Hname). step_handler. rewrite Hconnect.
  rewrite (insert_each_accepted _ _ _ _ Hname Hrecords Haccepts).
  rewrite to_string_count, length_map, !app_nil_r. reflexivity.
Qed.


Lemma OneClient_insertData_accepted (config tableName : Js.Value)
  (records : list (list (string * Js.Value))) (w w0 w1 w2 w3 : W) (client : Client) :
  new_Client pg config w = (inr client, w0) ->
  client_connect pg client w0 = (inr tt, w1) ->
  Js.printable tableName = true ->
  forallb printable_record records = true ->
  accepts_all pg client (insert_statements tableName records) w1 = Some w2 ->
  client_end pg client w2 = (inr tt, w3) ->
  OneClient.insertData pg config tableName (Js.Arr (map Js.Obj records)) w
  = (inr (inserted (Some (Js.Obj [])) tableName (List.length records)),
     w3,
     (NewClient config (Some client) :: Connect client true
      :: map (accepted client) (insert_statements tableName records)
      ++ [End_ client true])%list).
Proof.
  intros Hnew Hconnect Hname Hrecords Haccepts Hend.
  unfold OneClient.insertData. rewrite (to_string_printed _ Hname).
  step_handler. rewrite Hnew, Hconnect.
  rewrite (insert_each_accepted _ _ _ _ Hname Hrecords Haccepts). rewrite Hend.
  rewrite to_string_count, length_map. cbn [app]. rewrite ?app_nil_r. reflexivity.
Qed.


Lemma EnvClient_insertData_unfolds (connectionString : string)
  (props : list (string * Js.Value)) (w : W) :
  EnvClient.insertData pg connectionString (Some props) w
  = OneClient.insertData pg (EnvClient.config connectionString)
      (Js.lookup "tableName" props) (Js.lookup "data" props) w.
Proof.
  unfold EnvClient.insertData. rewrite bind_step. cbv [Js.destructure lift ret].
  now destruct (OneClient.insertData pg (EnvClient.config connectionString)
                  (Js.lookup "tableName" props) (Js.lookup "data" props) w)
    as [[r w1] t1].
Qed.

Lemma Pooled_createTable_accepted (props : list (string * Js.Value))
  (columns : list ColumnDefinition) (w w1 w2 : W) (client : Client) (r : QueryResult) :
  pool_connect pg w = (inr client, w1) ->
  Js.lookup "columns" props = Js.Arr (map column_value columns) ->
  Js.printable (Js.lookup "tableName" props) = true ->
  client_query pg client
    (Js.Str (create_table_statement (Js.printed (Js.lookup "tableName" props)) columns))
    [] w1 = (inr r, w2) ->
  Pooled.createTable pg (Some props) w
  = (inr (created (Some (Js.Obj [])) (Js.lookup "tableName" props)),
     client_release pg client w2,
     [PoolConnect (Some client);
      accepted client
        (create_table_statement (Js.printed (Js.lookup "tableName" props)) columns);
      Release client]).
Proof.
  intros Hconnect Hcolumns Hname Hquery.
  unfold Pooled.createTable. cbv beta iota zeta delta [bind lift Js.destructure ret].
  rewrite Hcolumns, (createTableQuery_of_columns _ _ Hname), (to_string_printed _ Hname).
  step_handler. rewrite Hconnect, Hquery. reflexivity.
Qed.

Lemma OneClient_createTable_accepted (config tableName : Js.Value)
  (columns : list ColumnDefinition) (w w0 w1 w2 w3 : W) (client : Client)
  (r : QueryResult) :
  new_Client pg config w = (inr client, w0) ->
  client_connect pg client w0 = (inr tt, w1) ->
  Js.printable tableName = true ->
  client_query pg client
    (Js.Str (create_table_statement (Js.printed tableName) columns)) [] w1
  = (inr r, w2) ->
  client_end pg client w2 = (inr tt, w3) ->
  OneClient.createTable pg config tableName (Js.Arr (map column_value columns)) w
  = (inr (created (Some (Js.Obj [])) tableName),
     w3,
     [NewClient config (Some client); Connect client true;
      accepted client (create_table_statement (Js.printed tableName) columns);
      End_ client true]).
Proof.
  intros Hnew Hconnect Hname Hquery Hend.
  unfold OneClient.createTable.
  rewrite (createTableQuery_of_columns _ _ Hname), (to_string_printed _ Hname).
  step_handler. rewrite Hnew, Hconnect, Hquery, Hend. reflexivity.
Qed.

Lemma PerCall_createTable_unfolds (props : list (string * Js.Value)) (w : W) :
  PerCall.createTable pg (Some props) w
  = OneClient.createTable pg (PerCall.config_of props)
      (Js.lookup "tableName" props) (Js.lookup "columns" props) w.
Proof.
  unfold PerCall.createTable. rewrite bind_step. cbv [Js.destructure lift ret].
  now destruct (OneClient.createTable pg (PerCall.config_of props)
                  (Js.lookup "tableName" props) (Js.lookup "columns" props) w)
    as [[r w1] t1].
Qed.

End Statements.

Section Batches.

Context {W : Type} (pg : Driver W) (connectionString : string).

(** C5, as amended: [insert_data(tableName, data)] with N records whose
    values can be printed sends, when the driver accepts them, exactly one
    statement per record, in the order of the records and on the one
    connection it acquired, each of the form
    [INSERT INTO <tableName> (<keys>) VALUES (<values>)], and returns the
    text that reports the table name and N; the pooled build then releases
    the connection, the build with a client per call ends it.  Of the
    values, a string goes between single quotes as it is; a number and a
    boolean are inlined unquoted as JavaScript prints them, a number that
    is an integer below [2^53] as its decimal digits.  The place of a
    [null] or [undefined] value stays empty. *)
Theorem insertData_sends_one_insert_per_record
  (tableName : string) (props : list (string * Js.Value))
  (records : list (list (string * Js.Value))) (w : W) :
  Js.lookup "tableName" props = Js.Str tableName ->
  Js.lookup "data" props = Js.Arr (map Js.Obj records) ->
  forallb printable_record records = true ->
  (forall client w1 w2,
      pool_connect pg w = (inr client, w1) ->
      accepts_all pg client (map (insert_statement tableName) records) w1 = Some w2 ->
      Pooled.insertData pg (Some props) w
      = (inr {| content := [{| type := "text";
                               text := Some ("成功向 " ++ tableName ++ " 插入 "
                                             ++ count_text (List.length records)
                                             ++ " 条数据") |}];
                isError := None;
                _meta := Some (Js.Obj []) |},
         client_release pg client w2,
         (PoolConnect (Some client)
          :: map (accepted client) (map (insert_statement tableName) records)
          ++ [Release client])%list))
  /\ (forall client w0 w1 w2 w3,
         new_Client pg (EnvClient.config connectionString) w = (inr client, w0) ->
         client_connect pg client w0 = (inr tt, w1) ->
         accepts_all pg client (map (insert_statement tableName) records) w1 = Some w2 ->
         client_end pg client w2 = (inr tt, w3) ->
         EnvClient.insertData pg connectionString (Some props) w
         = (inr {| content := [{| type := "text";
                                  text := Some ("成功向 " ++ tableName ++ " 插入 "
                                                ++ count_text (List.length records)
                                                ++ " 条数据") |}];
                   isError := None;
                   _meta := Some (Js.Obj []) |},
            w3,
            (NewClient (EnvClient.config connectionString) (Some client)
             :: Connect client true
             :: map (accepted client) (map (insert_statement tableName) records)
             ++ [End_ client true])%list))
  /\ (forall s, sql_literal (Js.Str s) = "'" ++ s ++ "'")
  /\ (forall x, sql_literal (Js.Num x) = Js.Number_toString x)
  /\ (forall z, (Z.abs z < 2 ^ 53)%Z -> sql_literal (Js.Num (Js.integer z)) = Js.decimal z)
  /\ sql_literal (Js.Bool true) = "true"
  /\ sql_literal (Js.Bool false) = "false"
  /\ sql_literal Js.Null = EmptyString
  /\ sql_literal Js.Undefined = EmptyString
  /\ (forall n, (Z.of_nat n < 2 ^ 53)%Z -> count_text n = Js.decimal (Z.of_nat n)).
Proof.
  intros Hname Hdata Hrecords.
  assert (Hprintable : Js.printable (Js.lookup "tableName" props) = true)
    by now rewrite Hname.
  split; [|split; [|repeat split]].
  - intros client w1 w2 Hpool Haccepts.
    rewrite (Pooled_insertData_accepted pg props records w (w2 := w2) Hpool Hdata
               Hprintable Hrecords).
    + unfold inserted, insert_statements. now rewrite Hname.
    + unfold insert_statements. now rewrite Hname.
  - intros client w0 w1 w2 w3 Hnew Hconnect Haccepts Hend.
    rewrite EnvClient_insertData_unfolds, Hdata.
    rewrite (OneClient_insertData_accepted pg _ (Js.lookup "tableName" props) records w
               (w2 := w2) (w3 := w3) Hnew Hconnect Hprintable Hrecords).
    + unfold inserted, insert_statements. now rewrite Hname.
    + unfold insert_statements. now rewrite Hname.
    + exact Hend.
  - intros z Hz. apply (Number_toString_integer z Hz).
  - apply count_text_decimal.
Qed.


(** C7: [create_table(tableName, columns)] sends exactly
    [CREATE TABLE <tableName> (<name1> <type1>, <name2> <type2>, ...)],
    the name, the column names and the types as the caller gave them, and
    when the driver accepts it returns the text that names the table. *)
Theorem createTable_sends_the_ddl_verbatim
  (tableName : string) (props : list (string * Js.Value))
  (columns : list ColumnDefinition) (w : W) :
  Js.lookup "tableName" props = Js.Str tableName ->
  Js.lookup "columns" props = Js.Arr (map column_value columns) ->
  (forall client w1 w2 r,
      pool_connect pg w = (inr client, w1) ->
      client_query pg client (Js.Str (create_table_statement tableName columns)) [] w1
      = (inr r, w2) ->
      Pooled.createTable pg (Some props) w
      = (inr {| content := [{| type := "text";
                               text := Some ("表 " ++ tableName ++ " 创建成功") |}];
                isError := None;
                _meta := Some (Js.Obj []) |},
         client_release pg client w2,
         [PoolConnect (Some client);
          Query client (Js.Str (create_table_statement tableName columns)) [] true;
          Release client]))
  /\ (forall client w0 w1 w2 w3 r,
         new_Client pg (PerCall.config_of props) w = (inr client, w0) ->
         client_connect pg client w0 = (inr tt, w1) ->
         client_query pg client (Js.Str (create_table_statement tableName columns)) [] w1
         = (inr r, w2) ->
         client_end pg client w2 = (inr tt, w3) ->
         PerCall.createTable pg (Some props) w
         = (inr {| content := [{| type := "text";
                                  text := Some ("表 " ++ tableName ++ " 创建成功") |}];
                   isError := None;
                   _meta := Some (Js.Obj []) |},
            w3,
            [NewClient (PerCall.config_of props) (Some client);
             Connect client true;
             Query client (Js.Str (create_table_statement tableName columns)) [] true;
             End_ client true])).
Proof.
  intros Hname Hcolumns.
  assert (Hprintable : Js.printable (Js.lookup "tableName" props) = true)
    by now rewrite Hname.
  split.
  - intros client w1 w2 r Hpool Hquery.
    rewrite (Pooled_createTable_accepted pg props columns w (w2 := w2) (r := r)
               Hpool Hcolumns Hprintable).
    + unfold created, accepted. now rewrite Hname.
    + now rewrite Hname.
  - intros client w0 w1 w2 w3 r Hnew Hconnect Hquery Hend.
    rewrite PerCall_createTable_unfolds, Hcolumns.
    rewrite (OneClient_createTable_accepted pg _ (Js.lookup "tableName" props) columns w
               (w2 := w2) (w3 := w3) (r := r) Hnew Hconnect Hprintable).
    + unfold created, accepted. now rewrite Hname.
    + now rewrite Hname.
    + exact Hend.
Qed.

End Batches.

(** Two records on the reference server: two INSERT statements, both
    stored, and the count in the text. *)
Lemma insertData_on_reference :
  Pooled.insertData Reference.pg (Some Example.insert_two) Reference.up
  = (inr {| content := [{| type := "text"; text := Some "成功向 t 插入 2 条数据" |}];
            isError := None;
            _meta := Some (Js.Obj []) |},
     Reference.holding ["INSERT INTO t (a, b) VALUES (1, 'x')";
                        "INSERT INTO t (a, b) VALUES (true, 'y')"],
     [PoolConnect (Some 0);
      Query 0 (Js.Str "INSERT INTO t (a, b) VALUES (1, 'x')") [] true;
      Query 0 (Js.Str "INSERT INTO t (a, b) VALUES (true, 'y')") [] true;
      Release 0])
  /\ EnvClient.insertData Reference.pg Example.connectionString
       (Some Example.insert_two) Reference.up
     = (inr {| content := [{| type := "text"; text := Some "成功向 t 插入 2 条数据" |}];
               isError := None;
               _meta := Some (Js.Obj []) |},
        Reference.holding ["INSERT INTO t (a, b) VALUES (1, 'x')";
                           "INSERT INTO t (a, b) VALUES (true, 'y')"],
        [NewClient (EnvClient.config Example.connectionString) (Some 1);
         Connect 1 true;
         Query 1 (Js.Str "INSERT INTO t (a, b) VALUES (1, 'x')") [] true;
         Query 1 (Js.Str "INSERT INTO t (a, b) VALUES (true, 'y')") [] true;
         End_ 1 true]).
Proof.
  pose proof (@insertData_sends_one_insert_per_record _ Reference.pg
                Example.connectionString "t" Example.insert_two Example.two_records
                Reference.up eq_refl eq_refl eq_refl)
    as [Hpooled [Hclient _]].
  split.
  - exact (Hpooled 0 Reference.up _ eq_refl eq_refl).
  - exact (Hclient 1 Reference.up Reference.up _ _ eq_refl eq_refl eq_refl eq_refl).
Defined.

(** A value that is [null] is not inlined as [null]: the position is left
    empty, and the reference server, as PostgreSQL, rejects the statement. *)
Lemma null_is_inlined_as_nothing :
  Sql.insertQuery (Js.Str "t") (Js.Obj [("a", Js.Null)])
  = inr "INSERT INTO t (a) VALUES ()"
  /\ Sql.insertQuery (Js.Str "t") (Js.Obj [("a", Js.Null); ("b", Js.Num (Js.integer 2))])
     = inr "INSERT INTO t (a, b) VALUES (, 2)"
  /\ Pooled.insertData Reference.pg
       (Some [("tableName", Js.Str "t"); ("data", Js.Arr [Js.Obj [("a", Js.Null)]])])
       Reference.up
     = (inr {| content := [{| type := "text";
                              text := Some "插入数据失败: syntax error at or near )" |}];
               isError := Some true;
               _meta := Some (Js.Obj []) |},
        Reference.up,
        [PoolConnect (Some 0);
         Query 0 (Js.Str "INSERT INTO t (a) VALUES ()") [] false;
         Release 0]).
Proof. repeat split. Qed.


(** A table of two columns on the reference server. *)
Lemma createTable_on_reference :
  Pooled.createTable Reference.pg (Some Example.create_t1) Reference.up
  = (inr {| content := [{| type := "text"; text := Some "表 t1 创建成功" |}];
            isError := None;
            _meta := Some (Js.Obj []) |},
     Reference.holding ["CREATE TABLE t1 (id integer, v text)"],
     [PoolConnect (Some 0);
      Query 0 (Js.Str "CREATE TABLE t1 (id integer, v text)") [] true;
      Release 0])
  /\ PerCall.createTable Reference.pg (Some Example.create_t1) Reference.up
     = (inr {| content := [{| type := "text"; text := Some "表 t1 创建成功" |}];
               isError := None;
               _meta := Some (Js.Obj []) |},
        Reference.holding ["CREATE TABLE t1 (id integer, v text)"],
        [NewClient (PerCall.config_of Example.create_t1) (Some 1);
         Connect 1 true;
         Query 1 (Js.Str "CREATE TABLE t1 (id integer, v text)") [] true;
         End_ 1 true]).
Proof.
  pose proof (@createTable_sends_the_ddl_verbatim _ Reference.pg "t1"
                Example.create_t1 Example.columns Reference.up eq_refl eq_refl)
    as [Hpooled Hclient].
  split.
  - exact (Hpooled 0 Reference.up _ (Result []) eq_refl eq_refl).
  - exact (Hclient 1 Reference.up Reference.up _ _ (Result [])
             eq_refl eq_refl eq_refl eq_refl).
Defined.

(* ================================================================== *)
(** ** The rows of a query as JSON text *)
(* ================================================================== *)

(** Induction on a value and the values it holds. *)
Lemma Value_induction (P : Js.Value -> Prop) :
  P Js.Undefined -> P Js.Null -> (forall b, P (Js.Bool b)) ->
  (forall x, P (Js.Num x)) -> (forall s, P (Js.Str s)) ->
  (forall items, Forall P items -> P (Js.Arr items)) ->
  (forall props, Forall (fun p => P (snd p)) props -> P (Js.Obj props)) ->
  forall v, P v.
Proof.
  intros Hundefined Hnull Hbool Hnum Hstr Harr Hobj.
  fix IH 1. intros [| |b|x|s|items|props].
  - exact Hundefined.
  - exact Hnull.
  - apply Hbool.
  - apply Hnum.
  - apply Hstr.
  - apply Harr. induction items as [|x items IHitems]; constructor;
      [apply IH | exact IHitems].
  - apply Hobj. induction props as [|[k x] props IHprops]; constructor;
      [apply IH | exact IHprops].
Qed.

Lemma append_associative (a b c : string) : (a ++ b) ++ c = a ++ (b ++ c).
Proof.
  induction a as [|x a IH]; cbn [append]; [reflexivity | now rewrite IH].
Qed.

(** QuoteJSONString escapes a character as RFC 8259 words it. *)
Lemma escape_char_escaped (c : ascii) : Js.escape_char c = Json.escaped c.
Proof.
  destruct c as [[|] [|] [|] [|] [|] [|] [|] [|]]; reflexivity.
Qed.

Lemma concat_characters (c : ascii) (s : string) :
  String.concat EmptyString (map Json.escaped (list_ascii_of_string (String c s)))
  = Json.escaped c
    ++ String.concat EmptyString (map Json.escaped (list_ascii_of_string s)).
Proof.
  cbn [list_ascii_of_string map String.concat].
  destruct (map Json.escaped (list_ascii_of_string s)) as [|x l] eqn:Hrest.
  - cbn [String.concat]. symmetry. apply append_empty.
  - reflexivity.
Qed.

Lemma escape_escaped (s : string) :
  Js.escape s
  = String.concat EmptyString (map Json.escaped (list_ascii_of_string s)).
Proof.
  induction s as [|c s IH]; [reflexivity|].
  rewrite concat_characters, <- IH. cbn [Js.escape].
  now rewrite escape_char_escaped.
Qed.

(** The string [JSON.stringify] writes is the JSON string of RFC 8259. *)
Lemma quote_string_literal (s : string) : Js.quote s = Json.string_literal s.
Proof.
  unfold Js.quote, Json.string_literal, Js.quotation_mark.
  now rewrite escape_escaped.
Qed.

(** Reading an escaped character gives the character back. *)
Lemma read_string_step (c : ascii) (rest : string) :
  Json.read_string (Json.escaped c ++ rest)
  = match Json.read_string rest with
    | Some (t, following) => Some (String c t, following)
    | None => None
    end.
Proof.
  destruct c as [[|] [|] [|] [|] [|] [|] [|] [|]]; reflexivity.
Qed.

(** Reading a JSON string gives back the string that was written. *)
Lemma read_string_escaped (s following : string) :
  Json.read_string
    (String.concat EmptyString (map Json.escaped (list_ascii_of_string s))
     ++ String "034" following)
  = Some (s, following).
Proof.
  induction s as [|c s IH]; [reflexivity|].
  now rewrite concat_characters, append_associative, read_string_step, IH.
Qed.

Lemma unquote_string_literal (s : string) :
  Json.unquote (Json.string_literal s) = Some s.
Proof.
  unfold Json.unquote, Json.string_literal. cbn [append].
  now rewrite read_string_escaped.
Qed.

(** The parts of a block, each on its line, are the parts joined by a
    comma and the line break. *)
Lemma concat_lines (lead : string) (part : string) (parts : list string) :
  lead ++ String.concat ("," ++ lead) (part :: parts)
  = String.concat "," (map (fun p => lead ++ p) (part :: parts)).
Proof.
  revert part. induction parts as [|next parts IH]; intros part.
  - reflexivity.
  - change (String.concat ("," ++ lead) (part :: next :: parts))
      with (part ++ ("," ++ lead) ++ String.concat ("," ++ lead) (next :: parts)).
    change (String.concat "," (map (fun p => lead ++ p) (part :: next :: parts)))
      with ((lead ++ part) ++ ","
            ++ String.concat "," (map (fun p => lead ++ p) (next :: parts))).
    rewrite <- IH. now rewrite !append_associative.
Qed.

Lemma wrap_block (opening closing : string) (depth : nat) (parts : list string) :
  Js.wrap opening closing (Json.indentation (S depth)) (Json.indentation depth) parts
  = Json.block opening closing depth parts.
Proof.
  destruct parts as [|part parts]; [reflexivity|].
  unfold Js.wrap, Json.block.
  pose proof (concat_lines (Js.line_feed ++ Json.indentation (S depth)) part parts)
    as Hlines.
  change (fun p : string => (Js.line_feed ++ Json.indentation (S depth)) ++ p)
    with (fun p : string => Js.line_feed ++ Json.indentation (S depth) ++ p)
    in Hlines.
  rewrite <- Hlines. now rewrite !append_associative.
Qed.

(** [JSON.stringify] with an indentation of two spaces writes the text
    the specification words, at every depth. *)
Lemma serialize_pretty (v : Js.Value) :
  forall depth,
    Js.serialize "  " (Json.indentation depth) v = Json.pretty depth v.
Proof.
  induction v as [| |b|x|s|items IH|props IH] using Value_induction; intros depth;
    try reflexivity.
  - cbn [Js.serialize Json.pretty]. now rewrite quote_string_literal.
  - cbn [Js.serialize Json.pretty]. f_equal.
    change (Json.indentation depth ++ "  ") with (Json.indentation (S depth)).
    rewrite wrap_block. f_equal.
    induction IH as [|x items Hx _ IHitems]; [reflexivity|].
    rewrite Hx, IHitems. now destruct (Json.pretty (S depth) x).
  - cbn [Js.serialize Json.pretty]. f_equal.
    change (Json.indentation depth ++ "  ") with (Json.indentation (S depth)).
    rewrite wrap_block. f_equal.
    induction IH as [|[k x] props Hx _ IHprops]; [reflexivity|].
    cbn [snd] in Hx. rewrite Hx, IHprops, quote_string_literal.
    now destruct (Json.pretty (S depth) x).
Qed.

Lemma stringify_pretty (v : Js.Value) : Js.JSON_stringify v 2 = Json.pretty 0 v.
Proof. apply (serialize_pretty v 0). Qed.

(** The rows of one result: the array of the rows, one under the other. *)
Lemma pretty_array (rows0 : list Js.Value) :
  Json.pretty 0 (Js.Arr rows0) = Some (pretty_rows rows0).
Proof.
  cbn [Json.pretty]. unfold pretty_rows. do 2 f_equal.
  induction rows0 as [|row rows0 IH]; [reflexivity|].
  cbn [map]. rewrite <- IH. now destruct (Json.pretty 1 row).
Qed.

Lemma stringify_rows_text (r : QueryResult) : stringify_rows r = rows_text r.
Proof.
  unfold stringify_rows. rewrite stringify_pretty. now destruct r.
Qed.

Lemma stringify_rows_pretty (rows0 : list Js.Value) :
  stringify_rows (Result rows0) = Some (pretty_rows rows0).
Proof.
  rewrite stringify_rows_text. apply pretty_array.
Qed.

Section Rows.

Context {W : Type} (pg : Driver W).

(** C9, as amended: when the transaction opens and the driver resolves the
    statement with one result, [execute_query] (and [query] of the other
    pooled build) returns one text, the rows the driver gave as JSON text:
    the rows in the driver's order, one under the other, two spaces in for
    every level, none dropped; every string between quotation marks and
    escaped so that reading it gives the string back; an integer below
    [2^53] as its decimal digits; for the single row
    [{one: 1}] the text is [[{"one": 1}]] printed with an indentation of
    two spaces. *)
Theorem executeQuery_returns_the_rows_as_json
  (statement : Js.Value) (rows0 : list Js.Value) (w w1 w2 w3 : W) (client : Client)
  (r0 : QueryResult) :
  pool_connect pg w = (inr client, w1) ->
  client_query pg client (Js.Str "BEGIN TRANSACTION READ ONLY") [] w1 = (inr r0, w2) ->
  client_query pg client statement [] w2 = (inr (Result rows0), w3) ->
  (forall props,
      Js.lookup "query" props = statement ->
      result (Pooled.executeQuery pg (Some props) w)
      = inr {| content := [{| type := "text"; text := Some (pretty_rows rows0) |}];
               isError := None;
               _meta := Some (Js.Obj []) |})
  /\ (forall props,
         Js.lookup "sql" props = statement ->
         result (PooledQuery.executeQuery pg (Some props) w)
         = inr {| content := [{| type := "text"; text := Some (pretty_rows rows0) |}];
                  isError := None;
                  _meta := None |})
  /\ (forall s, Json.unquote (Json.string_literal s) = Some s)
  /\ (forall z, (Z.abs z < 2 ^ 53)%Z -> Json.number (Js.integer z) = Js.decimal z)
  /\ pretty_rows [Js.Obj [("one", Js.Num (Js.integer 1))]] = one_is_1.
Proof.
  intros Hconnect Hbegin Hstatement.
  split; [|split; [|split; [exact unquote_string_literal|split; [|reflexivity]]]];
    [| |intros z Hz; unfold Json.number; rewrite (is_finite_integer z Hz);
        exact (Number_toString_integer z Hz)].
  - intros props Hquery.
    unfold Pooled.executeQuery. cbv beta iota zeta delta [bind lift Js.destructure ret].
    rewrite Hquery. step_handler. rewrite Hconnect, Hbegin, Hstatement.
    destruct (client_query pg client (Js.Str "ROLLBACK") [] w3) as [[e|r] w4];
      now rewrite stringify_rows_pretty.
  - intros props Hsql.
    unfold PooledQuery.executeQuery.
    cbv beta iota zeta delta [bind lift Js.destructure ret].
    rewrite Hsql. step_handler. rewrite Hconnect, Hbegin, Hstatement.
    destruct (client_query pg client (Js.Str "ROLLBACK") [] w3) as [[e|r] w4];
      now rewrite stringify_rows_pretty.
Qed.

End Rows.

(** [SELECT 1 AS one] on the reference server. *)
Lemma select_one_on_reference :
  result (Pooled.executeQuery Reference.pg
            (Some [("query", Js.Str "SELECT 1 AS one")]) Reference.up)
  = inr {| content := [{| type := "text"; text := Some one_is_1 |}];
           isError := None;
           _meta := Some (Js.Obj []) |}
  /\ result (PooledQuery.executeQuery Reference.pg
               (Some [("sql", Js.Str "SELECT 1 AS one")]) Reference.up)
     = inr {| content := [{| type := "text"; text := Some one_is_1 |}];
              isError := None;
              _meta := None |}.
Proof.
  pose proof (@executeQuery_returns_the_rows_as_json _ Reference.pg
                (Js.Str "SELECT 1 AS one") [Js.Obj [("one", Js.Num (Js.integer 1))]]
                Reference.up Reference.up
                {| Reference.reachable := true; Reference.read_only := true;
                   Reference.stored := [] |}
                {| Reference.reachable := true; Reference.read_only := true;
                   Reference.stored := [] |}
                0 (Result []) eq_refl eq_refl eq_refl)
    as [Hpooled [Hquery _]].
  split.
  - exact (Hpooled [("query", Js.Str "SELECT 1 AS one")] eq_refl).
  - exact (Hquery [("sql", Js.Str "SELECT 1 AS one")] eq_refl).
Defined.

(** A text of two statements: the driver resolves with the array of their
    results, which has no [rows], and the success response carries no
    text. *)
Lemma two_statements_give_no_text :
  Pooled.executeQuery Reference.pg
    (Some [("query", Js.Str "SELECT 1 AS one; SELECT 1 AS one")]) Reference.up
  = (inr {| content := [{| type := "text"; text := None |}];
            isError := None;
            _meta := Some (Js.Obj []) |},
     Reference.up,
     [PoolConnect (Some 0);
      Query 0 (Js.Str "BEGIN TRANSACTION READ ONLY") [] true;
      Query 0 (Js.Str "SELECT 1 AS one; SELECT 1 AS one") [] true;
      Query 0 (Js.Str "ROLLBACK") [] true;
      Release 0])
  /\ client_query Reference.pg 0 (Js.Str "SELECT 1 AS one; SELECT 1 AS one") []
       (Reference.within Reference.up true)
     = (inr (Results [[Js.Obj [("one", Js.Num (Js.integer 1))]];
                      [Js.Obj [("one", Js.Num (Js.integer 1))]]]),
        Reference.within Reference.up true).
Proof. split; reflexivity. Qed.

(* ================================================================== *)
(** ** Arguments that omit a required field *)
(* ================================================================== *)

Section MissingFields.

Context {W : Type} (pg : Driver W) (connectionString : string).

(** C3, as amended: no handler checks the arguments against the schema.
    A call that omits a required field reaches its executor, which
    acquires the connection first and reads the missing field as
    [undefined]: a missing [query] is sent to the driver as it is, inside
    the read-only transaction; missing [columns] or [data] raise a
    [TypeError] inside the [try] block, which comes back as an
    error-flagged response once the connection is acquired, before any
    statement; a missing [tableName] is spelled [undefined] in the
    statements, which are sent; in the per-call build a missing [url]
    reaches [new Client] as an undefined [connectionString]. *)
Theorem missing_field_reaches_the_executor
  (props : list (string * Js.Value)) (w w1 : W) (client : Client) :
  pool_connect pg w = (inr client, w1) ->
  (Js.lookup "query" props = Js.Undefined ->
   ReadOnlyRun client Js.Undefined
     (trace (Pooled.call_tool pg connectionString "execute_query" (Some props) w)))
  /\ (Js.lookup "columns" props = Js.Undefined ->
      exists message,
        Pooled.call_tool pg connectionString "create_table" (Some props) w
        = (inr {| content := [{| type := "text";
                                 text := Some ("创建表失败: " ++ message) |}];
                  isError := Some true;
                  _meta := Some (Js.Obj []) |},
           client_release pg client w1,
           [PoolConnect (Some client); Release client]))
  /\ (Js.lookup "data" props = Js.Undefined ->
      exists message,
        Pooled.call_tool pg connectionString "insert_data" (Some props) w
        = (inr {| content := [{| type := "text";
                                 text := Some ("插入数据失败: " ++ message) |}];
                  isError := Some true;
                  _meta := Some (Js.Obj []) |},
           client_release pg client w1,
           [PoolConnect (Some client); Release client]))
  /\ (Js.lookup "tableName" props = Js.Undefined ->
      forall records w2,
        Js.lookup "data" props = Js.Arr (map Js.Obj records) ->
        forallb printable_record records = true ->
        accepts_all pg client (map (insert_statement "undefined") records) w1
        = Some w2 ->
        Pooled.call_tool pg connectionString "insert_data" (Some props) w
        = (inr {| content := [{| type := "text";
                                 text := Some ("成功向 undefined 插入 "
                                               ++ count_text (List.length records)
                                               ++ " 条数据") |}];
                  isError := None;
                  _meta := Some (Js.Obj []) |},
           client_release pg client w2,
           (PoolConnect (Some client)
            :: map (accepted client) (map (insert_statement "undefined") records)
            ++ [Release client])%list))
  /\ (Js.lookup "url" props = Js.Undefined ->
      exists made rest,
        trace (PerCall.call_tool pg "execute_query" (Some props) w)
        = NewClient (Js.Obj [("connectionString", Js.Undefined);
                             ("user", Js.lookup "username" props);
                             ("password", Js.lookup "password" props)]) made
          :: rest).
Proof.
  intros Hconnect.
  change (PerCall.call_tool pg "execute_query" (Some props) w)
    with (PerCall.executeQuery pg (Some props) w).
  change (Pooled.call_tool pg connectionString "execute_query" (Some props) w)
    with (Pooled.executeQuery pg (Some props) w).
  change (Pooled.call_tool pg connectionString "create_table" (Some props) w)
    with (Pooled.createTable pg (Some props) w).
  change (Pooled.call_tool pg connectionString "insert_data" (Some props) w)
    with (Pooled.insertData pg (Some props) w).
  repeat split.
  - intros Hquery. rewrite <- Hquery.
    apply (Pooled_executeQuery_run pg props w Hconnect).
  - intros Hcolumns. eexists.
    unfold Pooled.createTable. cbv beta iota zeta delta [bind lift Js.destructure ret].
    rewrite Hcolumns. unfold Sql.createTableQuery, Sql.columnDefinitions, Js.array_items.
    cbv beta iota delta [Sql.and_then]. step_handler. rewrite Hconnect.
    cbn [Js.message_or_unknown Js.message]. reflexivity.
  - intros Hdata. eexists.
    unfold Pooled.insertData. cbv beta iota zeta delta [bind lift Js.destructure ret].
    rewrite Hdata. step_handler. rewrite Hconnect.
    cbn [Js.message_or_unknown Js.message]. reflexivity.
  - intros Hname records w2 Hdata Hrecords Haccepts.
    assert (Hprintable : Js.printable (Js.lookup "tableName" props) = true)
      by now rewrite Hname.
    rewrite (Pooled_insertData_accepted pg props records w (w2 := w2) Hconnect Hdata
               Hprintable Hrecords).
    + unfold inserted, insert_statements. now rewrite Hname.
    + unfold insert_statements. now rewrite Hname.
  - intros Hurl.
    unfold PerCall.executeQuery.
    cbv beta iota zeta delta [bind lift Js.destructure ret PerCall.config_of].
    rewrite Hurl. unfold OneClient.executeQuery. step_handler.
    destruct (new_Client pg _ w) as [[e|made] w0]; [eexists; eexists; reflexivity|].
    destruct (client_connect pg made w0) as [[e|u] w2];
      [eexists; eexists; reflexivity|].
    destruct (client_query pg made (Js.lookup "query" props) [] w2) as [[e|r] w3];
      [eexists; eexists; reflexivity|].
    destruct (client_end pg made w3) as [[e|u'] w4]; eexists; eexists; reflexivity.
Qed.

End MissingFields.

(** [create_table] without [columns] on the reference server: the
    connection is acquired and released around a [TypeError]. *)
Lemma createTable_without_columns_on_reference :
  exists message,
    Pooled.call_tool Reference.pg Example.connectionString "create_table"
      (Some [("tableName", Js.Str "t1")]) Reference.up
    = (inr {| content := [{| type := "text";
                             text := Some ("创建表失败: " ++ message) |}];
              isError := Some true;
              _meta := Some (Js.Obj []) |},
       Reference.up,
       [PoolConnect (Some 0); Release 0]).
Proof.
  exact (proj1 (proj2 (@missing_field_reaches_the_executor _ Reference.pg
                         Example.connectionString [("tableName", Js.Str "t1")]
                         Reference.up Reference.up 0 eq_refl))
           eq_refl).
Defined.

(** [insert_data] without [tableName] is not rejected: the reference
    server receives and stores [INSERT INTO undefined ...], and the
    response is a success. *)
Lemma insertData_without_tableName_is_sent :
  Js.lookup "tableName" [("data", Js.Arr [Js.Obj [("a", Js.Num (Js.integer 1))]])]
  = Js.Undefined
  /\ Pooled.call_tool Reference.pg Example.connectionString "insert_data"
       (Some [("data", Js.Arr [Js.Obj [("a", Js.Num (Js.integer 1))]])]) Reference.up
     = (inr {| content := [{| type := "text";
                              text := Some "成功向 undefined 插入 1 条数据" |}];
               isError := None;
               _meta := Some (Js.Obj []) |},
        Reference.holding ["INSERT INTO undefined (a) VALUES (1)"],
        [PoolConnect (Some 0);
         Query 0 (Js.Str "INSERT INTO undefined (a) VALUES (1)") [] true;
         Release 0]).
Proof. split; reflexivity. Qed.

(* ================================================================== *)
(** ** Closing the connection *)
(* ================================================================== *)

Section Closing.

Context {W : Type} (pg : Driver W).

(** In the builds with a client per call, a statement the driver rejects
    sends [executeQuery] to its [catch] block past [client.end()]: the
    connected client is never ended. *)
Lemma OneClient_executeQuery_rejected (config query : Js.Value)
  (w w0 w1 w2 : W) (client : Client) (e : Js.Exception) :
  new_Client pg config w = (inr client, w0) ->
  client_connect pg client w0 = (inr tt, w1) ->
  client_query pg client query [] w1 = (inl e, w2) ->
  OneClient.executeQuery pg config query w
  = (inr {| content := [{| type := "text";
                           text := Some ("查询执行失败: "
                                         ++ Js.message_or_unknown e) |}];
            isError := Some true;
            _meta := Some (Js.Obj []) |},
     w2,
     [NewClient config (Some client); Connect client true;
      Query client query [] false]).
Proof.
  intros Hnew Hconnect Hquery.
  unfold OneClient.executeQuery. step_handler.
  rewrite Hnew, Hconnect, Hquery. reflexivity.
Qed.

(** In the pooled builds, [executeQuery] releases the connection it
    acquired exactly once, whatever the driver answers. *)
Lemma Pooled_executeQuery_releases_once (props : list (string * Js.Value))
  (w w1 : W) (client : Client) :
  pool_connect pg w = (inr client, w1) ->
  released client (trace (Pooled.executeQuery pg (Some props) w)) = 1.
Proof.
  intros Hconnect.
  destruct (Pooled_executeQuery_run pg props w Hconnect) as [Hrun _].
  destruct Hrun as [ok tail Htail|tail Htail]; destruct Htail;
    cbn [released]; rewrite ?Nat.eqb_refl; reflexivity.
Qed.

End Closing.

(** C4 on the per-call build: a misspelt statement is rejected after the
    client connected, and the trace of the call ends there, with no
    [client.end()]. *)
Theorem PerCall_executeQuery_never_ends_the_client :
  PerCall.executeQuery Reference.pg
    (Some [("url", Js.Str "postgresql://localhost:5432/db");
           ("username", Js.Str "u"); ("password", Js.Str "p");
           ("query", Js.Str "SELEC 1")]) Reference.up
  = (inr {| content := [{| type := "text";
                           text := Some "查询执行失败: syntax error" |}];
            isError := Some true;
            _meta := Some (Js.Obj []) |},
     Reference.up,
     [NewClient (Js.Obj [("connectionString", Js.Str "postgresql://localhost:5432/db");
                         ("user", Js.Str "u"); ("password", Js.Str "p")]) (Some 1);
      Connect 1 true;
      Query 1 (Js.Str "SELEC 1") [] false])
  /\ ended 1 (trace (PerCall.executeQuery Reference.pg
                       (Some [("url", Js.Str "postgresql://localhost:5432/db");
                              ("username", Js.Str "u"); ("password", Js.Str "p");
                              ("query", Js.Str "SELEC 1")]) Reference.up)) = 0.
Proof. split; reflexivity. Qed.

(** A response of the reference server, read through the envelope
    theorem. *)
Lemma response_on_reference_holds_one_text :
  one_text {| content := [{| type := "text";
                             text := Some "成功向 t 插入 2 条数据" |}];
              isError := None;
              _meta := Some (Js.Obj []) |}.
Proof.
  exact (proj2 (proj2 (proj2 (proj1
           (@every_response_holds_one_text _ Reference.pg Example.connectionString
              (Some Example.insert_two)))))
           Reference.up _ eq_refl).
Defined.

(* ================================================================== *)
(** * More of the code *)
(* ================================================================== *)

(** ** One connection per handler in the pooled builds *)

Section Scope.

Context {W : Type} (pg : Driver W).

Lemma stays_on_ret {A} (client : Client) (a : A) : stays_on client (@ret W _ a).
Proof. intros w. reflexivity. Qed.

Lemma stays_on_lift {A} (client : Client) (r : Js.Exception + A) :
  stays_on client (@lift W _ r).
Proof. intros w. now destruct r. Qed.

Lemma stays_on_bind {A B} (client : Client) (m : @M W A) (k : A -> M B) :
  stays_on client m -> (forall a, stays_on client (k a)) ->
  stays_on client (bind m k).
Proof.
  intros Hm Hk w. rewrite bind_step. specialize (Hm w). unfold trace in *.
  destruct (m w) as [[[e|a] w1] t1]; cbn [snd] in *; [exact Hm|].
  rewrite forallb_app, Hm. exact (Hk a w1).
Qed.

Lemma stays_on_try_catch {A} (client : Client) (body : @M W A) handler :
  stays_on client body -> (forall e, stays_on client (handler e)) ->
  stays_on client (try_catch body handler).
Proof.
  intros Hbody Hhandler w. specialize (Hbody w). unfold try_catch, trace in *.
  destruct (body w) as [[[e|a] w1] t1]; cbn [snd] in *; [|exact Hbody].
  specialize (Hhandler e w1). unfold trace in Hhandler.
  destruct (handler e w1) as [[r2 w2] t2]. cbn [snd] in *.
  now rewrite forallb_app, Hbody.
Qed.

Lemma stays_on_query (client : Client) (text : Js.Value) (values : list Js.Value) :
  stays_on client (await_query pg client text values).
Proof.
  intros w. unfold await_query, trace.
  destruct (client_query pg client text values w) as [[e|r] w1]; cbn;
    now rewrite Nat.eqb_refl.
Qed.

Lemma stays_on_rollback (client : Client) :
  stays_on client (rollback_or_warn pg client).
Proof.
  unfold rollback_or_warn. apply stays_on_try_catch.
  - apply stays_on_bind; [apply stays_on_query|intros; apply stays_on_ret].
  - intros e w. reflexivity.
Qed.

Lemma stays_on_insert_each (client : Client) (tableName : Js.Value)
  (records : list Js.Value) :
  stays_on client (Pooled.insert_each pg client tableName records).
Proof.
  induction records as [|record records IH]; cbn [Pooled.insert_each].
  - apply stays_on_ret.
  - apply stays_on_bind; [apply stays_on_lift|intros q].
    apply stays_on_bind; [apply stays_on_query|intros _; exact IH].
Qed.

(** Every program of the executors is built from these. *)
Ltac stays_on :=
  repeat first
    [ apply stays_on_ret
    | apply stays_on_lift
    | apply stays_on_query
    | apply stays_on_rollback
    | apply stays_on_insert_each
    | apply stays_on_try_catch; [|intros ?]
    | apply stays_on_bind; [|intros ?] ].

(** A handler that acquires, runs statements on what it acquired, and
    releases in its [finally] block. *)
Lemma scoped_acquisition {A} (body : Client -> @M W A) (w : W) :
  (forall client, stays_on client (body client)) ->
  Scoped (trace ((client <- await_pool_connect pg ;;
                  try_finally (body client) (release pg client)) w)).
Proof.
  intros Hbody. rewrite bind_step. unfold await_pool_connect.
  destruct (pool_connect pg w) as [[e|client] w1]; [constructor|].
  specialize (Hbody client w1). unfold try_finally, release, trace in *.
  destruct (body client w1) as [[r w2] t2]. cbn [snd app] in *.
  now constructor.
Qed.

Lemma scoped_handler {A} (args : Js.Exception + list (string * Js.Value))
  (body : list (string * Js.Value) -> Client -> @M W A) (w : W) :
  (forall props client, stays_on client (body props client)) ->
  Scoped (trace ((props <- lift args ;;
                  client <- await_pool_connect pg ;;
                  try_finally (body props client) (release pg client)) w)).
Proof.
  intros Hbody. rewrite bind_step.
  destruct args as [e|props]; cbv [lift throw ret]; [constructor|].
  pose proof (scoped_acquisition (body props) w (Hbody props)) as Hscoped.
  unfold trace in *. cbn [snd app]. exact Hscoped.
Qed.

(** The same with the rollback before the release. *)
Lemma scoped_rolled_back {A} (args : Js.Exception + list (string * Js.Value))
  (body : list (string * Js.Value) -> Client -> @M W A) (w : W) :
  (forall props client, stays_on client (body props client)) ->
  Scoped (trace ((props <- lift args ;;
                  client <- await_pool_connect pg ;;
                  try_finally (body props client)
                    (rollback_or_warn pg client ;;; release pg client)) w)).
Proof.
  intros Hbody. rewrite bind_step.
  destruct args as [e|props]; cbv [lift throw ret]; [constructor|].
  rewrite bind_step. unfold await_pool_connect.
  destruct (pool_connect pg w) as [[e|client] w1]; [constructor|].
  specialize (Hbody props client w1).
  pose proof (stays_on_rollback client) as Hback.
  unfold try_finally, trace in *.
  destruct (body props client w1) as [[r w2] t2]. cbn [snd app] in *.
  specialize (Hback w2). rewrite bind_step. unfold trace in Hback.
  destruct (rollback_or_warn pg client w2) as [[[e|u] w3] t3] eqn:Hrollback.
  - pose proof (rollback_then_release_returns pg client w2) as Hreturns.
    unfold thrown, result in Hreturns. rewrite bind_step, Hrollback in Hreturns.
    discriminate.
  - unfold release. cbn [snd trace fst world result].
    rewrite app_assoc. constructor. now rewrite forallb_app, Hbody.
Qed.

(** X1: every handler of the pooled builds that uses the pool - the two
    resource handlers, [executeQuery], [createTable] and [insertData] -
    makes, for every driver and every arguments, no driver call at all (it
    threw on absent arguments), or one refused [pool.connect()], or one
    acquisition followed by statements on the acquired connection only and
    its release as the last call: the connection is released exactly once
    on every path, no client is built or ended, and no statement goes to
    another connection. *)
Theorem pooled_handlers_hold_one_connection
  (args : Arguments_) (uri : string) (w : W) :
  Scoped (trace (Pooled.list_resources pg w))
  /\ Scoped (trace (Pooled.read_resource pg uri w))
  /\ Scoped (trace (Pooled.executeQuery pg args w))
  /\ Scoped (trace (Pooled.createTable pg args w))
  /\ Scoped (trace (Pooled.insertData pg args w))
  /\ Scoped (trace (PooledQuery.executeQuery pg args w))
  /\ Scoped (trace (PooledQuery.createTable pg args w)).
Proof.
  repeat split.
  - apply scoped_acquisition. intros; stays_on.
  - apply scoped_acquisition. intros; stays_on.
  - apply scoped_rolled_back. intros; stays_on.
  - apply scoped_handler. intros; stays_on.
  - apply scoped_handler. intros; stays_on.
  - apply scoped_rolled_back. intros; stays_on.
  - apply scoped_handler. intros; stays_on.
Qed.

End Scope.

(** ** One client per call in the other builds *)

Section OwnClients.

Context {W : Type} (pg : Driver W).

Ltac forallb_on_client := cbn; rewrite ?Nat.eqb_refl; reflexivity.

Ltac own_client :=
  cbn [app];
  lazymatch goal with
  | |- OwnClient _ [NewClient _ None] => apply own_not_made
  | |- OwnClient _ [NewClient _ _; Connect _ false] => apply own_not_connected
  | |- OwnClient _ [_; _; ?q; End_ ?c ?ok] =>
      apply (own_ended _ c [q] ok); forallb_on_client
  | |- OwnClient _ [_; _; End_ ?c ?ok] =>
      apply (own_ended _ c [] ok); forallb_on_client
  | |- OwnClient _ (_ :: _ :: _) => apply own_left_open; forallb_on_client
  end.

Lemma OneClient_testConnection_own (config : Js.Value) (w : W) :
  OwnClient config (trace (OneClient.testConnection pg config w)).
Proof.
  unfold OneClient.testConnection. step_handler.
  destruct (new_Client pg config w) as [[e|c] w0]; [own_client|].
  destruct (client_connect pg c w0) as [[e|u] w1]; [own_client|].
  destruct (client_end pg c w1) as [[e|u'] w2]; own_client.
Qed.

Lemma OneClient_executeQuery_own (config query : Js.Value) (w : W) :
  OwnClient config (trace (OneClient.executeQuery pg config query w)).
Proof.
  unfold OneClient.executeQuery. step_handler.
  destruct (new_Client pg config w) as [[e|c] w0]; [own_client|].
  destruct (client_connect pg c w0) as [[e|u] w1]; [own_client|].
  destruct (client_query pg c query [] w1) as [[e|r] w2]; [own_client|].
  destruct (client_end pg c w2) as [[e|u'] w3]; own_client.
Qed.

Lemma OneClient_createTable_own (config tableName columns : Js.Value) (w : W) :
  OwnClient config (trace (OneClient.createTable pg config tableName columns w)).
Proof.
  unfold OneClient.createTable. step_handler.
  destruct (new_Client pg config w) as [[e|c] w0]; [own_client|].
  destruct (client_connect pg c w0) as [[e|u] w1]; [own_client|].
  destruct (Sql.createTableQuery tableName columns) as [e|q]; [own_client|].
  destruct (client_query pg c (Js.Str q) [] w1) as [[e|r] w2]; [own_client|].
  destruct (client_end pg c w2) as [[e|u'] w3]; [own_client|].
  destruct (Js.to_string tableName) as [e|name]; own_client.
Qed.

Lemma OneClient_insertData_own (config tableName data : Js.Value) (w : W) :
  OwnClient config (trace (OneClient.insertData pg config tableName data w)).
Proof.
  unfold OneClient.insertData.
  cbv beta iota zeta delta
    [thrown result world trace bind lift ret throw try_catch try_finally
     construct_Client await_connect await_end fst snd].
  destruct (new_Client pg config w) as [[e|c] w0]; [own_client|].
  destruct (client_connect pg c w0) as [[e|u] w1]; [own_client|].
  destruct (Js.iterate "data" data) as [e|records]; [own_client|].
  pose proof (stays_on_insert_each pg c tableName records w1) as Hstays.
  unfold trace in Hstays.
  destruct (Pooled.insert_each pg c tableName records w1) as [[[e|u'] w2] t2];
    cbn [snd] in Hstays.
  - cbn [app]. rewrite ?app_nil_r. now apply own_left_open.
  - destruct (client_end pg c w2) as [[e|u''] w3].
    + cbn [app]. rewrite ?app_nil_r. now apply own_ended.
    + destruct (Js.to_string tableName) as [e|name];
        [cbn [app]; rewrite ?app_nil_r; now apply own_ended|].
      destruct (Js.length data) as [e|n];
        [cbn [app]; rewrite ?app_nil_r; now apply own_ended|].
      destruct (Js.to_string n) as [e|count]; cbn [app]; rewrite ?app_nil_r;
        now apply own_ended.
Qed.

(** X2: in the builds that open a client per call, every executor makes,
    for every driver and every arguments, only these driver calls: the
    construction of its client, [connect()] on it, statements on that
    client, and [end()] on it as the last call if at all; it never touches
    a pool and never sends a statement on another client. *)
Theorem per_call_executors_use_their_own_client
  (connectionString : string) (props : list (string * Js.Value)) (w : W) :
  (OwnClient (PerCall.config_of props) (trace (PerCall.testConnection pg (Some props) w))
   /\ OwnClient (PerCall.config_of props) (trace (PerCall.executeQuery pg (Some props) w))
   /\ OwnClient (PerCall.config_of props) (trace (PerCall.createTable pg (Some props) w))
   /\ OwnClient (PerCall.config_of props) (trace (PerCall.insertData pg (Some props) w)))
  /\ (OwnClient (EnvClient.config connectionString)
        (trace (EnvClient.testConnection pg connectionString w))
      /\ OwnClient (EnvClient.config connectionString)
           (trace (EnvClient.executeQuery pg connectionString (Some props) w))
      /\ OwnClient (EnvClient.config connectionString)
           (trace (EnvClient.createTable pg connectionString (Some props) w))
      /\ OwnClient (EnvClient.config connectionString)
           (trace (EnvClient.insertData pg connectionString (Some props) w))).
Proof.
  repeat split;
    try (unfold PerCall.testConnection, PerCall.executeQuery, PerCall.createTable,
           PerCall.insertData, EnvClient.executeQuery, EnvClient.createTable,
           EnvClient.insertData;
         rewrite bind_step; cbv [Js.destructure lift ret];
         unfold trace at 1; cbn [snd app]).
  - apply OneClient_testConnection_own.
  - apply OneClient_executeQuery_own.
  - apply OneClient_createTable_own.
  - apply OneClient_insertData_own.
  - apply OneClient_testConnection_own.
  - apply OneClient_executeQuery_own.
  - apply OneClient_createTable_own.
  - apply OneClient_insertData_own.
Qed.

Lemma last_of_cons (e d : Event) (t : list Event) : last (e :: t) d = last t e.
Proof.
  revert e d. induction t as [|x t IH]; intros e d; [reflexivity|].
  change (last (e :: x :: t) d) with (last (x :: t) d).
  now rewrite (IH x d), (IH x e).
Qed.

Lemma last_stays_on (client : Client) (t : list Event) (d : Event) :
  forallb (on_client client) t = true ->
  (forall c ok, d <> End_ c ok) ->
  forall c ok, last t d <> End_ c ok.
Proof.
  revert d. induction t as [|x t IH]; intros d Hstays Hd c ok; [apply Hd|].
  cbn [forallb] in Hstays. apply andb_true_iff in Hstays.
  destruct Hstays as [Hx Ht].
  rewrite last_of_cons. apply (IH x Ht).
  intros c' ok' Heq. subst x. discriminate.
Qed.

(** Statements alone after the connection leave the run open. *)
Lemma open_is_not_closed (client : Client) (first : Event) (middle : list Event) :
  forallb (on_client client) middle = true ->
  closed (first :: Connect client true :: middle) = false.
Proof.
  intros Hstays. unfold closed.
  rewrite !last_of_cons.
  pose proof (@last_stays_on client middle (Connect client true) Hstays) as Hlast.
  destruct (last middle (Connect client true)) as [| | | | |c [|]|] eqn:E;
    try reflexivity.
  exfalso. apply (Hlast ltac:(discriminate) c true). reflexivity.
Qed.

Lemma ended_is_closed (first second : Event) (middle : list Event)
  (client : Client) (ok : bool) :
  closed (first :: second :: middle ++ [End_ client ok])%list = ok.
Proof.
  unfold closed.
  change (first :: second :: middle ++ [End_ client ok])%list
    with ((first :: second :: middle) ++ [End_ client ok])%list.
  rewrite last_last. now destruct ok.
Qed.

Lemma to_string_Num (x : Js.Number) :
  Js.to_string (Js.Num x) = inr (Js.Number_toString x).
Proof. reflexivity. Qed.

(** A statement was built only with a table name that can be printed. *)
Lemma createTableQuery_prints (tableName columns : Js.Value) (statement : string) :
  Sql.createTableQuery tableName columns = inr statement ->
  Js.printable tableName = true.
Proof.
  unfold Sql.createTableQuery. destruct (Sql.columnDefinitions columns) as [e|d];
    cbv beta iota delta [Sql.and_then]; [discriminate|].
  unfold Js.to_string. destruct (Js.printable tableName); [reflexivity|discriminate].
Qed.

Ltac success_iff_closed :=
  intros r Hr; inversion Hr; subst r; clear Hr; cbn [isError closed last app];
  split; intros H; solve [discriminate H | reflexivity].

Lemma OneClient_testConnection_closes (config : Js.Value) :
  closes_on_success (OneClient.testConnection pg config).
Proof.
  intros w. unfold OneClient.testConnection. step_handler.
  destruct (new_Client pg config w) as [[e|c] w0]; [discriminate|].
  destruct (client_connect pg c w0) as [[e|u] w1]; [success_iff_closed|].
  destruct (client_end pg c w1) as [[e|u'] w2]; success_iff_closed.
Qed.

Lemma OneClient_executeQuery_closes (config query : Js.Value) :
  closes_on_success (OneClient.executeQuery pg config query).
Proof.
  intros w. unfold OneClient.executeQuery. step_handler.
  destruct (new_Client pg config w) as [[e|c] w0]; [discriminate|].
  destruct (client_connect pg c w0) as [[e|u] w1]; [success_iff_closed|].
  destruct (client_query pg c query [] w1) as [[e|r0] w2]; [success_iff_closed|].
  destruct (client_end pg c w2) as [[e|u'] w3]; success_iff_closed.
Qed.

Lemma OneClient_createTable_closes (config tableName columns : Js.Value) :
  closes_on_success (OneClient.createTable pg config tableName columns).
Proof.
  intros w. unfold OneClient.createTable. step_handler.
  destruct (new_Client pg config w) as [[e|c] w0]; [discriminate|].
  destruct (client_connect pg c w0) as [[e|u] w1]; [success_iff_closed|].
  destruct (Sql.createTableQuery tableName columns) as [e|q] eqn:Hbuilt;
    [success_iff_closed|].
  rewrite (to_string_printed _ (createTableQuery_prints _ _ Hbuilt)).
  destruct (client_query pg c (Js.Str q) [] w1) as [[e|r0] w2]; [success_iff_closed|].
  destruct (client_end pg c w2) as [[e|u'] w3]; success_iff_closed.
Qed.

Lemma OneClient_insertData_closes (config tableName data : Js.Value) :
  closes_on_success_of tableName (OneClient.insertData pg config tableName data).
Proof.
  intros w. unfold OneClient.insertData.
  cbv beta iota zeta delta
    [thrown result world trace bind lift ret throw try_catch try_finally
     construct_Client await_connect await_end fst snd].
  destruct (new_Client pg config w) as [[e|c] w0]; [discriminate|].
  destruct (client_connect pg c w0) as [[e|u] w1].
  { intros r Hr; inversion Hr; subst r; clear Hr; cbn [isError closed last app].
    split; discriminate. }
  destruct (Js.iterate "data" data) as [e|records] eqn:Hiterate.
  { intros r Hr; inversion Hr; subst r; clear Hr; cbn [isError closed last app].
    split; discriminate. }
  pose proof (stays_on_insert_each pg c tableName records w1) as Hstays.
  unfold trace in Hstays.
  destruct (Pooled.insert_each pg c tableName records w1) as [[[e|u'] w2] t2];
    cbn [snd] in Hstays.
  { intros r Hr. inversion Hr; subst r; clear Hr. cbn [isError app].
    rewrite ?app_nil_r, (open_is_not_closed c _ t2 Hstays).
    split; discriminate. }
  destruct (client_end pg c w2) as [[e|u''] w3].
  { intros r Hr; inversion Hr; subst r; clear Hr; cbn [isError app].
    rewrite ?app_nil_r, ended_is_closed. split; discriminate. }
  destruct (Js.to_string tableName) as [e|name] eqn:Hprint.
  - intros r Hr; inversion Hr; subst r; clear Hr; cbn [isError app].
    rewrite ?app_nil_r, ended_is_closed. split; [discriminate|].
    intros _ Hname. rewrite (to_string_printed _ Hname) in Hprint. discriminate.
  - assert (Hlength : exists x, Js.length data = inr (Js.Num x)).
    { destruct data; try discriminate Hiterate; eexists; reflexivity. }
    destruct Hlength as [x Hx]. rewrite Hx, to_string_Num.
    intros r Hr; inversion Hr; subst r; clear Hr; cbn [isError app].
    rewrite ?app_nil_r, ended_is_closed. split; reflexivity.
Qed.

Lemma closes_after_destructuring (property : string) (args : Arguments_)
  (k : list (string * Js.Value) -> @M W ToolResponse) :
  (forall props, closes_on_success (k props)) ->
  closes_on_success (props <- lift (Js.destructure property args) ;; k props).
Proof.
  intros Hk w r. rewrite bind_step.
  destruct args as [props|]; cbv [Js.destructure lift ret throw]; [|discriminate].
  unfold result at 1, trace at 1. cbn [fst snd app]. apply Hk.
Qed.

Lemma closes_of_after_destructuring (property : string) (args : Arguments_)
  (k : list (string * Js.Value) -> @M W ToolResponse) :
  (forall props, closes_on_success_of (Js.lookup "tableName" props) (k props)) ->
  closes_on_success_of (tableName_in args)
    (props <- lift (Js.destructure property args) ;; k props).
Proof.
  intros Hk w r. rewrite bind_step.
  destruct args as [props|]; cbv [Js.destructure lift ret throw]; [|discriminate].
  unfold result at 1, trace at 1 2. cbn [fst snd app tableName_in]. apply Hk.
Qed.

(** X3: in the builds that open a client per call, [test_connection],
    [execute_query] and [create_table] return a success exactly when the
    last thing they did with the driver was an [end()] that went through;
    every error response leaves the run without one - after a rejected
    [connect()] or statement the client is not ended at all, and a rejected
    [end()] turns a call whose statements all went through into an error
    response.  [insert_data] builds its success text after the [end()]: its
    success follows an [end()] that went through, and after such an
    [end()] it returns a success whenever the table name can be printed. *)
Theorem per_call_success_is_a_closed_client
  (connectionString : string) (args : Arguments_) :
  (closes_on_success (PerCall.testConnection pg args)
   /\ closes_on_success (PerCall.executeQuery pg args)
   /\ closes_on_success (PerCall.createTable pg args)
   /\ closes_on_success_of (tableName_in args) (PerCall.insertData pg args))
  /\ (closes_on_success (EnvClient.testConnection pg connectionString)
      /\ closes_on_success (EnvClient.executeQuery pg connectionString args)
      /\ closes_on_success (EnvClient.createTable pg connectionString args)
      /\ closes_on_success_of (tableName_in args)
           (EnvClient.insertData pg connectionString args)).
Proof.
  split; (split; [|split; [|split]]);
    try (apply closes_after_destructuring; intros props);
    try (apply closes_of_after_destructuring; intros props).
  - apply OneClient_testConnection_closes.
  - apply OneClient_executeQuery_closes.
  - apply OneClient_createTable_closes.
  - apply OneClient_insertData_closes.
  - apply OneClient_testConnection_closes.
  - apply OneClient_executeQuery_closes.
  - apply OneClient_createTable_closes.
  - apply OneClient_insertData_closes.
Qed.

End OwnClients.

(** An empty batch for a table name that cannot be printed: the client is
    ended, and the response is an error. *)
Lemma success_text_fails_after_the_end :
  EnvClient.insertData Reference.pg Example.connectionString
    (Some [("tableName", Js.Obj [("toString", Js.Num (Js.integer 1))]);
           ("data", Js.Arr [])]) Reference.up
  = (inr (failed (Some (Js.Obj [])) "插入数据失败: " Js.not_primitive),
     Reference.up,
     [NewClient (EnvClient.config Example.connectionString) (Some 1);
      Connect 1 true; End_ 1 true]).
Proof. reflexivity. Qed.

(** ** The client-per-call builds when the server refuses the connection *)

Section Refused.

Context {W : Type} (pg : Driver W).

(** Present arguments are destructured without a driver call. *)
Lemma bind_destructured {A} (property : string) (props : list (string * Js.Value))
  (k : list (string * Js.Value) -> @M W A) (w : W) :
  (p <- lift (Js.destructure property (Some props)) ;; k p) w = k props w.
Proof.
  rewrite bind_step. cbv [Js.destructure lift ret].
  now destruct (k props w) as [[r w1] t1].
Qed.

Lemma OneClient_connect_rejected (config a b : Js.Value) (w w0 w1 : W)
  (client : Client) (e : Js.Exception) :
  new_Client pg config w = (inr client, w0) ->
  client_connect pg client w0 = (inl e, w1) ->
  OneClient.testConnection pg config w
  = (inr (failed (Some (Js.Obj [])) "数据库连接失败: " e), w1,
     [NewClient config (Some client); Connect client false])
  /\ OneClient.executeQuery pg config a w
     = (inr (failed (Some (Js.Obj [])) "查询执行失败: " e), w1,
        [NewClient config (Some client); Connect client false])
  /\ OneClient.createTable pg config a b w
     = (inr (failed (Some (Js.Obj [])) "创建表失败: " e), w1,
        [NewClient config (Some client); Connect client false])
  /\ OneClient.insertData pg config a b w
     = (inr (failed (Some (Js.Obj [])) "插入数据失败: " e), w1,
        [NewClient config (Some client); Connect client false]).
Proof.
  intros Hnew Hconnect.
  unfold OneClient.testConnection, OneClient.executeQuery, OneClient.createTable,
    OneClient.insertData.
  cbv beta iota zeta delta
    [bind ret try_catch construct_Client await_connect].
  rewrite Hnew, Hconnect. repeat split.
Qed.

(** X4: in the builds that open a client per call, when [connect()] is
    rejected every executor answers with an error response made of its own
    failure prefix and the message of the rejection (or of the words for an
    unknown error when what was thrown is no [Error]); it sends no
    statement and does not call [end()] on the client it built. *)
Theorem per_call_connect_rejected
  (connectionString : string) (props : list (string * Js.Value))
  (w w0 w1 v0 v1 : W) (client client' : Client) (e e' : Js.Exception) :
  new_Client pg (PerCall.config_of props) w = (inr client, w0) ->
  client_connect pg client w0 = (inl e, w1) ->
  new_Client pg (EnvClient.config connectionString) w = (inr client', v0) ->
  client_connect pg client' v0 = (inl e', v1) ->
  (PerCall.testConnection pg (Some props) w
   = (inr (failed (Some (Js.Obj [])) "数据库连接失败: " e), w1,
      [NewClient (PerCall.config_of props) (Some client); Connect client false])
   /\ PerCall.executeQuery pg (Some props) w
      = (inr (failed (Some (Js.Obj [])) "查询执行失败: " e), w1,
         [NewClient (PerCall.config_of props) (Some client); Connect client false])
   /\ PerCall.createTable pg (Some props) w
      = (inr (failed (Some (Js.Obj [])) "创建表失败: " e), w1,
         [NewClient (PerCall.config_of props) (Some client); Connect client false])
   /\ PerCall.insertData pg (Some props) w
      = (inr (failed (Some (Js.Obj [])) "插入数据失败: " e), w1,
         [NewClient (PerCall.config_of props) (Some client); Connect client false]))
  /\ (EnvClient.testConnection pg connectionString w
      = (inr (failed (Some (Js.Obj [])) "数据库连接失败: " e'), v1,
         [NewClient (EnvClient.config connectionString) (Some client');
          Connect client' false])
      /\ EnvClient.executeQuery pg connectionString (Some props) w
         = (inr (failed (Some (Js.Obj [])) "查询执行失败: " e'), v1,
            [NewClient (EnvClient.config connectionString) (Some client');
             Connect client' false])
      /\ EnvClient.createTable pg connectionString (Some props) w
         = (inr (failed (Some (Js.Obj [])) "创建表失败: " e'), v1,
            [NewClient (EnvClient.config connectionString) (Some client');
             Connect client' false])
      /\ EnvClient.insertData pg connectionString (Some props) w
         = (inr (failed (Some (Js.Obj [])) "插入数据失败: " e'), v1,
            [NewClient (EnvClient.config connectionString) (Some client');
             Connect client' false])).
Proof.
  intros Hnew Hconnect Hnew' Hconnect'.
  unfold PerCall.testConnection, PerCall.executeQuery, PerCall.createTable,
    PerCall.insertData, EnvClient.testConnection, EnvClient.executeQuery,
    EnvClient.createTable, EnvClient.insertData.
  rewrite !bind_destructured.
  split.
  - destruct (@OneClient_connect_rejected _ (Js.lookup "query" props) Js.Undefined _ _ _ _ _ Hnew Hconnect) as [Htest [Hquery _]].
    destruct (@OneClient_connect_rejected _ (Js.lookup "tableName" props) (Js.lookup "columns" props) _ _ _ _ _ Hnew Hconnect) as [_ [_ [Hcreate _]]].
    destruct (@OneClient_connect_rejected _ (Js.lookup "tableName" props) (Js.lookup "data" props) _ _ _ _ _ Hnew Hconnect) as [_ [_ [_ Hinsert]]].
    repeat split; assumption.
  - destruct (@OneClient_connect_rejected _ (Js.lookup "query" props) Js.Undefined _ _ _ _ _ Hnew' Hconnect') as [Htest [Hquery _]].
    destruct (@OneClient_connect_rejected _ (Js.lookup "tableName" props) (Js.lookup "columns" props) _ _ _ _ _ Hnew' Hconnect') as [_ [_ [Hcreate _]]].
    destruct (@OneClient_connect_rejected _ (Js.lookup "tableName" props) (Js.lookup "data" props) _ _ _ _ _ Hnew' Hconnect') as [_ [_ [_ Hinsert]]].
    repeat split; assumption.
Qed.

End Refused.

(** A server that is down, asked through every tool of the per-call
    builds. *)
Lemma per_call_connect_rejected_on_reference :
  PerCall.executeQuery Reference.pg
    (Some [("url", Js.Str "postgresql://localhost:5432/db");
           ("query", Js.Str "SELECT 1 AS one")]) Reference.down
  = (inr (failed (Some (Js.Obj [])) "查询执行失败: "
            (Js.Error "connect ECONNREFUSED 127.0.0.1:5432")),
     Reference.down,
     [NewClient (PerCall.config_of [("url", Js.Str "postgresql://localhost:5432/db");
                                    ("query", Js.Str "SELECT 1 AS one")]) (Some 1);
      Connect 1 false])
  /\ EnvClient.testConnection Reference.pg Example.connectionString Reference.down
     = (inr (failed (Some (Js.Obj [])) "数据库连接失败: "
               (Js.Error "connect ECONNREFUSED 127.0.0.1:5432")),
        Reference.down,
        [NewClient (EnvClient.config Example.connectionString) (Some 1);
         Connect 1 false]).
Proof.
  pose proof (@per_call_connect_rejected _ Reference.pg Example.connectionString
                [("url", Js.Str "postgresql://localhost:5432/db");
                 ("query", Js.Str "SELECT 1 AS one")]
                Reference.down Reference.down Reference.down Reference.down
                Reference.down 1 1 _ _ eq_refl eq_refl eq_refl eq_refl)
    as [[_ [Hquery _]] [Htest _]].
  split; [exact Hquery | exact Htest].
Defined.


(** ** What a response can be *)

Section Responses.

Context {W : Type} (pg : Driver W).

Lemma ret_responds_as (meta : option Js.Value) (prefix : string) (r : ToolResponse) :
  from_tool meta prefix r -> responds_as meta prefix (@ret W _ r).
Proof.
  intros Hr w r' Hres. unfold ret, result in Hres. simpl in Hres.
  now inversion Hres; subst.
Qed.

Lemma bind_responds_as {A} (meta : option Js.Value) (prefix : string)
  (m : @M W A) (k : A -> M ToolResponse) :
  (forall a, responds_as meta prefix (k a)) -> responds_as meta prefix (bind m k).
Proof.
  intros Hk w r. rewrite bind_step.
  destruct (m w) as [[[e|a] w1] t1]; [discriminate|]. apply Hk.
Qed.

Lemma try_catch_responds_as (meta : option Js.Value) (prefix : string)
  (body : @M W ToolResponse) handler :
  responds_as meta prefix body ->
  (forall e, responds_as meta prefix (handler e)) ->
  responds_as meta prefix (try_catch body handler).
Proof.
  intros Hbody Hhandler w r. unfold try_catch, result.
  specialize (Hbody w r). unfold result in Hbody.
  destruct (body w) as [[[e|a] w1] t1]; simpl in *; [|exact Hbody].
  specialize (Hhandler e w1 r). unfold result in Hhandler.
  destruct (handler e w1) as [[r2 w2] t2]. exact Hhandler.
Qed.

Lemma try_finally_responds_as (meta : option Js.Value) (prefix : string)
  (body : @M W ToolResponse) cleanup :
  responds_as meta prefix body -> responds_as meta prefix (try_finally body cleanup).
Proof.
  intros Hbody w r. unfold try_finally, result.
  specialize (Hbody w r). unfold result in Hbody.
  destruct (body w) as [[r1 w1] t1].
  destruct (cleanup w1) as [[[e|u] w2] t2]; simpl in *; [discriminate|exact Hbody].
Qed.

Ltac responds_as :=
  repeat first
    [ apply ret_responds_as;
      first [ left; split; reflexivity | right; eexists; reflexivity ]
    | apply try_finally_responds_as
    | apply try_catch_responds_as; [|intros ?]
    | apply bind_responds_as; intros ? ].

Lemma OneClient_responds_as (config a b : Js.Value) :
  responds_as (Some (Js.Obj [])) "数据库连接失败: " (OneClient.testConnection pg config)
  /\ responds_as (Some (Js.Obj [])) "查询执行失败: " (OneClient.executeQuery pg config a)
  /\ responds_as (Some (Js.Obj [])) "创建表失败: " (OneClient.createTable pg config a b)
  /\ responds_as (Some (Js.Obj [])) "插入数据失败: " (OneClient.insertData pg config a b).
Proof.
  unfold OneClient.testConnection, OneClient.executeQuery, OneClient.createTable,
    OneClient.insertData.
  split; [|split; [|split]]; responds_as.
Qed.

(** X5: a response is flagged as an error exactly when it comes from the
    [catch] block of its executor: whatever response an executor returns is
    either a success, with no [isError] at all, or [isError: true] with one
    text made of the failure prefix of that executor and the message of
    what was caught; [isError] is never [false]; the four-tool builds
    attach an empty [_meta], the build with the [query] tool none. *)
Theorem responses_come_in_two_forms (connectionString : string) (args : Arguments_) :
  (responds_as (Some (Js.Obj [])) "数据库连接失败: " (Pooled.testConnection pg connectionString)
   /\ responds_as (Some (Js.Obj [])) "查询执行失败: " (Pooled.executeQuery pg args)
   /\ responds_as (Some (Js.Obj [])) "创建表失败: " (Pooled.createTable pg args)
   /\ responds_as (Some (Js.Obj [])) "插入数据失败: " (Pooled.insertData pg args))
  /\ (responds_as (Some (Js.Obj [])) "数据库连接失败: "
        (EnvClient.testConnection pg connectionString)
      /\ responds_as (Some (Js.Obj [])) "查询执行失败: "
           (EnvClient.executeQuery pg connectionString args)
      /\ responds_as (Some (Js.Obj [])) "创建表失败: "
           (EnvClient.createTable pg connectionString args)
      /\ responds_as (Some (Js.Obj [])) "插入数据失败: "
           (EnvClient.insertData pg connectionString args))
  /\ (responds_as (Some (Js.Obj [])) "数据库连接失败: " (PerCall.testConnection pg args)
      /\ responds_as (Some (Js.Obj [])) "查询执行失败: " (PerCall.executeQuery pg args)
      /\ responds_as (Some (Js.Obj [])) "创建表失败: " (PerCall.createTable pg args)
      /\ responds_as (Some (Js.Obj [])) "插入数据失败: " (PerCall.insertData pg args))
  /\ (responds_as None "数据库连接失败: " (PooledQuery.testConnection pg connectionString)
      /\ responds_as None "查询执行失败: " (PooledQuery.executeQuery pg args)
      /\ responds_as None "创建表失败: " (PooledQuery.createTable pg args)).
Proof.
  split; [|split; [|split]].
  - unfold Pooled.testConnection, Pooled.executeQuery, Pooled.createTable,
      Pooled.insertData.
    split; [|split; [|split]]; responds_as.
  - unfold EnvClient.testConnection, EnvClient.executeQuery, EnvClient.createTable,
      EnvClient.insertData.
    split; [|split; [|split]].
    + apply (proj1 (OneClient_responds_as _ Js.Undefined Js.Undefined)).
    + apply bind_responds_as; intros props.
      apply (proj1 (proj2 (OneClient_responds_as _ _ Js.Undefined))).
    + apply bind_responds_as; intros props.
      apply (proj1 (proj2 (proj2 (OneClient_responds_as _ _ _)))).
    + apply bind_responds_as; intros props.
      apply (proj2 (proj2 (proj2 (OneClient_responds_as _ _ _)))).
  - unfold PerCall.testConnection, PerCall.executeQuery, PerCall.createTable,
      PerCall.insertData.
    split; [|split; [|split]]; apply bind_responds_as; intros props.
    + apply (proj1 (OneClient_responds_as _ Js.Undefined Js.Undefined)).
    + apply (proj1 (proj2 (OneClient_responds_as _ _ Js.Undefined))).
    + apply (proj1 (proj2 (proj2 (OneClient_responds_as _ _ _)))).
    + apply (proj2 (proj2 (proj2 (OneClient_responds_as _ _ _)))).
  - unfold PooledQuery.testConnection, PooledQuery.executeQuery,
      PooledQuery.createTable.
    split; [|split]; responds_as.
Qed.

End Responses.

(** ** Testing the connection *)

Section Probe.

Context {W : Type} (pg : Driver W).

Lemma OneClient_testConnection_lifecycle (config : Js.Value) (w : W) :
  forallb lifecycle (trace (OneClient.testConnection pg config w)) = true.
Proof.
  unfold OneClient.testConnection. step_handler.
  destruct (new_Client pg config w) as [[e|c] w0]; [reflexivity|].
  destruct (client_connect pg c w0) as [[e|u] w1]; [reflexivity|].
  destruct (client_end pg c w1) as [[e|u'] w2]; reflexivity.
Qed.

(** X6: [test_connection] does not go through the pool, in the pooled
    builds either: in every build and for every driver it only builds a
    client of its own, connects it and ends it - no statement is sent,
    nothing is acquired from the pool or released to it - and in the pooled
    builds too it answers with a success exactly when its last driver call
    is an [end()] that went through. *)
Theorem test_connection_opens_its_own_client
  (connectionString : string) (args : Arguments_) (w : W) :
  forallb lifecycle (trace (Pooled.testConnection pg connectionString w)) = true
  /\ forallb lifecycle (trace (PooledQuery.testConnection pg connectionString w)) = true
  /\ forallb lifecycle (trace (EnvClient.testConnection pg connectionString w)) = true
  /\ forallb lifecycle (trace (PerCall.testConnection pg args w)) = true
  /\ closes_on_success (Pooled.testConnection pg connectionString)
  /\ closes_on_success (PooledQuery.testConnection pg connectionString).
Proof.
  split; [|split; [|split; [|split; [|split]]]].
  - apply (OneClient_testConnection_lifecycle
             (Js.Obj [("connectionString", Js.Str connectionString)])).
  - unfold PooledQuery.testConnection. step_handler.
    destruct (new_Client pg _ w) as [[e|c] w0]; [reflexivity|].
    destruct (client_connect pg c w0) as [[e|u] w1]; [reflexivity|].
    destruct (client_end pg c w1) as [[e|u'] w2]; reflexivity.
  - apply OneClient_testConnection_lifecycle.
  - unfold PerCall.testConnection. rewrite bind_step.
    destruct args as [props|]; cbv [Js.destructure lift ret throw]; [|reflexivity].
    unfold trace at 1. cbn [snd app]. apply OneClient_testConnection_lifecycle.
  - apply (OneClient_testConnection_closes pg
             (Js.Obj [("connectionString", Js.Str connectionString)])).
  - intros v. unfold PooledQuery.testConnection. step_handler.
    destruct (new_Client pg _ v) as [[e|c] w0]; [discriminate|].
    destruct (client_connect pg c w0) as [[e|u] w1];
      [intros r Hr; inversion Hr; subst r; cbn; split; discriminate|].
    destruct (client_end pg c w1) as [[e|u'] w2];
      intros r Hr; inversion Hr; subst r; cbn; split; intros H;
      solve [discriminate H | reflexivity].
Qed.

End Probe.

(** ** The response of a read-only query *)

Section QueryResponse.

Context {W : Type} (pg : Driver W).

(** X7: once the connection is acquired, the response of [execute_query]
    (and of [query]) is decided by two driver calls only: if
    [BEGIN TRANSACTION READ ONLY] is rejected, its message is reported
    under the prefix of a failed query; else if the statement is rejected,
    its message is; else the response is a success whose text is
    [JSON.stringify(result.rows, null, 2)]: the rows as JSON text when the
    driver resolved with one result, no text when it resolved with the
    results of several statements.  Whether the [ROLLBACK] went through
    never shows in the response, and nothing is thrown. *)
Theorem executeQuery_response_is_decided_by_begin_and_statement
  (props : list (string * Js.Value)) (w w1 : W) (client : Client) :
  pool_connect pg w = (inr client, w1) ->
  result (Pooled.executeQuery pg (Some props) w)
  = inr (match client_query pg client (Js.Str "BEGIN TRANSACTION READ ONLY") [] w1 with
         | (inl e, _) => failed (Some (Js.Obj [])) "查询执行失败: " e
         | (inr _, w2) =>
             match client_query pg client (Js.lookup "query" props) [] w2 with
             | (inl e, _) => failed (Some (Js.Obj [])) "查询执行失败: " e
             | (inr r, _) => answered (Some (Js.Obj [])) r
             end
         end)
  /\ result (PooledQuery.executeQuery pg (Some props) w)
     = inr (match client_query pg client (Js.Str "BEGIN TRANSACTION READ ONLY") [] w1 with
            | (inl e, _) => failed None "查询执行失败: " e
            | (inr _, w2) =>
                match client_query pg client (Js.lookup "sql" props) [] w2 with
                | (inl e, _) => failed None "查询执行失败: " e
                | (inr r, _) => answered None r
                end
            end).
Proof.
  intros Hconnect.
  unfold Pooled.executeQuery, PooledQuery.executeQuery.
  rewrite !bind_destructured. step_handler. rewrite Hconnect.
  destruct (client_query pg client (Js.Str "BEGIN TRANSACTION READ ONLY") [] w1)
    as [[e|r0] w2].
  - destruct (client_query pg client (Js.Str "ROLLBACK") [] w2) as [[e2|r2] w3];
      split; reflexivity.
  - split.
    + destruct (client_query pg client (Js.lookup "query" props) [] w2)
        as [[e1|r1] w3];
        destruct (client_query pg client (Js.Str "ROLLBACK") [] w3) as [[e2|r2] w4];
        rewrite ?stringify_rows_text; reflexivity.
    + destruct (client_query pg client (Js.lookup "sql" props) [] w2)
        as [[e1|r1] w3];
        destruct (client_query pg client (Js.Str "ROLLBACK") [] w3) as [[e2|r2] w4];
        rewrite ?stringify_rows_text; reflexivity.
Qed.

End QueryResponse.

(** A write through [execute_query] on the reference server: the message
    of the refusal under the prefix of a failed query. *)
Lemma executeQuery_response_on_reference :
  result (Pooled.executeQuery Reference.pg
            (Some [("query", Js.Str "DROP TABLE t"); ("sql", Js.Str "DROP TABLE t")])
            Reference.up)
  = inr (failed (Some (Js.Obj [])) "查询执行失败: "
           (Js.Error "cannot execute statement in a read-only transaction"))
  /\ result (PooledQuery.executeQuery Reference.pg
               (Some [("query", Js.Str "DROP TABLE t"); ("sql", Js.Str "DROP TABLE t")])
               Reference.up)
     = inr (failed None "查询执行失败: "
              (Js.Error "cannot execute statement in a read-only transaction")).
Proof.
  exact (@executeQuery_response_is_decided_by_begin_and_statement _ Reference.pg
           [("query", Js.Str "DROP TABLE t"); ("sql", Js.Str "DROP TABLE t")]
           Reference.up Reference.up 0 eq_refl).
Defined.

(** ** Creating a table: rejections and malformed columns *)

Section CreateTable.

Context {W : Type} (pg : Driver W).

(** The definition of one column: a text, or a [TypeError] for an entry
    that is [null] or [undefined] or whose name or type cannot be
    printed. *)
Lemma columnDefinition_cases (col : Js.Value) :
  if unprintable_column col
  then exists message, Sql.columnDefinition col = inl (Js.TypeError message)
  else exists text, Sql.columnDefinition col = inr (Js.Str text).
Proof.
  destruct col as [| |b|x|s|items|props]; cbn [unprintable_column];
    try (eexists; reflexivity).
  unfold Sql.columnDefinition, Js.member, Js.to_string.
  cbv beta iota delta [Sql.and_then].
  destruct (Js.printable (Js.lookup "name" props));
    destruct (Js.printable (Js.lookup "type" props));
    cbn [andb negb]; eexists; reflexivity.
Qed.

Lemma map_throwing_columns (items : list Js.Value) :
  if existsb unprintable_column items
  then exists message,
      Sql.map_throwing Sql.columnDefinition items = inl (Js.TypeError message)
  else exists texts,
      Sql.map_throwing Sql.columnDefinition items = inr (map Js.Str texts).
Proof.
  induction items as [|col items IH]; [exists []; reflexivity|].
  cbn [existsb Sql.map_throwing].
  pose proof (columnDefinition_cases col) as Hcol.
  destruct (unprintable_column col); cbn [orb].
  - destruct Hcol as [message Hmessage]. rewrite Hmessage. now exists message.
  - destruct Hcol as [text Htext]. rewrite Htext.
    cbv beta iota delta [Sql.and_then].
    destruct (existsb unprintable_column items).
    + destruct IH as [message Hmessage]. rewrite Hmessage. now exists message.
    + destruct IH as [texts Htexts]. rewrite Htexts. now exists (text :: texts).
Qed.

(** No statement is built from malformed arguments, one is from any
    other. *)
Lemma createTableQuery_malformed (tableName columns : Js.Value) :
  if malformed tableName columns
  then exists message, Sql.createTableQuery tableName columns = inl (Js.TypeError message)
  else exists statement, Sql.createTableQuery tableName columns = inr statement.
Proof.
  unfold Sql.createTableQuery, Sql.columnDefinitions.
  destruct columns as [| | | | |items|]; cbn [malformed Js.array_items Sql.and_then];
    try (eexists; reflexivity).
  pose proof (map_throwing_columns items) as Hitems.
  destruct (existsb unprintable_column items); cbn [orb].
  - destruct Hitems as [message Hmessage]. rewrite Hmessage. now exists message.
  - destruct Hitems as [texts Htexts]. rewrite Htexts.
    cbv beta iota delta [Sql.and_then]. rewrite join_strings.
    unfold Js.to_string. destruct (Js.printable tableName); cbn [negb];
      eexists; reflexivity.
Qed.

(** X8: [create_table] sends a statement exactly when [columns] is an
    array without a [null] or [undefined] entry and the table name and
    the name and type of every entry can be printed.  From any other
    arguments no statement is built: once the connection is acquired the
    call answers with an error response that carries the message of the
    [TypeError] and releases the connection, and the driver sees no
    statement.  Otherwise exactly one statement is sent, and the
    connection is released after it. *)
Theorem createTable_sends_nothing_from_malformed_columns
  (props : list (string * Js.Value)) (w w1 : W) (client : Client) :
  pool_connect pg w = (inr client, w1) ->
  if malformed (Js.lookup "tableName" props) (Js.lookup "columns" props)
  then exists message,
      Pooled.createTable pg (Some props) w
      = (inr (failed (Some (Js.Obj [])) "创建表失败: " (Js.TypeError message)),
         client_release pg client w1,
         [PoolConnect (Some client); Release client])
  else exists statement ok,
      trace (Pooled.createTable pg (Some props) w)
      = [PoolConnect (Some client); Query client (Js.Str statement) [] ok;
         Release client].
Proof.
  intros Hconnect.
  pose proof (createTableQuery_malformed (Js.lookup "tableName" props)
                (Js.lookup "columns" props)) as Hbuilt.
  unfold Pooled.createTable. rewrite bind_destructured.
  destruct (malformed (Js.lookup "tableName" props) (Js.lookup "columns" props)).
  - destruct Hbuilt as [message Hmessage]. exists message.
    rewrite Hmessage. step_handler. rewrite Hconnect. reflexivity.
  - destruct Hbuilt as [statement Hstatement]. exists statement.
    rewrite Hstatement, (to_string_printed _ (createTableQuery_prints _ _ Hstatement)).
    step_handler. rewrite Hconnect.
    destruct (client_query pg client (Js.Str statement) [] w1) as [[e|r] w2];
      eexists; reflexivity.
Qed.

(** X9: when the driver rejects the [CREATE TABLE] statement (a table that
    exists, a type it does not know), [create_table] answers with an error
    response made of the prefix of a failed creation and the driver's
    message; the pooled build has released the connection by then, the
    per-call build leaves the client it connected without [end()]. *)
Theorem createTable_reports_the_rejection
  (tableName : string) (props : list (string * Js.Value))
  (columns : list ColumnDefinition) (w : W) :
  Js.lookup "tableName" props = Js.Str tableName ->
  Js.lookup "columns" props = Js.Arr (map column_value columns) ->
  (forall client w1 w2 e,
      pool_connect pg w = (inr client, w1) ->
      client_query pg client (Js.Str (create_table_statement tableName columns)) [] w1
      = (inl e, w2) ->
      Pooled.createTable pg (Some props) w
      = (inr (failed (Some (Js.Obj [])) "创建表失败: " e),
         client_release pg client w2,
         [PoolConnect (Some client);
          Query client (Js.Str (create_table_statement tableName columns)) [] false;
          Release client]))
  /\ (forall client w0 w1 w2 e,
         new_Client pg (PerCall.config_of props) w = (inr client, w0) ->
         client_connect pg client w0 = (inr tt, w1) ->
         client_query pg client (Js.Str (create_table_statement tableName columns)) [] w1
         = (inl e, w2) ->
         PerCall.createTable pg (Some props) w
         = (inr (failed (Some (Js.Obj [])) "创建表失败: " e),
            w2,
            [NewClient (PerCall.config_of props) (Some client);
             Connect client true;
             Query client (Js.Str (create_table_statement tableName columns)) [] false])).
Proof.
  intros Hname Hcolumns.
  unfold Pooled.createTable, PerCall.createTable, OneClient.createTable.
  rewrite !bind_destructured.
  rewrite Hcolumns, Hname, (createTableQuery_of_columns (Js.Str tableName) columns eq_refl).
  cbn [Js.printed].
  split.
  - intros client w1 w2 e Hpool Hquery. step_handler.
    rewrite Hpool, Hquery. reflexivity.
  - intros client w0 w1 w2 e Hnew Hconnect Hquery. step_handler.
    rewrite Hnew, Hconnect, Hquery. reflexivity.
Qed.

End CreateTable.

(** The same table created twice on the reference server: the second call
    is an error that names the table. *)
Lemma createTable_twice_on_reference :
  Pooled.createTable Reference.pg (Some Example.create_t1)
    (Reference.holding ["CREATE TABLE t1 (id integer, v text)"])
  = (inr (failed (Some (Js.Obj [])) "创建表失败: "
            (Js.Error "relation t1 already exists")),
     Reference.holding ["CREATE TABLE t1 (id integer, v text)"],
     [PoolConnect (Some 0);
      Query 0 (Js.Str "CREATE TABLE t1 (id integer, v text)") [] false;
      Release 0]).
Proof.
  exact (proj1 (@createTable_reports_the_rejection _ Reference.pg "t1"
                  Example.create_t1 Example.columns
                  (Reference.holding ["CREATE TABLE t1 (id integer, v text)"])
                  eq_refl eq_refl)
           0 _ _ _ eq_refl eq_refl).
Defined.

(** A column whose name is an object that owns a [toString], on the
    reference server: nothing is sent. *)
Lemma createTable_malformed_on_reference :
  exists message,
    Pooled.createTable Reference.pg
      (Some [("tableName", Js.Str "t1");
             ("columns",
              Js.Arr [Js.Obj [("name", Js.Obj [("toString", Js.Num (Js.integer 1))]);
                              ("type", Js.Str "integer")]])]) Reference.up
    = (inr (failed (Some (Js.Obj [])) "创建表失败: " (Js.TypeError message)),
       Reference.up,
       [PoolConnect (Some 0); Release 0]).
Proof.
  exact (@createTable_sends_nothing_from_malformed_columns _ Reference.pg
           [("tableName", Js.Str "t1");
            ("columns",
             Js.Arr [Js.Obj [("name", Js.Obj [("toString", Js.Num (Js.integer 1))]);
                             ("type", Js.Str "integer")]])]
           Reference.up Reference.up 0 eq_refl).
Defined.

(** ** Inserting a batch: what is sent in every case *)

Section Prefix.

Context {W : Type} (pg : Driver W).

(** The loop over records whose values can be printed ends in one of two
    ways: every statement was sent and accepted, or the statements of the
    first records were accepted, the next one was rejected, and nothing was
    sent after it. *)
Lemma insert_each_outcome (client : Client) (tableName : Js.Value)
  (records : list (list (string * Js.Value))) (w : W) :
  Js.printable tableName = true ->
  forallb printable_record records = true ->
  (exists w',
      Pooled.insert_each pg client tableName (map Js.Obj records) w
      = (inr tt, w', map (accepted client) (insert_statements tableName records)))
  \/ (exists before s after e w',
         insert_statements tableName records = (before ++ s :: after)%list
         /\ Pooled.insert_each pg client tableName (map Js.Obj records) w
            = (inl e, w',
               (map (accepted client) before
                ++ [Query client (Js.Str s) [] false])%list)).
Proof.
  intros Hname. revert w.
  induction records as [|record records IH]; intros w Hrecords.
  - left. now exists w.
  - cbn [forallb] in Hrecords. apply andb_true_iff in Hrecords.
    destruct Hrecords as [Hrecord Hrecords].
    cbn [map Pooled.insert_each insert_statements].
    rewrite bind_step, (insertQuery_of_record _ _ Hname Hrecord).
    cbv [lift ret]. rewrite bind_step. unfold await_query.
    destruct (client_query pg client
                (Js.Str (insert_statement (Js.printed tableName) record)) [] w)
      as [[e|r] w1].
    + right. exists [], (insert_statement (Js.printed tableName) record),
        (map (insert_statement (Js.printed tableName)) records), e, w1.
      split; reflexivity.
    + destruct (IH w1 Hrecords)
        as [[w' Hall]|[before [s [after [e [w' [Hsplit Hrejected]]]]]]].
      * left. exists w'. rewrite Hall. reflexivity.
      * right.
        exists (insert_statement (Js.printed tableName) record :: before),
          s, after, e, w'.
        split.
        -- unfold insert_statements in Hsplit. now rewrite Hsplit.
        -- rewrite Hrejected. reflexivity.
Qed.

(** X10: for every driver, once the connection is there, a batch of
    records whose values can be printed ends in one of these ways and in
    no other.  Either the statement of every record was sent, in the order
    of the records, and accepted: the response is then the success that
    reports the count (in the build with a client per call, if [end()]
    went through; the error of the [end()] otherwise).  Or the statements
    of the first records were accepted and the next one was rejected:
    nothing is sent for the records after it, no statement is sent twice or
    out of order, and the response is an error. *)
Theorem insertData_sends_a_prefix_of_the_batch
  (connectionString tableName : string) (props : list (string * Js.Value))
  (records : list (list (string * Js.Value))) (w : W) :
  Js.lookup "tableName" props = Js.Str tableName ->
  Js.lookup "data" props = Js.Arr (map Js.Obj records) ->
  forallb printable_record records = true ->
  (forall client w1,
      pool_connect pg w = (inr client, w1) ->
      (exists w',
          Pooled.insertData pg (Some props) w
          = (inr (inserted (Some (Js.Obj [])) (Js.Str tableName) (List.length records)),
             w',
             (PoolConnect (Some client)
              :: map (accepted client) (map (insert_statement tableName) records)
              ++ [Release client])%list))
      \/ (exists before s after e w',
             map (insert_statement tableName) records = (before ++ s :: after)%list
             /\ Pooled.insertData pg (Some props) w
                = (inr (not_inserted (Some (Js.Obj [])) e),
                   w',
                   (PoolConnect (Some client)
                    :: map (accepted client) before
                    ++ [Query client (Js.Str s) [] false; Release client])%list)))
  /\ (forall client w0 w1,
         new_Client pg (EnvClient.config connectionString) w = (inr client, w0) ->
         client_connect pg client w0 = (inr tt, w1) ->
         (exists w',
             EnvClient.insertData pg connectionString (Some props) w
             = (inr (inserted (Some (Js.Obj [])) (Js.Str tableName)
                       (List.length records)),
                w',
                (NewClient (EnvClient.config connectionString) (Some client)
                 :: Connect client true
                 :: map (accepted client) (map (insert_statement tableName) records)
                 ++ [End_ client true])%list))
         \/ (exists e w',
                EnvClient.insertData pg connectionString (Some props) w
                = (inr (not_inserted (Some (Js.Obj [])) e),
                   w',
                   (NewClient (EnvClient.config connectionString) (Some client)
                    :: Connect client true
                    :: map (accepted client) (map (insert_statement tableName) records)
                    ++ [End_ client false])%list))
         \/ (exists before s after e w',
                map (insert_statement tableName) records = (before ++ s :: after)%list
                /\ EnvClient.insertData pg connectionString (Some props) w
                   = (inr (not_inserted (Some (Js.Obj [])) e),
                      w',
                      (NewClient (EnvClient.config connectionString) (Some client)
                       :: Connect client true
                       :: map (accepted client) before
                       ++ [Query client (Js.Str s) [] false])%list))).
Proof.
  intros Hname Hdata Hrecords. split.
  - intros client w1 Hconnect.
    unfold Pooled.insertData. cbv beta iota zeta delta [bind lift Js.destructure ret].
    rewrite Hdata, Hname, (to_string_printed (Js.Str tableName) eq_refl).
    destruct (insert_each_outcome client (Js.Str tableName) records w1 eq_refl Hrecords)
      as [[w' Hall]|[before [s [after [e [w' [Hsplit Hrejected]]]]]]].
    + left. exists (client_release pg client w').
      step_handler. rewrite Hconnect, Hall.
      rewrite to_string_count, length_map, !app_nil_r. reflexivity.
    + right. exists before, s, after, e, (client_release pg client w').
      split; [exact Hsplit|].
      step_handler. rewrite Hconnect, Hrejected.
      cbn [app]. rewrite <- ?app_assoc. reflexivity.
  - intros client w0 w1 Hnew Hconnect.
    rewrite EnvClient_insertData_unfolds, Hdata, Hname. unfold OneClient.insertData.
    rewrite (to_string_printed (Js.Str tableName) eq_refl).
    destruct (insert_each_outcome client (Js.Str tableName) records w1 eq_refl Hrecords)
      as [[w' Hall]|[before [s [after [e [w' [Hsplit Hrejected]]]]]]].
    + destruct (client_end pg client w') as [[e|u] w''] eqn:Hend.
      * right. left. exists e, w''.
        step_handler. rewrite Hnew, Hconnect, Hall, Hend.
        cbn [app]. rewrite ?app_nil_r. reflexivity.
      * left. exists w''.
        step_handler. rewrite Hnew, Hconnect, Hall, Hend.
        rewrite to_string_count, length_map. cbn [app]. rewrite ?app_nil_r.
        reflexivity.
    + right. right. exists before, s, after, e, w'.
      split; [exact Hsplit|].
      step_handler. rewrite Hnew, Hconnect, Hrejected.
      cbn [app]. rewrite ?app_nil_r. reflexivity.
Qed.

End Prefix.

(** The batch with a rejected record on the reference server: the first
    statement is accepted, the second rejected, the third never sent. *)
Lemma insertData_prefix_on_reference :
  (exists w',
      Pooled.insertData Reference.pg (Some Example.insert_three) Reference.up
      = (inr (inserted (Some (Js.Obj [])) (Js.Str "t") 3),
         w',
         [PoolConnect (Some 0);
          accepted 0 "INSERT INTO t (a) VALUES (1)";
          accepted 0 "INSERT INTO t (a) VALUES ()";
          accepted 0 "INSERT INTO t (a) VALUES (3)";
          Release 0]))
  \/ (exists before s after e w',
         ["INSERT INTO t (a) VALUES (1)"; "INSERT INTO t (a) VALUES ()";
          "INSERT INTO t (a) VALUES (3)"] = (before ++ s :: after)%list
         /\ Pooled.insertData Reference.pg (Some Example.insert_three) Reference.up
            = (inr (not_inserted (Some (Js.Obj [])) e),
               w',
               (PoolConnect (Some 0)
                :: map (accepted 0) before
                ++ [Query 0 (Js.Str s) [] false; Release 0])%list)).
Proof.
  exact (proj1 (@insertData_sends_a_prefix_of_the_batch _ Reference.pg
                  Example.connectionString "t" Example.insert_three
                  [[("a", Js.Num (Js.integer 1))]; [("a", Js.Null)];
                   [("a", Js.Num (Js.integer 3))]]
                  Reference.up eq_refl eq_refl eq_refl)
           0 Reference.up eq_refl).
Defined.

Section NullRecord.

Context {W : Type} (pg : Driver W).

(** A record that is [null] or [undefined] stops the loop before any
    statement is built for it. *)
Lemma insert_each_nullish (client : Client) (tableName record : Js.Value)
  (before : list (list (string * Js.Value))) (after : list Js.Value) (w w2 : W) :
  nullish record = true ->
  Js.printable tableName = true ->
  forallb printable_record before = true ->
  accepts_all pg client (insert_statements tableName before) w = Some w2 ->
  Pooled.insert_each pg client tableName (map Js.Obj before ++ record :: after)%list w
  = (inl (Js.TypeError "Cannot convert undefined or null to object"), w2,
     map (accepted client) (insert_statements tableName before)).
Proof.
  intros Hnull Hname. revert w.
  induction before as [|first before IH]; intros w Hbefore Haccepts.
  - simpl in Haccepts. inversion Haccepts; subst.
    cbn [app map Pooled.insert_each]. rewrite bind_step.
    destruct record; try discriminate; reflexivity.
  - cbn [forallb] in Hbefore. apply andb_true_iff in Hbefore.
    destruct Hbefore as [Hfirst Hbefore].
    cbn [insert_statements map accepts_all] in Haccepts.
    cbn [app map Pooled.insert_each].
    rewrite bind_step, (insertQuery_of_record _ _ Hname Hfirst).
    cbv [lift ret]. rewrite bind_step. unfold await_query.
    destruct (client_query pg client
                (Js.Str (insert_statement (Js.printed tableName) first)) [] w)
      as [[e1|r] w1]; [discriminate|].
    fold (insert_statements tableName before) in Haccepts.
    rewrite (IH w1 Hbefore Haccepts). reflexivity.
Qed.

(** X11: a [null] (or [undefined]) record in the batch of [insert_data]
    ends the call there: the statements of the records before it were sent
    and stay applied, no statement is sent for it or for the records after
    it, and the response is the error of a failed insertion with the
    message of a [TypeError]; the pooled build releases the connection.
    The table name and the values of the records before it are values that
    can be printed. *)
Theorem insertData_stops_at_a_null_record
  (props : list (string * Js.Value)) (record : Js.Value)
  (before : list (list (string * Js.Value))) (after : list Js.Value)
  (w w1 w2 : W) (client : Client) :
  nullish record = true ->
  Js.lookup "data" props = Js.Arr (map Js.Obj before ++ record :: after)%list ->
  Js.printable (Js.lookup "tableName" props) = true ->
  forallb printable_record before = true ->
  pool_connect pg w = (inr client, w1) ->
  accepts_all pg client (insert_statements (Js.lookup "tableName" props) before) w1
  = Some w2 ->
  exists message,
    Pooled.insertData pg (Some props) w
    = (inr (failed (Some (Js.Obj [])) "插入数据失败: " (Js.TypeError message)),
       client_release pg client w2,
       (PoolConnect (Some client)
        :: map (accepted client)
             (insert_statements (Js.lookup "tableName" props) before)
        ++ [Release client])%list).
Proof.
  intros Hnull Hdata Hname Hbefore Hconnect Haccepts. eexists.
  unfold Pooled.insertData. rewrite bind_destructured, Hdata.
  step_handler. rewrite Hconnect.
  rewrite (insert_each_nullish client _ record before after w1 Hnull Hname Hbefore
             Haccepts).
  cbn [app]. rewrite ?app_nil_r. reflexivity.
Qed.

End NullRecord.

(** A batch whose second record is [null], on the reference server. *)
Lemma insertData_null_record_on_reference :
  exists message,
    Pooled.insertData Reference.pg
      (Some [("tableName", Js.Str "t");
             ("data", Js.Arr [Js.Obj [("a", Js.Num (Js.integer 1))]; Js.Null;
                              Js.Obj [("a", Js.Num (Js.integer 3))]])]) Reference.up
    = (inr (failed (Some (Js.Obj [])) "插入数据失败: " (Js.TypeError message)),
       Reference.holding ["INSERT INTO t (a) VALUES (1)"],
       [PoolConnect (Some 0);
        Query 0 (Js.Str "INSERT INTO t (a) VALUES (1)") [] true;
        Release 0]).
Proof.
  exact (@insertData_stops_at_a_null_record _ Reference.pg
           [("tableName", Js.Str "t");
            ("data", Js.Arr [Js.Obj [("a", Js.Num (Js.integer 1))]; Js.Null;
                             Js.Obj [("a", Js.Num (Js.integer 3))]])]
           Js.Null [[("a", Js.Num (Js.integer 1))]] [Js.Obj [("a", Js.Num (Js.integer 3))]]
           Reference.up Reference.up
           (Reference.holding ["INSERT INTO t (a) VALUES (1)"]) 0
           eq_refl eq_refl eq_refl eq_refl eq_refl eq_refl).
Defined.

(** ** The resource handlers: every path *)

Section ResourcePaths.

Context {W : Type} (pg : Driver W).

(** X12: [read_resource] never builds SQL from the URI: for every URI and
    every driver it sends, once the connection is acquired, one and the
    same statement text, with the third segment of the URI as its only
    bound value.  If the driver rejects the statement the handler throws
    what the driver rejected with - it has no [catch] - and has released
    the connection by then; otherwise it returns one content item that
    echoes the URI, with the MIME type [application/json] and the rows as
    JSON text (no text when the driver resolved with an array of
    results). *)
Theorem read_resource_binds_the_table_name (uri : string) (w : W) :
  match pool_connect pg w with
  | (inl e, w1) =>
      Pooled.read_resource pg uri w = (inl e, w1, [PoolConnect None])
  | (inr client, w1) =>
      match client_query pg client (Js.Str columns_query)
              [Pooled.tableName_of uri] w1 with
      | (inl e, w2) =>
          Pooled.read_resource pg uri w
          = (inl e, client_release pg client w2,
             [PoolConnect (Some client);
              Query client (Js.Str columns_query) [Pooled.tableName_of uri] false;
              Release client])
      | (inr r, w2) =>
          Pooled.read_resource pg uri w
          = (inr [{| contents_uri := uri;
                     contents_mimeType := "application/json";
                     contents_text := match r with
                                      | Result rows0 => Some (pretty_rows rows0)
                                      | Results _ => None
                                      end |}],
             client_release pg client w2,
             [PoolConnect (Some client);
              Query client (Js.Str columns_query) [Pooled.tableName_of uri] true;
              Release client])
      end
  end.
Proof.
  unfold Pooled.read_resource, columns_query. step_handler.
  destruct (pool_connect pg w) as [[e|client] w1]; [reflexivity|].
  destruct (client_query pg client _ [Pooled.tableName_of uri] w1) as [[e|r] w2];
    [reflexivity|].
  rewrite stringify_rows_text.
  destruct r as [rows0|each]; cbn [rows_text]; [now rewrite pretty_array|reflexivity].
Qed.

(** A row that cannot be listed: reading [table_name] of [null], or
    printing a table name that owns a [toString], throws a [TypeError]. *)
Lemma describe_unlistable (row : Js.Value) :
  unlistable row = true ->
  exists message, Pooled.describe row = inl (Js.TypeError message).
Proof.
  destruct row as [| |b|x|s|items|props]; cbn [unlistable]; intros Hrow;
    try discriminate; try (eexists; reflexivity).
  unfold Pooled.describe. cbn [Js.member Sql.and_then].
  apply negb_true_iff in Hrow. rewrite (to_string_unprintable _ Hrow).
  eexists. reflexivity.
Qed.

Lemma describe_listable (row : Js.Value) :
  unlistable row = false ->
  exists d, Pooled.describe row = inr d /\ mimeType d = "application/json".
Proof.
  destruct row as [| |b|x|s|items|props]; cbn [unlistable]; intros Hrow;
    try discriminate; try (eexists; split; reflexivity).
  unfold Pooled.describe. cbn [Js.member Sql.and_then].
  apply negb_false_iff in Hrow. rewrite (to_string_printed _ Hrow).
  eexists. split; reflexivity.
Qed.

Lemma describe_all_unlistable (rows0 : list Js.Value) :
  existsb unlistable rows0 = true ->
  exists message, Pooled.describe_all rows0 = inl (Js.TypeError message).
Proof.
  induction rows0 as [|row rows0 IH]; intros Hrows; [discriminate|].
  cbn [existsb] in Hrows. cbn [Pooled.describe_all].
  destruct (unlistable row) eqn:Hrow.
  - destruct (describe_unlistable row Hrow) as [message Hmessage].
    rewrite Hmessage. now exists message.
  - destruct (describe_listable row Hrow) as [d [Hd _]]. rewrite Hd.
    destruct (IH Hrows) as [message Hmessage].
    cbn [Sql.and_then]. rewrite Hmessage. now exists message.
Qed.

Lemma describe_all_listable (rows0 : list Js.Value) :
  existsb unlistable rows0 = false ->
  exists ds,
    Pooled.describe_all rows0 = inr ds
    /\ List.length ds = List.length rows0
    /\ Forall (fun d => mimeType d = "application/json") ds.
Proof.
  induction rows0 as [|row rows0 IH]; intros Hrows.
  - exists []. repeat split. constructor.
  - cbn [existsb] in Hrows. apply orb_false_iff in Hrows.
    destruct Hrows as [Hrow Hrest].
    destruct (IH Hrest) as [ds [Hds [Hlength Hmime]]].
    destruct (describe_listable row Hrow) as [d [Hd Hd_mime]].
    cbn [Pooled.describe_all]. rewrite Hd. cbn [Sql.and_then]. rewrite Hds.
    exists (d :: ds). split; [reflexivity|]. cbn [List.length].
    split; [now rewrite Hlength|]. now constructor.
Qed.

(** X13: [list_resources] on its other paths.  If the driver rejects the
    catalog statement, the handler throws what the driver rejected with;
    if a row of the answer is [null] or holds a table name that cannot be
    printed, or if the driver resolved with an array of results, it throws
    a [TypeError] and lists nothing; in all these cases the connection has
    been released by then.  Otherwise it returns exactly one descriptor per
    row - for no row, none - each with the MIME type [application/json]. *)
Theorem list_resources_on_every_path (w w1 : W) (client : Client) :
  pool_connect pg w = (inr client, w1) ->
  match client_query pg client (Js.Str tables_query) [] w1 with
  | (inl e, w2) =>
      Pooled.list_resources pg w
      = (inl e, client_release pg client w2,
         [PoolConnect (Some client); Query client (Js.Str tables_query) [] false;
          Release client])
  | (inr r, w2) =>
      world (Pooled.list_resources pg w) = client_release pg client w2
      /\ trace (Pooled.list_resources pg w)
         = [PoolConnect (Some client); Query client (Js.Str tables_query) [] true;
            Release client]
      /\ match r with
         | Result rows0 =>
             if existsb unlistable rows0
             then exists message,
                 result (Pooled.list_resources pg w) = inl (Js.TypeError message)
             else exists ds,
                 result (Pooled.list_resources pg w) = inr ds
                 /\ List.length ds = List.length rows0
                 /\ Forall (fun d => mimeType d = "application/json") ds
         | Results _ =>
             exists message,
               result (Pooled.list_resources pg w) = inl (Js.TypeError message)
         end
  end.
Proof.
  intros Hconnect. unfold Pooled.list_resources, tables_query. step_handler.
  rewrite Hconnect.
  destruct (client_query pg client _ [] w1) as [[e|r] w2]; [reflexivity|].
  destruct r as [rows0|each]; cbn [rows Js.array_items Sql.and_then].
  - destruct (existsb unlistable rows0) eqn:Hrows.
    + destruct (describe_all_unlistable rows0 Hrows) as [message Hmessage].
      rewrite Hmessage. repeat split. now exists message.
    + destruct (describe_all_listable rows0 Hrows) as [ds [Hds [Hlength Hmime]]].
      rewrite Hds. repeat split. now exists ds.
  - repeat split. eexists. reflexivity.
Qed.

End ResourcePaths.

(** The reference server with one table lists one resource. *)
Lemma list_resources_on_reference :
  world (Pooled.list_resources Reference.pg
           (Reference.holding ["CREATE TABLE t1 (id integer)"]))
  = Reference.holding ["CREATE TABLE t1 (id integer)"]
  /\ trace (Pooled.list_resources Reference.pg
              (Reference.holding ["CREATE TABLE t1 (id integer)"]))
     = [PoolConnect (Some 0); Query 0 (Js.Str tables_query) [] true; Release 0]
  /\ exists ds,
      result (Pooled.list_resources Reference.pg
                (Reference.holding ["CREATE TABLE t1 (id integer)"])) = inr ds
      /\ List.length ds = 1
      /\ Forall (fun d => mimeType d = "application/json") ds.
Proof.
  exact (@list_resources_on_every_path _ Reference.pg
           (Reference.holding ["CREATE TABLE t1 (id integer)"])
           (Reference.holding ["CREATE TABLE t1 (id integer)"]) 0 eq_refl).
Defined.

(** ** The table name a URI yields *)

Lemma free_of_append (separator c : ascii) (s : string) :
  free_of separator s = true -> Ascii.eqb c separator = false ->
  free_of separator (s ++ String c EmptyString) = true.
Proof.
  intros Hs Hc. induction s as [|d s IH]; cbn [append free_of] in *.
  - now rewrite Hc.
  - apply andb_true_iff in Hs. destruct Hs as [Hd Hrest].
    now rewrite Hd, (IH Hrest).
Qed.

Lemma split_from_free (separator : ascii) (s current : string) :
  free_of separator current = true ->
  Forall (fun segment => free_of separator segment = true)
    (Js.split_from separator current s).
Proof.
  revert current. induction s as [|c s IH]; intros current Hcurrent;
    cbn [Js.split_from].
  - now constructor.
  - destruct (Ascii.eqb c separator) eqn:Hc.
    + constructor; [assumption|]. now apply IH.
    + apply IH. now apply free_of_append.
Qed.

Lemma split_from_length (separator : ascii) (s current : string) :
  List.length (Js.split_from separator current s) = S (occurrences separator s).
Proof.
  revert current. induction s as [|c s IH]; intros current;
    cbn [Js.split_from occurrences]; [reflexivity|].
  destruct (Ascii.eqb c separator); cbn [List.length]; now rewrite IH.
Qed.

(** X14: the table name [read_resource] takes from a URI is its third
    segment: it never holds a slash, whatever the URI, and it is
    [undefined] exactly when the URI has fewer than two slashes - the
    handler then still runs its statement, with [undefined] as the bound
    value. *)
Theorem tableName_of_is_a_segment (uri : string) :
  (forall t, Pooled.tableName_of uri = Js.Str t -> free_of "/" t = true)
  /\ (Pooled.tableName_of uri = Js.Undefined <-> occurrences "/" uri < 2).
Proof.
  unfold Pooled.tableName_of, Js.at_index, Js.split.
  pose proof (split_from_free "/" uri EmptyString eq_refl) as Hfree.
  pose proof (split_from_length "/" uri EmptyString) as Hlength.
  destruct (nth_error (Js.split_from "/" EmptyString uri) 2) as [t|] eqn:Hnth.
  - split.
    + intros t' Ht'. inversion Ht'; subst t'.
      rewrite Forall_forall in Hfree. apply Hfree. now apply nth_error_In in Hnth.
    + split; [discriminate|]. intros Hfew.
      assert (Hsome : nth_error (Js.split_from "/" EmptyString uri) 2 <> None)
        by now rewrite Hnth.
      apply nth_error_Some in Hsome. lia.
  - split; [discriminate|].
    split; [|reflexivity]. intros _.
    apply nth_error_None in Hnth. lia.
Qed.

(** A URI as [list_resources] builds it. *)
Lemma tableName_of_users_uri : free_of "/" "users" = true.
Proof.
  exact (proj1 (tableName_of_is_a_segment "postgres://users/schema") "users" eq_refl).
Defined.

(** ** Dispatch in the builds with a client per call *)

Section PerCallDispatch.

Context {W : Type} (pg : Driver W).

(** An executor with a client of its own throws only what [new Client]
    threw. *)
Lemma OneClient_throws (config a b : Js.Value) (w : W) (e : Js.Exception) :
  (thrown (OneClient.testConnection pg config w) = Some e
   <-> exists w1, new_Client pg config w = (inl e, w1))
  /\ (thrown (OneClient.executeQuery pg config a w) = Some e
      <-> exists w1, new_Client pg config w = (inl e, w1))
  /\ (thrown (OneClient.createTable pg config a b w) = Some e
      <-> exists w1, new_Client pg config w = (inl e, w1))
  /\ (thrown (OneClient.insertData pg config a b w) = Some e
      <-> exists w1, new_Client pg config w = (inl e, w1)).
Proof.
  unfold OneClient.testConnection, OneClient.executeQuery, OneClient.createTable,
    OneClient.insertData.
  split; [|split; [|split]];
    apply testConnection_throws; intros e'; apply ret_returns.
Qed.

Lemma after_destructuring_throws (property : string) (args : Arguments_)
  (config : list (string * Js.Value) -> Js.Value)
  (k : list (string * Js.Value) -> @M W ToolResponse) (w : W) (e : Js.Exception) :
  (forall props,
      thrown (k props w) = Some e
      <-> exists w1, new_Client pg (config props) w = (inl e, w1)) ->
  thrown ((props <- lift (Js.destructure property args) ;; k props) w) = Some e
  <-> (Js.destructure property args = inl e
       \/ exists props w1,
           args = Some props /\ new_Client pg (config props) w = (inl e, w1)).
Proof.
  intros Hk. destruct args as [props|].
  - rewrite bind_destructured, (Hk props). split.
    + intros [w1 Hnew]. right. now exists props, w1.
    + intros [Habsent|[props' [w1 [Hsome Hnew]]]]; [discriminate|].
      inversion Hsome; subst props'. now exists w1.
  - rewrite bind_step. cbv [Js.destructure lift throw thrown result fst]. split.
    + intros H. left. now inversion H.
    + intros [H|[props [w1 [Hsome _]]]]; [now inversion H|discriminate].
Qed.

(** X15: the CallTool handler of the builds with a client per call.  For
    a name outside its [switch] it throws, before any driver call, a
    [McpError] constructed with the code [MethodNotFound] and the text
    [未知工具: <name>]; the message of that error, as the SDK composes it,
    is [MCP error -32601: 未知工具: <name>].  For a name inside it, it
    throws exactly when the arguments are absent where the executor
    destructures them, or when [new Client] throws; a rejected
    [connect()], statement or [end()], and a text that cannot be built,
    never cross the handler as an exception. *)
Theorem per_call_call_tool_throws
  (connectionString name : string) (args : Arguments_) (w : W) :
  (if recognized_by_Pooled name
   then forall e,
       thrown (PerCall.call_tool pg name args w) = Some e
       <-> (Js.destructure "url" args = inl e
            \/ exists props w1,
                args = Some props
                /\ new_Client pg (PerCall.config_of props) w = (inl e, w1))
   else PerCall.call_tool pg name args w
        = (inl (Js.McpError Js.MethodNotFound ("未知工具: " ++ name)), w, []))
  /\ (if recognized_by_Pooled name
      then forall e,
          thrown (EnvClient.call_tool pg connectionString name args w) = Some e
          <-> (if String.eqb name "test_connection"
               then exists w1,
                   new_Client pg (EnvClient.config connectionString) w = (inl e, w1)
               else Js.destructure (first_property name) args = inl e
                    \/ exists props w1,
                        args = Some props
                        /\ new_Client pg (EnvClient.config connectionString) w
                           = (inl e, w1))
      else EnvClient.call_tool pg connectionString name args w
           = (inl (Js.McpError Js.MethodNotFound ("未知工具: " ++ name)), w, []))
  /\ Js.message (Js.McpError Js.MethodNotFound ("未知工具: " ++ name))
     = Some ("MCP error -32601: 未知工具: " ++ name).
Proof.
  unfold recognized_by_Pooled, PerCall.call_tool, EnvClient.call_tool, first_property.
  split; [|split; [|reflexivity]].
  - destruct (String.eqb name "test_connection") eqn:E1; cbn [orb].
    { intros e. unfold PerCall.testConnection.
      apply (after_destructuring_throws "url" args PerCall.config_of).
      intros props. apply (OneClient_throws _ Js.Undefined Js.Undefined). }
    destruct (String.eqb name "execute_query") eqn:E2; cbn [orb].
    { intros e. unfold PerCall.executeQuery.
      apply (after_destructuring_throws "url" args PerCall.config_of).
      intros props. apply (proj1 (proj2 (OneClient_throws _ _ Js.Undefined w e))). }
    destruct (String.eqb name "create_table") eqn:E3; cbn [orb].
    { intros e. unfold PerCall.createTable.
      apply (after_destructuring_throws "url" args PerCall.config_of).
      intros props. apply (proj1 (proj2 (proj2 (OneClient_throws _ _ _ w e)))). }
    destruct (String.eqb name "insert_data") eqn:E4; cbn [orb].
    { intros e. unfold PerCall.insertData.
      apply (after_destructuring_throws "url" args PerCall.config_of).
      intros props. apply (proj2 (proj2 (proj2 (OneClient_throws _ _ _ w e)))). }
    reflexivity.
  - destruct (String.eqb name "test_connection") eqn:E1; cbn [orb].
    { intros e. apply (proj1 (OneClient_throws _ Js.Undefined Js.Undefined w e)). }
    destruct (String.eqb name "execute_query") eqn:E2; cbn [orb].
    { intros e. unfold EnvClient.executeQuery.
      apply (after_destructuring_throws "query" args
               (fun _ => EnvClient.config connectionString)).
      intros props. apply (proj1 (proj2 (OneClient_throws _ _ Js.Undefined w e))). }
    apply String.eqb_neq in E2.
    destruct (String.eqb name "create_table") eqn:E3; cbn [orb].
    { apply String.eqb_eq in E3. subst name. intros e. unfold EnvClient.createTable.
      apply (after_destructuring_throws "tableName" args
               (fun _ => EnvClient.config connectionString)).
      intros props. apply (proj1 (proj2 (proj2 (OneClient_throws _ _ _ w e)))). }
    destruct (String.eqb name "insert_data") eqn:E4; cbn [orb].
    { apply String.eqb_eq in E4. subst name. intros e. unfold EnvClient.insertData.
      apply (after_destructuring_throws "tableName" args
               (fun _ => EnvClient.config connectionString)).
      intros props. apply (proj2 (proj2 (proj2 (OneClient_throws _ _ _ w e)))). }
    reflexivity.
Qed.

End PerCallDispatch.

(** ** The tools advertised and the tools dispatched *)

Section Advertised.

Context {W : Type} (pg : Driver W).

Lemma pooled_executor_answers {A} (property : string) (args : Arguments_)
  (k : list (string * Js.Value) -> Client -> @M W A) (w : W) :
  answered_by_an_executor
    ((props <- lift (Js.destructure property args) ;;
      client <- await_pool_connect pg ;;
      k props client) w).
Proof.
  destruct args as [props|].
  - left. rewrite bind_destructured, bind_step. unfold await_pool_connect.
    destruct (pool_connect pg w) as [[e|client] w1]; eexists; eexists; reflexivity.
  - right. rewrite bind_step. eexists. reflexivity.
Qed.

Lemma own_client_answers {A} (config : Js.Value) (k : Client -> @M W A) (w : W) :
  answered_by_an_executor ((client <- construct_Client pg config ;; k client) w).
Proof.
  left. rewrite bind_step. unfold construct_Client.
  destruct (new_Client pg config w) as [[e|client] w1]; eexists; eexists; reflexivity.
Qed.

Lemma destructured_answers {A} (property : string) (args : Arguments_)
  (k : list (string * Js.Value) -> @M W A) (w : W) :
  (forall props, answered_by_an_executor (k props w)) ->
  answered_by_an_executor ((props <- lift (Js.destructure property args) ;; k props) w).
Proof.
  intros Hk. destruct args as [props|].
  - rewrite bind_destructured. apply Hk.
  - right. rewrite bind_step. eexists. reflexivity.
Qed.

Lemma answered_is_no_fault {A} (o : @Outcome W A) (e : Js.Exception) (w : W) :
  answered_by_an_executor o ->
  (forall m, e <> Js.TypeError m) ->
  o <> (inl e, w, []).
Proof.
  intros [[ev [rest Htrace]]|[m Hresult]] He Heq; subst o.
  - discriminate Htrace.
  - unfold result in Hresult. cbn in Hresult. inversion Hresult. now apply (He m).
Qed.

(** X16: every build advertises exactly the tools it dispatches: a name
    is in the catalogue [list_tools] returns if and only if [call_tool]
    does not answer it with the unknown-tool fault; and every input schema
    of the catalogues requires only properties it declares. *)
Theorem advertised_tools_are_dispatched
  (connectionString name : string) (args : Arguments_) (w : W) :
  (In (Js.Str name) (Catalogue.names Catalogue.Pooled_tools)
   <-> Pooled.call_tool pg connectionString name args w
       <> (inl (Js.McpError Js.MethodNotFound ("未知工具: " ++ name)), w, []))
  /\ (In (Js.Str name) (Catalogue.names Catalogue.EnvClient_tools)
      <-> EnvClient.call_tool pg connectionString name args w
          <> (inl (Js.McpError Js.MethodNotFound ("未知工具: " ++ name)), w, []))
  /\ (In (Js.Str name) (Catalogue.names Catalogue.PerCall_tools)
      <-> PerCall.call_tool pg name args w
          <> (inl (Js.McpError Js.MethodNotFound ("未知工具: " ++ name)), w, []))
  /\ (In (Js.Str name) (Catalogue.names Catalogue.PooledQuery_tools)
      <-> PooledQuery.call_tool pg connectionString name args w
          <> (inl (Js.Error ("未知工具: " ++ name)), w, []))
  /\ (forall t,
         In t (Catalogue.Pooled_tools ++ Catalogue.EnvClient_tools
               ++ Catalogue.PerCall_tools ++ Catalogue.PooledQuery_tools)%list ->
         incl (Catalogue.required t) (map Js.Str (Catalogue.declared t))).
Proof.
  split; [|split; [|split; [|split]]].
  - unfold Pooled.call_tool. split.
    + intros Hin. cbn in Hin.
      destruct Hin as [H|[H|[H|[H|[]]]]]; inversion H; subst name; cbn [String.eqb];
        apply answered_is_no_fault; try discriminate.
      * apply own_client_answers.
      * apply pooled_executor_answers.
      * apply pooled_executor_answers.
      * apply pooled_executor_answers.
    + intros Hknown. cbn.
      destruct (String.eqb name "test_connection") eqn:E1;
        [apply String.eqb_eq in E1; subst; auto|].
      destruct (String.eqb name "execute_query") eqn:E2;
        [apply String.eqb_eq in E2; subst; auto|].
      destruct (String.eqb name "create_table") eqn:E3;
        [apply String.eqb_eq in E3; subst; auto 6|].
      destruct (String.eqb name "insert_data") eqn:E4;
        [apply String.eqb_eq in E4; subst; auto 6|].
      now contradiction Hknown.
  - unfold EnvClient.call_tool. split.
    + intros Hin. cbn in Hin.
      destruct Hin as [H|[H|[H|[H|[]]]]]; inversion H; subst name; cbn [String.eqb];
        apply answered_is_no_fault; try discriminate.
      * apply own_client_answers.
      * apply destructured_answers. intros props. apply own_client_answers.
      * apply destructured_answers. intros props. apply own_client_answers.
      * apply destructured_answers. intros props. apply own_client_answers.
    + intros Hknown. cbn.
      destruct (String.eqb name "test_connection") eqn:E1;
        [apply String.eqb_eq in E1; subst; auto|].
      destruct (String.eqb name "execute_query") eqn:E2;
        [apply String.eqb_eq in E2; subst; auto|].
      destruct (String.eqb name "create_table") eqn:E3;
        [apply String.eqb_eq in E3; subst; auto 6|].
      destruct (String.eqb name "insert_data") eqn:E4;
        [apply String.eqb_eq in E4; subst; auto 6|].
      now contradiction Hknown.
  - unfold PerCall.call_tool. split.
    + intros Hin. cbn in Hin.
      destruct Hin as [H|[H|[H|[H|[]]]]]; inversion H; subst name; cbn [String.eqb];
        apply answered_is_no_fault; try discriminate;
        apply destructured_answers; intros props; apply own_client_answers.
    + intros Hknown. cbn.
      destruct (String.eqb name "test_connection") eqn:E1;
        [apply String.eqb_eq in E1; subst; auto|].
      destruct (String.eqb name "execute_query") eqn:E2;
        [apply String.eqb_eq in E2; subst; auto|].
      destruct (String.eqb name "create_table") eqn:E3;
        [apply String.eqb_eq in E3; subst; auto 6|].
      destruct (String.eqb name "insert_data") eqn:E4;
        [apply String.eqb_eq in E4; subst; auto 6|].
      now contradiction Hknown.
  - unfold PooledQuery.call_tool. split.
    + intros Hin. cbn in Hin.
      destruct Hin as [H|[H|[H|[]]]]; inversion H; subst name; cbn [String.eqb];
        apply answered_is_no_fault; try discriminate.
      * apply pooled_executor_answers.
      * apply own_client_answers.
      * apply pooled_executor_answers.
    + intros Hknown. cbn.
      destruct (String.eqb name "query") eqn:E1;
        [apply String.eqb_eq in E1; subst; auto|].
      destruct (String.eqb name "test_connection") eqn:E2;
        [apply String.eqb_eq in E2; subst; auto|].
      destruct (String.eqb name "create_table") eqn:E3;
        [apply String.eqb_eq in E3; subst; auto 6|].
      now contradiction Hknown.
  - intros t Hin f Hf. cbn in Hin.
    repeat (destruct Hin as [Ht|Hin]; [subst t; cbn in Hf |- *; tauto|]).
    contradiction.
Qed.

End Advertised.

(** ** Start-up *)

Lemma missing_false (value : option string) :
  Startup.missing value = false <-> exists s, value = Some s /\ s <> EmptyString.
Proof.
  destruct value as [s|]; cbn [Startup.missing].
  - split.
    + intros Hs. exists s. split; [reflexivity|]. now apply String.eqb_neq.
    + intros [s' [Hsome Hs']]. inversion Hsome; subst s'. now apply String.eqb_neq.
  - split; [discriminate|]. intros [s [Hsome _]]. discriminate.
Qed.

(** X17: the builds that read the environment start exactly when
    [POSTGRES_URL], [POSTGRES_USERNAME] and [POSTGRES_PASSWORD] are all set
    to a non-empty string - a variable set to the empty string counts as
    missing; the connection string is then
    [postgresql://<username>:<password>@<url>], the three values spliced as
    they are, with no escaping.  Otherwise the constructor throws one and
    the same error, whichever variable is missing. *)
Theorem server_starts_with_three_variables (env : Startup.Env) :
  (forall cs,
      Startup.connectionString env = inr cs
      <-> exists url username password,
          env "POSTGRES_URL" = Some url /\ url <> EmptyString
          /\ env "POSTGRES_USERNAME" = Some username /\ username <> EmptyString
          /\ env "POSTGRES_PASSWORD" = Some password /\ password <> EmptyString
          /\ cs = "postgresql://" ++ username ++ ":" ++ password ++ "@" ++ url)
  /\ (forall e,
         Startup.connectionString env = inl e ->
         e = Js.Error "缺少必要的数据库连接环境变量").
Proof.
  split.
  - intros cs. unfold Startup.connectionString.
    destruct (Startup.missing (env "POSTGRES_URL")) eqn:Hurl; cbn [orb].
    { split; [discriminate|].
      intros [url [username [password [Hu [Hune _]]]]].
      assert (Hfalse : Startup.missing (env "POSTGRES_URL") = false)
        by (apply missing_false; now exists url).
      congruence. }
    destruct (Startup.missing (env "POSTGRES_USERNAME")) eqn:Huser; cbn [orb].
    { split; [discriminate|].
      intros [url [username [password [_ [_ [Hu [Hune _]]]]]]].
      assert (Hfalse : Startup.missing (env "POSTGRES_USERNAME") = false)
        by (apply missing_false; now exists username).
      congruence. }
    destruct (Startup.missing (env "POSTGRES_PASSWORD")) eqn:Hpassword.
    { split; [discriminate|].
      intros [url [username [password [_ [_ [_ [_ [Hp [Hpne _]]]]]]]]].
      assert (Hfalse : Startup.missing (env "POSTGRES_PASSWORD") = false)
        by (apply missing_false; now exists password).
      congruence. }
    apply missing_false in Hurl, Huser, Hpassword.
    destruct Hurl as [url [Hurl Hurl']].
    destruct Huser as [username [Huser Huser']].
    destruct Hpassword as [password [Hpassword Hpassword']].
    rewrite Hurl, Huser, Hpassword. cbn [Startup.value_of]. split.
    + intros Hcs. inversion Hcs. exists url, username, password. repeat split; assumption.
    + intros [url' [username' [password' [Hu [_ [Hn [_ [Hp [_ Hcs]]]]]]]]].
      inversion Hu; inversion Hn; inversion Hp; subst. reflexivity.
  - intros e. unfold Startup.connectionString.
    destruct (_ || _ || _); intros H; now inversion H.
Qed.

(** A complete environment gives the connection string of the examples. *)
Lemma server_starts_on_a_complete_environment :
  Startup.connectionString
    (fun variable =>
       if String.eqb variable "POSTGRES_URL" then Some "localhost:5432/db"
       else if String.eqb variable "POSTGRES_USERNAME" then Some "u"
       else if String.eqb variable "POSTGRES_PASSWORD" then Some "p"
       else None)
  = inr Example.connectionString.
Proof.
  apply (proj1 (server_starts_with_three_variables
                  (fun variable =>
                     if String.eqb variable "POSTGRES_URL" then Some "localhost:5432/db"
                     else if String.eqb variable "POSTGRES_USERNAME" then Some "u"
                     else if String.eqb variable "POSTGRES_PASSWORD" then Some "p"
                     else None))).
  exists "localhost:5432/db", "u", "p".
  repeat split; discriminate.
Defined.
